(** * ppm-parser: a shallow embedding of [src/parsePPM.ts]

    The decoder turns a [Uint8Array] holding a PPM file (ASCII [P3] or binary
    [P6]) into a [PPMImage].  The TypeScript code leans on a handful of
    platform functions ([TextDecoder.decode], [String.prototype.split] with
    the regular expression [/\s+/], [String.prototype.indexOf], [parseInt],
    [Number], typed-array [subarray] and the [Uint8Array] constructor); they
    are modelled first, following ECMAScript and the WHATWG Encoding
    standard, and the functions of [parsePPM.ts] are then transcribed on top
    of them, statement by statement. *)

From Stdlib.Strings Require Import String Ascii Byte.
From Stdlib Require Import ZArith List Bool Lia.
Import ListNotations.
Local Open Scope Z_scope.

(** ** JavaScript strings and byte buffers *)

(** A JavaScript string is a sequence of UTF-16 code units. *)
Definition jsstring := list Z.

(** A [Uint8Array] is a sequence of bytes. *)
Definition Uint8Array := list byte.

Definition byte_val (b : byte) : Z := Z.of_N (Byte.to_N b).

(** String literals of the source, as code units. *)
Definition str (s : string) : jsstring :=
  map (fun a => Z.of_N (N_of_ascii a)) (list_ascii_of_string s).

Arguments str s%_string.

(** Bytes of an ASCII text, used to write buffers down. *)
Definition bytes (s : string) : Uint8Array := list_byte_of_string s.
Arguments bytes s%_string.

Definition jsstring_eqb (a b : jsstring) : bool :=
  if list_eq_dec Z.eq_dec a b then true else false.

(** A JavaScript value that is either a string or [undefined] ([None]). *)
Definition jsvalue := option jsstring.

(** [ToString] on such a value. *)
Definition ToString (v : jsvalue) : jsstring :=
  match v with
  | Some s => s
  | None => str "undefined"
  end.

(** Strict equality [v === 'lit'] of a value with a string literal. *)
Definition strict_eqb (v : jsvalue) (lit : jsstring) : bool :=
  match v with
  | Some s => jsstring_eqb s lit
  | None => false
  end.

(** ** White space: the class [\s] of regular expressions, which is also the
    [StrWhiteSpaceChar] trimmed by [parseInt] and [Number]. *)
Definition isWhiteSpace (c : Z) : bool :=
  (c =? 0x09) || (c =? 0x0A) || (c =? 0x0B) || (c =? 0x0C) || (c =? 0x0D)
  || (c =? 0x20) || (c =? 0xA0) || (c =? 0x1680)
  || ((0x2000 <=? c) && (c <=? 0x200A))
  || (c =? 0x2028) || (c =? 0x2029) || (c =? 0x202F) || (c =? 0x205F)
  || (c =? 0x3000) || (c =? 0xFEFF).

(** ** [new TextDecoder().decode(bytes)]: UTF-8, replacement error mode, a
    leading byte order mark dropped. *)
Module TextDecoder.

(** State of the WHATWG UTF-8 decoder. *)
Record state := mkState {
  code_point : Z;
  bytes_seen : Z;
  bytes_needed : Z;
  lower_boundary : Z;
  upper_boundary : Z
}.

Definition initial : state := mkState 0 0 0 0x80 0xBF.

Definition REPLACEMENT : Z := 0xFFFD.

Definition between (lo hi b : Z) : bool := (lo <=? b) && (b <=? hi).

(** A byte read while no continuation byte is awaited. *)
Definition lead (b : Z) : list Z * state :=
  if between 0x00 0x7F b then ([b], initial)
  else if between 0xC2 0xDF b then
    ([], mkState (Z.land b 0x1F) 0 1 0x80 0xBF)
  else if between 0xE0 0xEF b then
    ([], mkState (Z.land b 0xF) 0 2
           (if b =? 0xE0 then 0xA0 else 0x80)
           (if b =? 0xED then 0x9F else 0xBF))
  else if between 0xF0 0xF4 b then
    ([], mkState (Z.land b 0x7) 0 3
           (if b =? 0xF0 then 0x90 else 0x80)
           (if b =? 0xF4 then 0x8F else 0xBF))
  else ([REPLACEMENT], initial).

(** One byte: the code points emitted and the next state.  A byte outside
    the expected continuation range ends the pending sequence with an error
    and is read again from the initial state. *)
Definition step (st : state) (b : Z) : list Z * state :=
  if bytes_needed st =? 0 then lead b
  else if negb (between (lower_boundary st) (upper_boundary st) b) then
    let '(out, st') := lead b in (REPLACEMENT :: out, st')
  else
    let cp := Z.lor (Z.shiftl (code_point st) 6) (Z.land b 0x3F) in
    if bytes_seen st + 1 =? bytes_needed st then ([cp], initial)
    else ([], mkState cp (bytes_seen st + 1) (bytes_needed st) 0x80 0xBF).

Fixpoint run (st : state) (bs : Uint8Array) : list Z :=
  match bs with
  | [] => if bytes_needed st =? 0 then [] else [REPLACEMENT]
  | b :: bs' =>
      let '(out, st') := step st (byte_val b) in
      out ++ run st' bs'
  end.

(** Code points to UTF-16 code units. *)
Definition utf16 (cp : Z) : list Z :=
  if cp <? 0x10000 then [cp]
  else [0xD800 + Z.shiftr (cp - 0x10000) 10;
        0xDC00 + Z.land (cp - 0x10000) 0x3FF].

Definition stripBOM (cps : list Z) : list Z :=
  match cps with
  | cp :: rest => if cp =? 0xFEFF then rest else cps
  | [] => []
  end.

Definition decode (bs : Uint8Array) : jsstring :=
  flat_map utf16 (stripBOM (run initial bs)).

End TextDecoder.

(** ** [s.split(/\s+/)]

    The scan of [RegExp.prototype[@@split]]: the text before a maximal run of
    white space is pushed as a token, the run is skipped, and the text after
    the last run is pushed at the end (so leading or trailing white space
    gives an empty first or last token, and the empty string gives one empty
    token).  [tok] is the token being read; [matching] is set while a run of
    white space is being skipped. *)
Fixpoint split_loop (s : jsstring) (tok : jsstring) (matching : bool)
  : list jsstring :=
  match s with
  | [] => [tok]
  | c :: s' =>
      if isWhiteSpace c then
        if matching then split_loop s' [] true
        else tok :: split_loop s' [] true
      else split_loop s' (tok ++ [c]) false
  end.

Definition split (s : jsstring) : list jsstring := split_loop s [] false.

(** ** [s.indexOf(pattern)] *)
Fixpoint startsWith (pattern s : jsstring) : bool :=
  match pattern, s with
  | [], _ => true
  | _ :: _, [] => false
  | p :: pattern', c :: s' => (p =? c) && startsWith pattern' s'
  end.

Fixpoint indexOf_from (pattern s : jsstring) (i : Z) : Z :=
  if startsWith pattern s then i
  else match s with
       | [] => -1
       | _ :: s' => indexOf_from pattern s' (i + 1)
       end.

Definition indexOf (s pattern : jsstring) : Z := indexOf_from pattern s 0.

(** ** [lines.slice(n)] and [lines.join(sep)] *)
Definition slice {A} (n : nat) (l : list A) : list A := skipn n l.

Fixpoint join (sep : jsstring) (l : list jsstring) : jsstring :=
  match l with
  | [] => []
  | [s] => s
  | s :: l' => s ++ sep ++ join sep l'
  end.

(** ** [data.subarray(begin, end)]: relative indices clamped to the buffer. *)
Definition relative_index (len i : Z) : Z :=
  if i <? 0 then Z.max (len + i) 0 else Z.min i len.

Definition subarray (data : Uint8Array) (begin : Z) (end_ : option Z)
  : Uint8Array :=
  let len := Z.of_nat (length data) in
  let b := relative_index len begin in
  let e := match end_ with
           | Some e => relative_index len e
           | None => len
           end in
  firstn (Z.to_nat (e - b)) (skipn (Z.to_nat b) data).

(** ** Numbers

    A JavaScript number is an IEEE 754 binary64 value.  Finite values are kept
    exactly: an integer-valued one as [Int z], any other as [Frac m k], which
    stands for [m / 2^k] with [m] odd.  The two zeros are not told apart:
    nothing in [parsePPM.ts] can observe the sign of a zero. *)
Inductive number :=
| NaN
| Infinity (negative : bool)
| Int (z : Z)
| Frac (m : Z) (k : positive).

Module Binary64.

(** [floor (log2 (a / q))] for positive [a] and [q]. *)
Definition ilog2 (a q : Z) : Z :=
  let e := Z.log2 a - Z.log2 q in
  let below := if 0 <=? e then a <? q * 2 ^ e else a * 2 ^ (- e) <? q in
  if below then e - 1 else e.

(** The integer nearest to [num / den], ties to even. *)
Definition nearest_even (num den : Z) : Z :=
  let qt := num / den in
  let r := num mod den in
  if 2 * r <? den then qt
  else if den <? 2 * r then qt + 1
  else if Z.even qt then qt else qt + 1.

(** The number [+-mant * 2^u], overflowing to an infinity from [2^1024]. *)
Definition of_scaled (negative : bool) (mant u : Z) : number :=
  let sg := if negative then -1 else 1 in
  if 0 <=? u then
    if 2 ^ 1024 <=? mant * 2 ^ u then Infinity negative
    else Int (sg * (mant * 2 ^ u))
  else
    let d := 2 ^ (- u) in
    if mant mod d =? 0 then Int (sg * (mant / d))
    else
      let g := Z.gcd mant d in
      Frac (sg * (mant / g)) (Z.to_pos (Z.log2 (d / g))).

(** [p / q] (with [0 < q]) rounded to the nearest binary64 value, ties to
    even: 53 significant bits, least exponent [-1074]. *)
Definition round (p q : Z) : number :=
  let a := Z.abs p in
  if a =? 0 then Int 0
  else
    let u := Z.max (ilog2 a q - 52) (-1074) in
    let mant := if 0 <=? u then nearest_even a (q * 2 ^ u)
                else nearest_even (a * 2 ^ (- u)) q in
    of_scaled (p <? 0) mant u.

(** A finite number as a fraction. *)
Definition ratio (n : number) : option (Z * Z) :=
  match n with
  | Int z => Some (z, 1)
  | Frac m k => Some (m, 2 ^ Zpos k)
  | _ => None
  end.

End Binary64.

(** [a * b] *)
Definition jsmul (a b : number) : number :=
  match a, b with
  | NaN, _ | _, NaN => NaN
  | Infinity s, Infinity t => Infinity (xorb s t)
  | Infinity s, Int z | Int z, Infinity s =>
      if z =? 0 then NaN else Infinity (xorb s (z <? 0))
  | Infinity s, Frac m _ | Frac m _, Infinity s => Infinity (xorb s (m <? 0))
  | _, _ =>
      match Binary64.ratio a, Binary64.ratio b with
      | Some (p1, q1), Some (p2, q2) => Binary64.round (p1 * p2) (q1 * q2)
      | _, _ => NaN
      end
  end.

(** [a + b] *)
Definition jsadd (a b : number) : number :=
  match a, b with
  | NaN, _ | _, NaN => NaN
  | Infinity s, Infinity t => if Bool.eqb s t then Infinity s else NaN
  | Infinity s, _ | _, Infinity s => Infinity s
  | _, _ =>
      match Binary64.ratio a, Binary64.ratio b with
      | Some (p1, q1), Some (p2, q2) =>
          Binary64.round (p1 * q2 + p2 * q1) (q1 * q2)
      | _, _ => NaN
      end
  end.

(** [a === b] on numbers: [NaN] equals nothing, itself included. *)
Definition number_eqb (a b : number) : bool :=
  match a, b with
  | Infinity s, Infinity t => Bool.eqb s t
  | Int x, Int y => x =? y
  | Frac m k, Frac n l => (m =? n) && (Pos.eqb k l)
  | _, _ => false
  end.

(** [ToUint8]: not finite gives 0; otherwise truncate and reduce modulo 256. *)
Definition ToUint8 (n : number) : Z :=
  match n with
  | NaN | Infinity _ => 0
  | Int z => z mod 256
  | Frac m k => (Z.quot m (2 ^ Zpos k)) mod 256
  end.

Definition byte_of_Z (z : Z) : byte :=
  match Byte.of_N (Z.to_N z) with
  | Some b => b
  | None => x00
  end.

(** [new Uint8Array(values)] on an array of numbers. *)
Definition new_Uint8Array (values : list number) : Uint8Array :=
  map (fun v => byte_of_Z (ToUint8 v)) values.

(** [array[index]] on a typed array: an element for an integer index inside
    the array, [undefined] ([None]) for every other number. *)
Definition typed_get (a : Uint8Array) (index : number) : option Z :=
  match index with
  | Int i => if (0 <=? i) && (i <? Z.of_nat (length a))
             then option_map byte_val (nth_error a (Z.to_nat i))
             else None
  | _ => None
  end.

(** ** Numeric literals in strings

    [parseInt] and [Number] read a literal as the mathematical value of its
    digits and round it once.  Where ECMAScript lets an implementation
    approximate a literal of more than 20 significant digits, the correctly
    rounded value is taken. *)

Definition chr (a : ascii) : Z := Z.of_N (N_of_ascii a).
Arguments chr a%_char.

(** The value of a character as a digit of the given radix. *)
Definition digit_of (radix c : Z) : option Z :=
  let d := if (chr "0" <=? c) && (c <=? chr "9") then c - chr "0"
           else if (chr "a" <=? c) && (c <=? chr "z") then c - chr "a" + 10
           else if (chr "A" <=? c) && (c <=? chr "Z") then c - chr "A" + 10
           else radix in
  if d <? radix then Some d else None.

(** The longest prefix made of digits, as digit values, and what follows. *)
Fixpoint span_digits (radix : Z) (s : jsstring) : list Z * jsstring :=
  match s with
  | [] => ([], [])
  | c :: s' =>
      match digit_of radix c with
      | Some d => let '(ds, rest) := span_digits radix s' in (d :: ds, rest)
      | None => ([], s)
      end
  end.

Definition digits_value (radix : Z) (ds : list Z) : Z :=
  fold_left (fun acc d => acc * radix + d) ds 0.

Fixpoint trimStart (s : jsstring) : jsstring :=
  match s with
  | c :: s' => if isWhiteSpace c then trimStart s' else s
  | [] => []
  end.

Definition trim (s : jsstring) : jsstring :=
  rev (trimStart (rev (trimStart s))).

(** An optional sign: whether it is a minus, and what follows. *)
Definition read_sign (s : jsstring) : bool * jsstring :=
  match s with
  | c :: s' => if c =? chr "-" then (true, s')
               else if c =? chr "+" then (false, s')
               else (false, s)
  | [] => (false, [])
  end.

Definition signed (negative : bool) (z : Z) : Z :=
  if negative then - z else z.

(** The radix [parseInt] settles on when none is given: 16 after a prefix
    [0x] or [0X], which is dropped, and 10 otherwise. *)
Definition read_radix (s : jsstring) : Z * jsstring :=
  match s with
  | c0 :: c1 :: s' =>
      if (c0 =? chr "0") && ((c1 =? chr "x") || (c1 =? chr "X"))
      then (16, s') else (10, s)
  | _ => (10, s)
  end.

(** [parseInt(v)] without a radix. *)
Definition parseInt (v : jsvalue) : number :=
  let '(negative, s) := read_sign (trimStart (ToString v)) in
  let '(radix, digits) := read_radix s in
  match fst (span_digits radix digits) with
  | [] => NaN
  | ds => Binary64.round (signed negative (digits_value radix ds)) 1
  end.

(** A [StrUnsignedDecimalLiteral] other than [Infinity], read to the end of
    the string: digits, an optional fraction, an optional exponent.  The
    result [(n, e)] stands for [n * 10^e]. *)
Definition decimal_literal (s : jsstring) : option (Z * Z) :=
  let '(ip, s1) := span_digits 10 s in
  let '(fp, s2) :=
    match s1 with
    | c :: r => if c =? chr "." then span_digits 10 r else ([], s1)
    | [] => ([], [])
    end in
  match ip ++ fp with
  | [] => None
  | ds =>
      let n := digits_value 10 ds in
      let scale := - Z.of_nat (length fp) in
      match s2 with
      | [] => Some (n, scale)
      | c :: r =>
          if (c =? chr "e") || (c =? chr "E") then
            let '(eneg, r1) := read_sign r in
            match span_digits 10 r1 with
            | (d :: ed, []) =>
                Some (n, signed eneg (digits_value 10 (d :: ed)) + scale)
            | _ => None
            end
          else None
      end
  end.

(** A [NonDecimalIntegerLiteral] after its two-character prefix. *)
Definition radix_literal (radix : Z) (s : jsstring) : number :=
  match span_digits radix s with
  | (d :: ds, []) => Binary64.round (digits_value radix (d :: ds)) 1
  | _ => NaN
  end.

(** The prefix of a [NonDecimalIntegerLiteral]: its radix and what follows. *)
Definition non_decimal_prefix (t : jsstring) : option (Z * jsstring) :=
  match t with
  | c0 :: c1 :: r =>
      if c0 =? chr "0" then
        if (c1 =? chr "x") || (c1 =? chr "X") then Some (16, r)
        else if (c1 =? chr "o") || (c1 =? chr "O") then Some (8, r)
        else if (c1 =? chr "b") || (c1 =? chr "B") then Some (2, r)
        else None
      else None
  | _ => None
  end.

(** A [StrDecimalLiteral]: a sign, then [Infinity] or a decimal literal. *)
Definition signed_decimal (t : jsstring) : number :=
  let '(negative, u) := read_sign t in
  if jsstring_eqb u (str "Infinity") then Infinity negative
  else
    match decimal_literal u with
    | Some (n, e) =>
        if 0 <=? e then Binary64.round (signed negative n * 10 ^ e) 1
        else Binary64.round (signed negative n) (10 ^ (- e))
    | None => NaN
    end.

(** [Number(s)] on a string ([StringToNumber]). *)
Definition Number (s : jsstring) : number :=
  match trim s with
  | [] => Int 0
  | t =>
      match non_decimal_prefix t with
      | Some (radix, r) => radix_literal radix r
      | None => signed_decimal t
      end
  end.

(** ** Exceptions

    A function of the source either returns a value or throws
    [new Error(message)]. *)
Inductive result (A : Type) :=
| Ok (a : A)
| Throw (message : jsstring).
Arguments Ok {A} a.
Arguments Throw {A} message.

Definition bind {A B} (r : result A) (k : A -> result B) : result B :=
  match r with
  | Ok a => k a
  | Throw m => Throw m
  end.

Notation "' pat <- r ;; k" := (bind r (fun pat => k))
  (at level 61, pat pattern, r at next level, right associativity).

(** The three errors of the decoder, each with the message the source throws;
    for the second the message ends with the offending format token. *)
Definition UnsupportedColorDepth : jsstring :=
  str "Only 8-bit color depth (max value 255) is supported.".

Definition UnsupportedFormat (format : jsvalue) : jsstring :=
  str "Unsupported PPM format: " ++ ToString format.

Definition PixelDataSizeMismatch : jsstring :=
  str "Pixel data does not match expected size.".

(** ** [parsePPM.ts] *)

(** The string literal ['\n']. *)
Definition LINE_FEED : jsstring := [0x0A].

(** The PPM file format, either "P3" (ASCII) or "P6" (binary). *)
Inductive PPMFormat := P3 | P6.

(** A parsed PPM image. *)
Record PPMImage := mkPPMImage {
  width : number;
  height : number;
  pixelData : Uint8Array;
  maxColorValue : number;
  format : PPMFormat
}.

(** The object [{ r, g, b }] returned by [getPixel]; a component is
    [undefined] ([None]) when the index falls outside [pixelData]. *)
Record Pixel := mkPixel {
  r : option Z;
  g : option Z;
  b : option Z
}.

(** [getPixel(x, y)]: the RGB values of the pixel at the given coordinates. *)
Definition getPixel (img : PPMImage) (x y : number) : Pixel :=
  let index := jsmul (jsadd (jsmul y (width img)) x) (Int 3) in
  {| r := typed_get (pixelData img) index;
     g := typed_get (pixelData img) (jsadd index (Int 1));
     b := typed_get (pixelData img) (jsadd index (Int 2)) |}.

(** [pixelCount]: the total number of pixels.  ([aspectRatio], a division,
    enters no statement below and is left out.) *)
Definition pixelCount (img : PPMImage) : number :=
  jsmul (width img) (height img).

(** The header attributes [{ format, width, height, maxColorValue }]. *)
Record HeaderAttributes := mkHeader {
  h_format : jsvalue;
  h_width : number;
  h_height : number;
  h_maxColorValue : number
}.

(** Parses the header attributes; throws if the maxColorValue is not 255. *)
Definition parseHeaderAttributes (headerLines : list jsstring)
  : result HeaderAttributes :=
  let format := nth_error headerLines 0 in
  let width := nth_error headerLines 1 in
  let height := nth_error headerLines 2 in
  let maxColorValue := nth_error headerLines 3 in
  if negb (strict_eqb maxColorValue (str "255")) then
    Throw UnsupportedColorDepth
  else
    Ok (mkHeader format (parseInt width) (parseInt height)
          (parseInt maxColorValue)).

(** Parses a PPM file in the P6 (binary) format. *)
Definition parsePPMP6 (data : Uint8Array) : result PPMImage :=
  let header := TextDecoder.decode (subarray data 0 (Some 20)) in
  let headerLines := split header in
  ' attrs <- parseHeaderAttributes headerLines ;;
  if negb (strict_eqb (h_format attrs) (str "P6")) then
    Throw (UnsupportedFormat (h_format attrs))
  else
    let headerLength := indexOf header (str "255") + 4 in
    let pixelData := subarray data headerLength None in
    if negb (number_eqb (Int (Z.of_nat (length pixelData)))
               (jsmul (jsmul (h_width attrs) (h_height attrs)) (Int 3)))
    then Throw PixelDataSizeMismatch
    else Ok (mkPPMImage (h_width attrs) (h_height attrs) pixelData
               (h_maxColorValue attrs) P6).

(** Parses a PPM file in the P3 (ASCII) format. *)
Definition parsePPMP3 (data : Uint8Array) : result PPMImage :=
  let header := TextDecoder.decode data in
  let headerLines := split header in
  ' attrs <- parseHeaderAttributes headerLines ;;
  if negb (strict_eqb (h_format attrs) (str "P3")) then
    Throw (UnsupportedFormat (h_format attrs))
  else
    let pixelDataLines := join LINE_FEED (slice 4 headerLines) in
    let parsedValues := map Number (split pixelDataLines) in
    if negb (number_eqb (Int (Z.of_nat (length parsedValues)))
               (jsmul (jsmul (h_width attrs) (h_height attrs)) (Int 3)))
    then Throw PixelDataSizeMismatch
    else
      let pixelData := new_Uint8Array parsedValues in
      Ok (mkPPMImage (h_width attrs) (h_height attrs) pixelData
            (h_maxColorValue attrs) P3).

(** Parses a PPM file in either the P3 (ASCII) or P6 (binary) format. *)
Definition parsePPM (data : Uint8Array) : result PPMImage :=
  let header := TextDecoder.decode (subarray data 0 (Some 20)) in
  let format := nth_error (split header) 0 in
  if strict_eqb format (str "P6") then parsePPMP6 data
  else if strict_eqb format (str "P3") then parsePPMP3 data
  else Throw (UnsupportedFormat format).

(** * Vocabulary of the statements *)

(** ** What the decoder reads *)

(** The header lines read by each extractor: [parsePPMP6] (and the
    dispatcher) split the text of the first 20 bytes, [parsePPMP3] the text
    of the whole buffer. *)
Definition headerLinesP6 (data : Uint8Array) : list jsstring :=
  split (TextDecoder.decode (firstn 20 data)).

Definition headerLinesP3 (data : Uint8Array) : list jsstring :=
  split (TextDecoder.decode data).

(** The number the source writes [width * height * 3]. *)
Definition expected_size (lines : list jsstring) : number :=
  jsmul (jsmul (parseInt (nth_error lines 1)) (parseInt (nth_error lines 2)))
    (Int 3).

(** The bytes [parsePPMP6] takes as pixel data. *)
Definition payloadP6 (data : Uint8Array) : Uint8Array :=
  skipn (Z.to_nat (indexOf (TextDecoder.decode (firstn 20 data)) (str "255") + 4))
    data.

(** The values [parsePPMP3] converts to pixel data. *)
Definition parsedValuesP3 (data : Uint8Array) : list number :=
  map Number (split (join LINE_FEED (slice 4 (headerLinesP3 data)))).

(** Width and height, as [parseInt] gives them, are integers, infinities or
    [NaN]. *)
Definition integral (n : number) : Prop :=
  n = NaN \/ (exists s, n = Infinity s) \/ (exists z, n = Int z).

(** The element of a typed array at an integer offset, [undefined] outside
    the array. *)
Definition element_at (a : Uint8Array) (i : Z) : option Z :=
  if (0 <=? i) && (i <? Z.of_nat (length a))
  then option_map byte_val (nth_error a (Z.to_nat i))
  else None.

(** ** Occurrences of a pattern in a text *)

Definition occurs_at (pattern s : jsstring) (i : nat) : Prop :=
  startsWith pattern (skipn i s) = true.

Definition first_occurrence (pattern s : jsstring) (i : nat) : Prop :=
  occurs_at pattern s i /\ forall j, (j < i)%nat -> ~ occurs_at pattern s j.

(** ** Tokens *)

(** A text without white space. *)
Definition clean (t : jsstring) : Prop :=
  Forall (fun c => isWhiteSpace c = false) t.

(** All tokens but the last are non-empty. *)
Fixpoint inner_nonempty (l : list jsstring) : Prop :=
  match l with
  | [] => True
  | t :: l' =>
      match l' with
      | [] => True
      | _ :: _ => t <> [] /\ inner_nonempty l'
      end
  end.

(** The text of a natural number in decimal, given by its digits, most
    significant first; [digits_value 10] is the number it denotes. *)
Definition numeral (ds : list Z) : jsstring := map (fun d => chr "0" + d) ds.

Definition decimal_digits (ds : list Z) : Prop :=
  ds <> [] /\ Forall (fun d => 0 <= d <= 9) ds.

(** ** Files written in ASCII *)

Definition ascii_bytes (bs : Uint8Array) : Prop :=
  Forall (fun c => byte_val c < 128) bs.

(** The white space bytes of ASCII. *)
Definition ascii_space (c : byte) : Prop :=
  In c [x09; x0a; x0b; x0c; x0d; x20].

(** The byte of a decimal digit, and the bytes of a numeral. *)
Definition digit_byte (d : Z) : byte := byte_of_Z (chr "0" + d).

Definition numeral_bytes (ds : list Z) : Uint8Array := map digit_byte ds.

(** The text that the bytes after an ASCII prefix decode to. *)
Definition decoded_tail (rest : Uint8Array) : jsstring :=
  flat_map TextDecoder.utf16 (TextDecoder.run TextDecoder.initial rest).

(** The text of a header: a tag, a width, a height and "255", one space
    between them; and its bytes. *)
Definition header_text (tag : jsstring) (ws hs : list Z) : jsstring :=
  tag ++ chr " " :: numeral ws ++ chr " " :: numeral hs ++ chr " " :: str "255".

Definition header_bytes (tag : Uint8Array) (ws hs : list Z) : Uint8Array :=
  tag ++ x20 :: numeral_bytes ws ++ x20 :: numeral_bytes hs ++ x20 :: bytes "255".

(** A pixel value of a P3 file as it is written: a run of white space, then
    the digits of a numeral. *)
Definition pixel_token : Type := Uint8Array * list Z.

Definition token_value (item : pixel_token) : Z := digits_value 10 (snd item).

Definition written (item : pixel_token) : Prop :=
  fst item <> [] /\ Forall ascii_space (fst item)
  /\ decimal_digits (snd item) /\ token_value item <= 255.

Definition pixel_tokens_bytes (items : list pixel_token) : Uint8Array :=
  flat_map (fun item : pixel_token => fst item ++ numeral_bytes (snd item))
    items.

(** ** Sample files *)

(** A 2 by 1 P6 image, its pixel bytes being 10, 20, 30, 40, 50, 60; the
    same with the last byte missing. *)
Definition two_by_one_P6 : Uint8Array :=
  bytes "P6 2 1 255" ++ [x0a; x0a; x14; x1e; x28; x32; x3c].

Definition P6_short : Uint8Array :=
  bytes "P6 2 1 255" ++ [x0a; x0a; x14; x1e; x28; x32].

(** A 255 by 1 P6 image, and an empty P6 image with a long header. *)
Definition P6_wide : Uint8Array :=
  header_bytes (bytes "P6") [2; 5; 5] [1] ++ x0a :: repeat x00 765.

Definition P6_long : Uint8Array :=
  header_bytes (bytes "P6") [0] [1; 0; 0; 0; 0; 0; 0; 0; 0; 0; 0; 0; 0] ++ [x0a].

(** P3 images: one pixel; one pixel with a value missing; one pixel followed
    by a line feed; one pixel with values out of range; no pixel. *)
Definition P3_pixel : Uint8Array := bytes "P3 1 1 255 10 200 30".


Definition P3_newline : Uint8Array := bytes "P3 1 1 255 10 200 30" ++ [x0a].

Definition P3_out_of_range : Uint8Array := bytes "P3 1 1 255 300 -1 0x10".

Definition P3_empty : Uint8Array :=
  header_bytes (bytes "P3") [0] [0] ++ pixel_tokens_bytes [].

(** Headers with a colour depth of 16 bits, or with the tag "P5". *)
Definition P6_deep : Uint8Array := bytes "P6 1 1 65535 abc".

Definition P3_deep : Uint8Array := bytes "P3 1 1 65535 1 2 3".

Definition P5_deep : Uint8Array := bytes "P5 1 1 65535".

Definition P5_shallow : Uint8Array := bytes "P5 1 1 255 abc".

(** ** Outcomes *)


(** ** The decoder, byte by byte *)

(** What [TextDecoder.run] has emitted once it has read some bytes, with the
    state it is then in; and what it emits when the input ends there. *)
Fixpoint decoder_feed (st : TextDecoder.state) (bs : Uint8Array)
  : list Z * TextDecoder.state :=
  match bs with
  | [] => ([], st)
  | b :: bs' =>
      let '(out, st') := TextDecoder.step st (byte_val b) in
      let '(outs, st'') := decoder_feed st' bs' in
      (out ++ outs, st'')
  end.

Definition decoder_flush (st : TextDecoder.state) : list Z :=
  if TextDecoder.bytes_needed st =? 0 then [] else [TextDecoder.REPLACEMENT].

(** The number of bytes read of a sequence that is not complete yet, and the
    states in which a sequence of at most four bytes is being read. *)
Definition pending (st : TextDecoder.state) : Z :=
  if TextDecoder.bytes_needed st =? 0 then 0 else TextDecoder.bytes_seen st + 1.

Definition well_formed (st : TextDecoder.state) : Prop :=
  TextDecoder.bytes_needed st = 0
  \/ (0 <= TextDecoder.bytes_seen st < TextDecoder.bytes_needed st
      /\ TextDecoder.bytes_needed st <= 3).

(** The UTF-8 byte order mark. *)
Definition BOM : Uint8Array := [xef; xbb; xbf].

(** ** Headers with any spacing *)

(** A header field as it is written: a run of white space, then the digits
    of a numeral. *)
Definition spaced (item : pixel_token) : Prop :=
  fst item <> [] /\ Forall ascii_space (fst item) /\ decimal_digits (snd item).

(** The three fields that follow the tag: width, height and "255", each after
    its run of white space. *)
Definition header_fields (r1 : Uint8Array) (ws : list Z) (r2 : Uint8Array)
  (hs : list Z) (r3 : Uint8Array) : list pixel_token :=
  [(r1, ws); (r2, hs); (r3, [2; 5; 5])].

Definition spaced_header (tag r1 : Uint8Array) (ws : list Z) (r2 : Uint8Array)
  (hs : list Z) (r3 : Uint8Array) : Uint8Array :=
  tag ++ pixel_tokens_bytes (header_fields r1 ws r2 hs r3).

(** Whether the scan of [split] is skipping a run of white space once it
    has read [s]. *)
Fixpoint ends_white (s : jsstring) (matching : bool) : bool :=
  match s with
  | [] => matching
  | c :: s' => ends_white s' (isWhiteSpace c)
  end.

(** ** More sample files *)

(** The 2 by 1 image of [two_by_one_P6] laid out on lines, as P6 and as
    P3. *)
Definition P6_lines : Uint8Array :=
  bytes "P6" ++ x0a :: bytes "2 1" ++ x0a :: bytes "255" ++ x0a
    :: [x0a; x14; x1e; x28; x32; x3c].

Definition P3_lines : Uint8Array :=
  bytes "P3" ++ x0a :: bytes "2 1" ++ x0a :: bytes "255" ++ x0a
    :: bytes "10 20 30" ++ x0a :: bytes "40 50 60".

(** ** Concrete files *)

(** Tactics for concrete files: a run of white space bytes, the digits of a
    numeral, a pixel value as it is written, a list of them. *)
Ltac concrete_run := repeat (constructor; [vm_compute; tauto|]); constructor.
Ltac concrete_digits := split; [discriminate|repeat constructor; lia].
Ltac concrete_written :=
  split; [discriminate|
  split; [concrete_run|
  split; [concrete_digits|vm_compute; intros F; discriminate F]]].
Ltac concrete_items := repeat (constructor; [concrete_written|]); constructor.

(** * Properties *)

(** ** Rounding of integers

    Integers of magnitude below [2^53] are binary64 values; a larger integer
    rounds to an integer of magnitude at least [2^53], or to an infinity. *)
Module Binary64Facts.
Import Binary64.

Lemma ilog2_integer (a : Z) : 0 < a -> ilog2 a 1 = Z.log2 a.
Proof.
  intros Ha. unfold ilog2. change (Z.log2 1) with 0. rewrite Z.sub_0_r.
  pose proof (Z.log2_nonneg a) as Hn.
  destruct (Z.leb_spec 0 (Z.log2 a)); [|lia].
  pose proof (Z.log2_spec a Ha) as [Hlo _].
  destruct (Z.ltb_spec a (1 * 2 ^ Z.log2 a)); [lia|reflexivity].
Qed.

Lemma nearest_even_unit (n : Z) : nearest_even n 1 = n.
Proof.
  unfold nearest_even. rewrite Z.mod_1_r, Z.div_1_r. reflexivity.
Qed.

Lemma nearest_even_lower (num den : Z) :
  0 < den -> num / den <= nearest_even num den.
Proof.
  intros Hd. unfold nearest_even.
  destruct (2 * (num mod den) <? den); [lia|].
  destruct (den <? 2 * (num mod den)); [lia|].
  destruct (Z.even (num / den)); lia.
Qed.

Lemma signed_abs (p : Z) : (if p <? 0 then -1 else 1) * Z.abs p = p.
Proof. destruct (Z.ltb_spec p 0); lia. Qed.

(** Exactness below [2^53]. *)
Lemma round_exact (p : Z) : Z.abs p < 2 ^ 53 -> round p 1 = Int p.
Proof.
  intros Hp. unfold round.
  destruct (Z.eqb_spec (Z.abs p) 0) as [H0|H0].
  { f_equal. lia. }
  assert (Ha : 0 < Z.abs p) by lia.
  rewrite (ilog2_integer _ Ha).
  assert (Hl : Z.log2 (Z.abs p) < 53)
    by (apply Z.log2_lt_pow2; [lia|exact Hp]).
  pose proof (Z.log2_nonneg (Z.abs p)) as Hn.
  rewrite Z.max_l by lia.
  destruct (Z.leb_spec 0 (Z.log2 (Z.abs p) - 52)) as [Hu|Hu].
  - assert (Hz : Z.log2 (Z.abs p) - 52 = 0) by lia. rewrite Hz.
    change (1 * 2 ^ 0) with 1. rewrite nearest_even_unit.
    unfold of_scaled. change (0 <=? 0) with true. cbv iota.
    change (2 ^ 0) with 1. rewrite Z.mul_1_r.
    destruct (Z.leb_spec (2 ^ 1024) (Z.abs p)) as [Hbig|_].
    + exfalso. assert (2 ^ 53 < 2 ^ 1024) by (apply Z.pow_lt_mono_r; lia). lia.
    + f_equal. apply signed_abs.
  - rewrite nearest_even_unit. unfold of_scaled.
    destruct (Z.leb_spec 0 (Z.log2 (Z.abs p) - 52)); [lia|].
    set (d := 2 ^ (- (Z.log2 (Z.abs p) - 52))).
    assert (Hd : 0 < d) by (apply Z.pow_pos_nonneg; lia).
    rewrite Z.mod_mul by lia. change (0 =? 0) with true. cbv iota.
    rewrite Z.div_mul by lia. f_equal. apply signed_abs.
Qed.

(** Integers round to integers or infinities, and a result of magnitude
    below [2^53] is the integer itself. *)
Lemma round_integer (p : Z) :
  round p 1 = Int p
  \/ (exists v, round p 1 = Int v /\ 2 ^ 53 <= Z.abs v)
  \/ (exists s, round p 1 = Infinity s).
Proof.
  destruct (Z.lt_ge_cases (Z.abs p) (2 ^ 53)) as [Hs|Hb].
  { left. apply round_exact, Hs. }
  right. unfold round.
  destruct (Z.eqb_spec (Z.abs p) 0) as [H0|H0].
  { exfalso. rewrite H0 in Hb. assert (0 < 2 ^ 53) by (apply Z.pow_pos_nonneg; lia). lia. }
  assert (Ha : 0 < Z.abs p) by lia.
  rewrite (ilog2_integer _ Ha).
  assert (Hl : 53 <= Z.log2 (Z.abs p)) by (apply Z.log2_le_pow2; lia).
  rewrite Z.max_l by lia.
  set (u := Z.log2 (Z.abs p) - 52).
  assert (Hu : 1 <= u) by (unfold u; lia).
  destruct (Z.leb_spec 0 u); [|lia].
  unfold of_scaled. destruct (Z.leb_spec 0 u); [|lia].
  set (mant := nearest_even (Z.abs p) (1 * 2 ^ u)).
  destruct (Z.leb_spec (2 ^ 1024) (mant * 2 ^ u)).
  { right. eexists. reflexivity. }
  left. eexists. split; [reflexivity|].
  assert (Hpu : 0 < 2 ^ u) by (apply Z.pow_pos_nonneg; lia).
  assert (Hm : 2 ^ 52 <= mant).
  { unfold mant. rewrite Z.mul_1_l.
    eapply Z.le_trans; [|apply nearest_even_lower; lia].
    apply Z.div_le_lower_bound; [lia|].
    pose proof (Z.log2_spec _ Ha) as [Hlo _].
    replace (Z.log2 (Z.abs p)) with (u + 52) in Hlo by (unfold u; lia).
    rewrite Z.pow_add_r in Hlo by lia. lia. }
  assert (H53 : 2 ^ 53 <= mant * 2 ^ u).
  { change (2 ^ 53) with (2 ^ 52 * 2 ^ 1).
    apply Z.mul_le_mono_nonneg; try lia.
    apply Z.pow_le_mono_r; lia. }
  destruct (p <? 0); lia.
Qed.

Lemma round_small (p n : Z) :
  round p 1 = Int n -> Z.abs n < 2 ^ 53 -> p = n.
Proof.
  intros H Hn. destruct (round_integer p) as [E|[(v & E & Hv)|(s & E)]];
    rewrite E in H; [congruence| |discriminate].
  injection H as ->. lia.
Qed.

End Binary64Facts.

(** ** The platform functions on sample inputs *)

Example decode_sample :
  TextDecoder.decode [xef; xbb; xbf; x50; xe2; x82; xac; xf0; x9f; x98; x80; xc3; x28]
  = [80; 8364; 55357; 56832; 65533; 40].
Proof. vm_compute. reflexivity. Qed.

Example split_sample :
  split (str " P6 1  1 255 ") = [[]; str "P6"; str "1"; str "1"; str "255"; []]
  /\ split [] = [[]].
Proof. split; vm_compute; reflexivity. Qed.

Example parseInt_sample :
  map (fun t => parseInt (Some (str t)))
    ["12px"; "  42"; "-7"; "0x1f"; "abc"; EmptyString; "1e3"; "9007199254740993"]%string
  = [Int 12; Int 42; Int (-7); Int 31; NaN; NaN; Int 1; Int 9007199254740992]
  /\ parseInt None = NaN.
Proof. split; vm_compute; reflexivity. Qed.

Example Number_sample :
  map (fun t => Number (str t))
    ["1.5"; "-1"; "1e3"; EmptyString; "abc"; "0x1F"; "-0x1F"; "1."; ".5"; "."; "1e";
     "0.1"; "9007199254740993"; "1e400"; "5e-324"; "-Infinity"]%string
  = [Frac 3 1; Int (-1); Int 1000; Int 0; NaN; Int 31; NaN; Int 1; Frac 1 1;
     NaN; NaN; Frac 3602879701896397 55; Int 9007199254740992;
     Infinity false; Frac 1 1074; Infinity true].
Proof. vm_compute. reflexivity. Qed.

Example ToUint8_sample :
  map (fun t => ToUint8 (Number (str t)))
    ["300"; "-1"; "256"; "1.9"; "-1.9"; "255"; "abc"; "1e3"; "Infinity"]%string
  = [44; 255; 0; 1; 255; 255; 0; 232; 0].
Proof. vm_compute. reflexivity. Qed.

(** ** The platform functions *)

Lemma jsstring_eqb_eq (a b : jsstring) : jsstring_eqb a b = true <-> a = b.
Proof.
  unfold jsstring_eqb. destruct (list_eq_dec Z.eq_dec a b); split;
    congruence.
Qed.

Lemma strict_eqb_eq (v : jsvalue) (lit : jsstring) :
  strict_eqb v lit = true <-> v = Some lit.
Proof.
  destruct v as [t|]; simpl.
  - rewrite jsstring_eqb_eq. split; congruence.
  - split; discriminate.
Qed.

Lemma strict_eqb_neq (v : jsvalue) (lit : jsstring) :
  strict_eqb v lit = false <-> v <> Some lit.
Proof.
  rewrite <- strict_eqb_eq. destruct (strict_eqb v lit); split;
    congruence.
Qed.

Lemma number_eqb_Int (n : Z) (x : number) :
  number_eqb (Int n) x = true <-> x = Int n.
Proof.
  destruct x; simpl; split; try discriminate.
  - intros H. apply Z.eqb_eq in H. congruence.
  - intros H. injection H as ->. apply Z.eqb_refl.
Qed.

Lemma number_eqb_Int_false (n : Z) (x : number) :
  number_eqb (Int n) x = false <-> x <> Int n.
Proof.
  rewrite <- number_eqb_Int. destruct (number_eqb (Int n) x); split;
    congruence.
Qed.

(** [data.subarray(0, n)] is the first [n] bytes, [data.subarray(k)] what
    follows the first [k] bytes. *)
Lemma subarray_prefix (data : Uint8Array) (n : Z) :
  0 <= n -> subarray data 0 (Some n) = firstn (Z.to_nat n) data.
Proof.
  intros Hn. unfold subarray, relative_index.
  change (0 <? 0) with false. cbv iota.
  destruct (Z.ltb_spec n 0); [lia|].
  rewrite (Z.min_l 0) by lia. rewrite Z.sub_0_r. simpl skipn.
  destruct (Z.le_ge_cases n (Z.of_nat (length data))).
  - rewrite Z.min_l by lia. reflexivity.
  - rewrite Z.min_r by lia. rewrite Nat2Z.id.
    rewrite !firstn_all2 by lia. reflexivity.
Qed.

Lemma subarray_suffix (data : Uint8Array) (k : Z) :
  0 <= k -> subarray data k None = skipn (Z.to_nat k) data.
Proof.
  intros Hk. unfold subarray, relative_index.
  destruct (Z.ltb_spec k 0); [lia|].
  destruct (Z.le_ge_cases k (Z.of_nat (length data))).
  - rewrite Z.min_l by lia. apply firstn_all2.
    rewrite length_skipn. lia.
  - rewrite Z.min_r by lia. rewrite Z.sub_diag. simpl.
    symmetry. apply skipn_all2. lia.
Qed.

(** [indexOf] returns the first position at which the pattern occurs, or
    [-1] when it occurs nowhere. *)
Lemma indexOf_from_spec (pattern s : jsstring) (k : Z) :
  (indexOf_from pattern s k = -1 /\ forall j, ~ occurs_at pattern s j \/ (length s < j)%nat)
  \/ (exists i, indexOf_from pattern s k = k + Z.of_nat i
                /\ first_occurrence pattern s i).
Proof.
  revert k. induction s as [|c s IH]; intros k; simpl.
  - destruct (startsWith pattern []) eqn:E.
    + right. exists 0%nat. split; [lia|]. split; [exact E|]. intros j Hj. lia.
    + left. split; [reflexivity|]. intros j.
      destruct j; [left|right; simpl; lia].
      unfold occurs_at. simpl. congruence.
  - destruct (startsWith pattern (c :: s)) eqn:E.
    + right. exists 0%nat. split; [lia|]. split; [exact E|]. intros j Hj. lia.
    + destruct (IH (k + 1)) as [[H1 H2]|(i & H1 & H2 & H3)].
      * left. split; [exact H1|]. intros [|j].
        -- left. unfold occurs_at. simpl. congruence.
        -- destruct (H2 j) as [H|H]; [left; exact H|right; simpl; lia].
      * right. exists (S i). split; [lia|]. split; [exact H2|].
        intros [|j] Hj.
        -- unfold occurs_at. simpl. congruence.
        -- apply (H3 j). lia.
Qed.

Lemma indexOf_lower_bound (s pattern : jsstring) : -1 <= indexOf s pattern.
Proof.
  unfold indexOf.
  destruct (indexOf_from_spec pattern s 0) as [[H _]|(i & H & _)]; lia.
Qed.

Lemma indexOf_first_occurrence (s pattern : jsstring) (j : nat) :
  occurs_at pattern s j ->
  exists i, indexOf s pattern = Z.of_nat i /\ first_occurrence pattern s i.
Proof.
  intros Hj. unfold indexOf.
  destruct (indexOf_from_spec pattern s 0) as [[_ H]|(i & H & Hi)].
  - destruct (H j) as [H'|H']; [contradiction|].
    exfalso. unfold occurs_at in Hj. rewrite skipn_all2 in Hj by lia.
    destruct (H (length s)) as [H''|H'']; [|lia].
    apply H''. unfold occurs_at. rewrite skipn_all. exact Hj.
  - exists i. split; [lia|exact Hi].
Qed.

Lemma first_occurrence_unique (pattern s : jsstring) (i j : nat) :
  first_occurrence pattern s i -> first_occurrence pattern s j -> i = j.
Proof.
  intros [Hi Hi'] [Hj Hj'].
  destruct (Nat.lt_trichotomy i j) as [H|[H|H]]; [|exact H|].
  - exfalso. exact (Hj' i H Hi).
  - exfalso. exact (Hi' j H Hj).
Qed.

Lemma startsWith_app (pattern rest : jsstring) :
  startsWith pattern (pattern ++ rest) = true.
Proof.
  induction pattern as [|c p IH]; simpl; [reflexivity|].
  rewrite Z.eqb_refl. exact IH.
Qed.

Lemma occurs_at_app (a t b0 : jsstring) : occurs_at t (a ++ t ++ b0) (length a).
Proof.
  unfold occurs_at. rewrite skipn_app, skipn_all, Nat.sub_diag. simpl.
  apply startsWith_app.
Qed.

(** Every token of [split] is a piece of the text. *)
Lemma split_loop_token_occurs (s tok t : jsstring) (matching : bool) :
  In t (split_loop s tok matching) ->
  exists a b0, tok ++ s = a ++ t ++ b0.
Proof.
  revert tok matching. induction s as [|c s IH]; intros tok matching; simpl.
  - intros [<-|[]]. exists [], []. rewrite !app_nil_r. reflexivity.
  - destruct (isWhiteSpace c).
    + assert (Hrec : In t (split_loop s [] true) ->
                     exists a b0, tok ++ c :: s = a ++ t ++ b0).
      { intros H. destruct (IH _ _ H) as (a & b0 & E). simpl in E.
        exists (tok ++ c :: a), b0. rewrite E, <- app_assoc. reflexivity. }
      destruct matching; [exact Hrec|].
      intros [<-|H]; [|exact (Hrec H)].
      exists [], (c :: s). reflexivity.
    + intros H. destruct (IH _ _ H) as (a & b0 & E).
      exists a, b0. rewrite <- E, <- app_assoc. reflexivity.
Qed.

Lemma split_token_occurs (s t : jsstring) (n : nat) :
  nth_error (split s) n = Some t -> exists j, occurs_at t s j.
Proof.
  intros H. apply nth_error_In in H.
  destruct (split_loop_token_occurs _ _ _ _ H) as (a & b0 & E).
  simpl in E. exists (length a). rewrite E. apply occurs_at_app.
Qed.

(** ** Outcomes of the decoder, check by check *)

Lemma parseInt_255 : parseInt (Some (str "255")) = Int 255.
Proof. reflexivity. Qed.

Lemma parseHeaderAttributes_depth (lines : list jsstring) :
  nth_error lines 3 <> Some (str "255") ->
  parseHeaderAttributes lines = Throw UnsupportedColorDepth.
Proof.
  intros H. apply strict_eqb_neq in H. unfold parseHeaderAttributes.
  rewrite H. reflexivity.
Qed.

Lemma parseHeaderAttributes_ok (lines : list jsstring) :
  nth_error lines 3 = Some (str "255") ->
  parseHeaderAttributes lines =
  Ok (mkHeader (nth_error lines 0) (parseInt (nth_error lines 1))
        (parseInt (nth_error lines 2)) (Int 255)).
Proof.
  intros H. unfold parseHeaderAttributes.
  rewrite (proj2 (strict_eqb_eq _ _) H). simpl negb. cbv iota.
  rewrite H, parseInt_255. reflexivity.
Qed.

Lemma parsePPMP6_depth (data : Uint8Array) :
  nth_error (headerLinesP6 data) 3 <> Some (str "255") ->
  parsePPMP6 data = Throw UnsupportedColorDepth.
Proof.
  intros H. unfold parsePPMP6.
  rewrite subarray_prefix by lia. change (Z.to_nat 20) with 20%nat.
  fold (headerLinesP6 data).
  rewrite (parseHeaderAttributes_depth _ H). reflexivity.
Qed.

Lemma parsePPMP3_depth (data : Uint8Array) :
  nth_error (headerLinesP3 data) 3 <> Some (str "255") ->
  parsePPMP3 data = Throw UnsupportedColorDepth.
Proof.
  intros H. unfold parsePPMP3. fold (headerLinesP3 data).
  rewrite (parseHeaderAttributes_depth _ H). reflexivity.
Qed.

Lemma parsePPMP6_format (data : Uint8Array) :
  nth_error (headerLinesP6 data) 3 = Some (str "255") ->
  nth_error (headerLinesP6 data) 0 <> Some (str "P6") ->
  parsePPMP6 data = Throw (UnsupportedFormat (nth_error (headerLinesP6 data) 0)).
Proof.
  intros H255 Hf. apply strict_eqb_neq in Hf. unfold parsePPMP6.
  rewrite subarray_prefix by lia. change (Z.to_nat 20) with 20%nat.
  fold (headerLinesP6 data).
  rewrite (parseHeaderAttributes_ok _ H255).
  cbv beta iota delta [bind h_format]. rewrite Hf. reflexivity.
Qed.

Lemma parsePPMP3_format (data : Uint8Array) :
  nth_error (headerLinesP3 data) 3 = Some (str "255") ->
  nth_error (headerLinesP3 data) 0 <> Some (str "P3") ->
  parsePPMP3 data = Throw (UnsupportedFormat (nth_error (headerLinesP3 data) 0)).
Proof.
  intros H255 Hf. apply strict_eqb_neq in Hf. unfold parsePPMP3.
  fold (headerLinesP3 data).
  rewrite (parseHeaderAttributes_ok _ H255).
  cbv beta iota delta [bind h_format]. rewrite Hf. reflexivity.
Qed.

(** Once the header passes both checks, the outcome rests on the size
    comparison alone. *)
Lemma parsePPMP6_size (data : Uint8Array) :
  nth_error (headerLinesP6 data) 3 = Some (str "255") ->
  nth_error (headerLinesP6 data) 0 = Some (str "P6") ->
  parsePPMP6 data =
  if number_eqb (Int (Z.of_nat (length (payloadP6 data))))
       (expected_size (headerLinesP6 data))
  then Ok (mkPPMImage (parseInt (nth_error (headerLinesP6 data) 1))
             (parseInt (nth_error (headerLinesP6 data) 2))
             (payloadP6 data) (Int 255) P6)
  else Throw PixelDataSizeMismatch.
Proof.
  intros H255 Hf. unfold parsePPMP6.
  rewrite subarray_prefix by lia. change (Z.to_nat 20) with 20%nat.
  fold (headerLinesP6 data).
  rewrite (parseHeaderAttributes_ok _ H255).
  cbv beta iota delta [bind h_format h_width h_height h_maxColorValue].
  rewrite (proj2 (strict_eqb_eq _ _) Hf).
  cbv beta iota zeta delta [negb].
  rewrite subarray_suffix
    by (pose proof (indexOf_lower_bound (TextDecoder.decode (firstn 20 data))
                      (str "255")); lia).
  fold (payloadP6 data). fold (expected_size (headerLinesP6 data)).
  destruct (number_eqb _ _); reflexivity.
Qed.

Lemma parsePPMP3_size (data : Uint8Array) :
  nth_error (headerLinesP3 data) 3 = Some (str "255") ->
  nth_error (headerLinesP3 data) 0 = Some (str "P3") ->
  parsePPMP3 data =
  if number_eqb (Int (Z.of_nat (length (parsedValuesP3 data))))
       (expected_size (headerLinesP3 data))
  then Ok (mkPPMImage (parseInt (nth_error (headerLinesP3 data) 1))
             (parseInt (nth_error (headerLinesP3 data) 2))
             (new_Uint8Array (parsedValuesP3 data)) (Int 255) P3)
  else Throw PixelDataSizeMismatch.
Proof.
  intros H255 Hf. unfold parsePPMP3. fold (headerLinesP3 data).
  rewrite (parseHeaderAttributes_ok _ H255).
  cbv beta iota delta [bind h_format h_width h_height h_maxColorValue].
  rewrite (proj2 (strict_eqb_eq _ _) Hf).
  cbv beta iota zeta delta [negb].
  fold (parsedValuesP3 data). fold (expected_size (headerLinesP3 data)).
  destruct (number_eqb _ _); reflexivity.
Qed.

(** The dispatcher hands the buffer to the extractor its tag names. *)
Lemma parsePPM_dispatch (data : Uint8Array) :
  parsePPM data =
  if strict_eqb (nth_error (headerLinesP6 data) 0) (str "P6") then parsePPMP6 data
  else if strict_eqb (nth_error (headerLinesP6 data) 0) (str "P3") then parsePPMP3 data
  else Throw (UnsupportedFormat (nth_error (headerLinesP6 data) 0)).
Proof.
  unfold parsePPM. rewrite subarray_prefix by lia. reflexivity.
Qed.

(** A successful extractor passed all three checks. *)
Lemma parsePPMP6_Ok (data : Uint8Array) (img : PPMImage) :
  parsePPMP6 data = Ok img ->
  nth_error (headerLinesP6 data) 3 = Some (str "255")
  /\ nth_error (headerLinesP6 data) 0 = Some (str "P6")
  /\ expected_size (headerLinesP6 data) = Int (Z.of_nat (length (payloadP6 data)))
  /\ img = mkPPMImage (parseInt (nth_error (headerLinesP6 data) 1))
             (parseInt (nth_error (headerLinesP6 data) 2))
             (payloadP6 data) (Int 255) P6.
Proof.
  intros H.
  destruct (strict_eqb (nth_error (headerLinesP6 data) 3) (str "255")) eqn:E3.
  2:{ apply strict_eqb_neq in E3. rewrite (parsePPMP6_depth _ E3) in H.
      discriminate. }
  apply strict_eqb_eq in E3.
  destruct (strict_eqb (nth_error (headerLinesP6 data) 0) (str "P6")) eqn:E0.
  2:{ apply strict_eqb_neq in E0. rewrite (parsePPMP6_format _ E3 E0) in H.
      discriminate. }
  apply strict_eqb_eq in E0.
  rewrite (parsePPMP6_size _ E3 E0) in H.
  destruct (number_eqb _ _) eqn:En; [|discriminate].
  apply number_eqb_Int in En. injection H as <-. auto.
Qed.

Lemma parsePPMP3_Ok (data : Uint8Array) (img : PPMImage) :
  parsePPMP3 data = Ok img ->
  nth_error (headerLinesP3 data) 3 = Some (str "255")
  /\ nth_error (headerLinesP3 data) 0 = Some (str "P3")
  /\ expected_size (headerLinesP3 data) = Int (Z.of_nat (length (parsedValuesP3 data)))
  /\ img = mkPPMImage (parseInt (nth_error (headerLinesP3 data) 1))
             (parseInt (nth_error (headerLinesP3 data) 2))
             (new_Uint8Array (parsedValuesP3 data)) (Int 255) P3.
Proof.
  intros H.
  destruct (strict_eqb (nth_error (headerLinesP3 data) 3) (str "255")) eqn:E3.
  2:{ apply strict_eqb_neq in E3. rewrite (parsePPMP3_depth _ E3) in H.
      discriminate. }
  apply strict_eqb_eq in E3.
  destruct (strict_eqb (nth_error (headerLinesP3 data) 0) (str "P3")) eqn:E0.
  2:{ apply strict_eqb_neq in E0. rewrite (parsePPMP3_format _ E3 E0) in H.
      discriminate. }
  apply strict_eqb_eq in E0.
  rewrite (parsePPMP3_size _ E3 E0) in H.
  destruct (number_eqb _ _) eqn:En; [|discriminate].
  apply number_eqb_Int in En. injection H as <-. auto.
Qed.

Lemma parsePPM_Ok (data : Uint8Array) (img : PPMImage) :
  parsePPM data = Ok img -> parsePPMP6 data = Ok img \/ parsePPMP3 data = Ok img.
Proof.
  rewrite parsePPM_dispatch.
  destruct (strict_eqb _ (str "P6")); [auto|].
  destruct (strict_eqb _ (str "P3")); [auto|discriminate].
Qed.

Lemma split_loop_nonempty (s tok : jsstring) (matching : bool) :
  split_loop s tok matching <> [].
Proof.
  revert tok matching. induction s as [|c s IH]; intros tok matching; simpl.
  - discriminate.
  - destruct (isWhiteSpace c); [destruct matching|]; try apply IH.
    discriminate.
Qed.

(** [split] always gives a first token. *)
Lemma split_first_token (s : jsstring) : exists t, nth_error (split s) 0 = Some t.
Proof.
  unfold split. pose proof (split_loop_nonempty s [] false) as H.
  destruct (split_loop s [] false) as [|t ts]; [congruence|].
  exists t. reflexivity.
Qed.

(** ** Shape of the token list, and [join] followed by [split] *)

Lemma inner_nonempty_cons (t : jsstring) (l : list jsstring) :
  l <> [] -> inner_nonempty (t :: l) <-> t <> [] /\ inner_nonempty l.
Proof. destruct l; [congruence|]. intros _. reflexivity. Qed.

Lemma inner_nonempty_tl (l : list jsstring) :
  inner_nonempty l -> inner_nonempty (tl l).
Proof.
  destruct l as [|t [|u l]]; simpl; auto. intros [_ H]. exact H.
Qed.

Lemma inner_nonempty_skipn (n : nat) (l : list jsstring) :
  inner_nonempty l -> inner_nonempty (skipn n l).
Proof.
  revert l. induction n as [|n IH]; intros l H; [exact H|].
  destruct l as [|t l]; [exact I|]. simpl skipn. apply IH.
  exact (inner_nonempty_tl (t :: l) H).
Qed.

Lemma clean_app (a t : jsstring) : clean a -> clean t -> clean (a ++ t).
Proof. intros Ha Ht. apply Forall_app. split; assumption. Qed.

(** Reading a text without white space extends the current token. *)
Lemma split_loop_clean (t rest tok : jsstring) (matching : bool) :
  clean t -> t <> [] ->
  split_loop (t ++ rest) tok matching = split_loop rest (tok ++ t) false.
Proof.
  intros Hc. revert tok matching.
  induction Hc as [|c t Hcws Hc IH]; intros tok matching Hne; [congruence|].
  simpl. rewrite Hcws. destruct t as [|c' t].
  - reflexivity.
  - rewrite IH by discriminate. rewrite <- app_assoc. reflexivity.
Qed.

(** The tokens of [split] contain no white space, and only the first and the
    last can be empty. *)
Lemma split_loop_shape (s tok : jsstring) (matching : bool) :
  clean tok ->
  Forall clean (split_loop s tok matching)
  /\ inner_nonempty (tl (split_loop s tok matching))
  /\ (matching = true \/ tok <> [] -> inner_nonempty (split_loop s tok matching)).
Proof.
  revert tok matching. induction s as [|c s IH]; intros tok matching Htok.
  - simpl. repeat split; auto.
  - simpl. destruct (isWhiteSpace c) eqn:Ec.
    + destruct (IH [] true (Forall_nil _)) as (A & B & C).
      specialize (C (or_introl eq_refl)).
      destruct matching.
      * repeat split; auto.
      * repeat split.
        -- constructor; assumption.
        -- exact C.
        -- intros [H|H]; [discriminate|].
           apply inner_nonempty_cons; [apply split_loop_nonempty|].
           split; assumption.
    + assert (Htok' : clean (tok ++ [c])).
      { apply clean_app; [exact Htok|]. constructor; [exact Ec|constructor]. }
      destruct (IH (tok ++ [c]) false Htok') as (A & B & C).
      repeat split; auto.
      intros _. apply C. right. destruct tok; discriminate.
Qed.

Lemma split_shape (s : jsstring) :
  Forall clean (split s) /\ inner_nonempty (tl (split s)).
Proof.
  destruct (split_loop_shape s [] false (Forall_nil _)) as (A & B & _).
  split; assumption.
Qed.

(** Joining such tokens with line feeds and splitting again gives them
    back. *)
Lemma split_loop_join (l : list jsstring) (matching : bool) :
  l <> [] -> Forall clean l -> inner_nonempty l ->
  split_loop (join LINE_FEED l) [] matching = l.
Proof.
  revert matching. induction l as [|t l IH]; intros matching Hne Hc Hin;
    [congruence|].
  inversion Hc as [|? ? Ht Hl]; subst.
  destruct l as [|u l].
  - destruct t as [|c t]; [reflexivity|].
    change (join LINE_FEED [c :: t]) with (c :: t).
    rewrite <- (app_nil_r (c :: t)) at 1.
    rewrite split_loop_clean by (auto; discriminate). reflexivity.
  - destruct Hin as [Htne Hin].
    change (join LINE_FEED (t :: u :: l))
      with (t ++ LINE_FEED ++ join LINE_FEED (u :: l)).
    rewrite split_loop_clean by assumption.
    change (LINE_FEED ++ join LINE_FEED (u :: l))
      with (10 :: join LINE_FEED (u :: l)).
    simpl split_loop. change (isWhiteSpace 10) with true. cbv iota.
    f_equal. apply IH; [discriminate|assumption|assumption].
Qed.

(** The values [parsePPMP3] converts are the numbers of the header lines from
    the fifth on; but when there is no fifth line, the empty text is split
    into one empty token, which converts to one value. *)
Lemma parsedValuesP3_tokens (data : Uint8Array) :
  parsedValuesP3 data =
  match skipn 4 (headerLinesP3 data) with
  | [] => [Int 0]
  | l => map Number l
  end.
Proof.
  unfold parsedValuesP3, slice.
  destruct (split_shape (TextDecoder.decode data)) as [Hc Hin].
  fold (headerLinesP3 data) in Hc, Hin.
  destruct (skipn 4 (headerLinesP3 data)) as [|t l] eqn:E; [reflexivity|].
  unfold split. rewrite split_loop_join; [reflexivity|discriminate| |].
  - rewrite <- E. clear E. apply Forall_forall. intros x Hx.
    rewrite Forall_forall in Hc. apply Hc.
    rewrite <- (firstn_skipn 4 (headerLinesP3 data)). apply in_or_app. auto.
  - rewrite <- E. clear E.
    destruct (headerLinesP3 data) as [|t0 l0]; [exact I|].
    change (skipn 4 (t0 :: l0)) with (skipn 3 l0).
    apply inner_nonempty_skipn. exact Hin.
Qed.

(** ** Decimal numerals *)

Lemma digit_char (d : Z) : 0 <= d <= 9 -> 48 <= chr "0" + d <= 57.
Proof. change (chr "0") with 48. lia. Qed.

Lemma digit_not_white (d : Z) : 0 <= d <= 9 -> isWhiteSpace (chr "0" + d) = false.
Proof.
  intros Hd. apply digit_char in Hd. unfold isWhiteSpace.
  repeat match goal with
  | |- context [?c =? ?k] =>
      rewrite (proj2 (Z.eqb_neq c k)) by lia
  end.
  rewrite (proj2 (Z.leb_gt 0x2000 _)) by lia. reflexivity.
Qed.

Lemma numeral_clean (ds : list Z) :
  Forall (fun d => 0 <= d <= 9) ds -> clean (numeral ds).
Proof.
  intros H. unfold clean, numeral. apply Forall_map.
  eapply Forall_impl; [|exact H]. intros d Hd. apply digit_not_white, Hd.
Qed.

Lemma numeral_nonempty (ds : list Z) : ds <> [] -> numeral ds <> [].
Proof. destruct ds; [congruence|discriminate]. Qed.

Lemma trimStart_clean (t : jsstring) : clean t -> trimStart t = t.
Proof.
  intros H. destruct H as [|c t Hc _]; [reflexivity|].
  simpl. rewrite Hc. reflexivity.
Qed.

Lemma trim_clean (t : jsstring) : clean t -> trim t = t.
Proof.
  intros H. unfold trim. rewrite (trimStart_clean t H).
  rewrite trimStart_clean by (apply Forall_rev, H).
  apply rev_involutive.
Qed.

Lemma digit_of_digit (d : Z) : 0 <= d <= 9 -> digit_of 10 (chr "0" + d) = Some d.
Proof.
  intros Hd. unfold digit_of. change (chr "0") with 48. change (chr "9") with 57.
  destruct (Z.leb_spec 48 (48 + d)); [|lia].
  destruct (Z.leb_spec (48 + d) 57); [|lia]. simpl andb. cbv iota.
  replace (48 + d - 48) with d by lia.
  destruct (Z.ltb_spec d 10); [reflexivity|lia].
Qed.

Lemma span_digits_numeral (ds : list Z) (rest : jsstring) :
  Forall (fun d => 0 <= d <= 9) ds ->
  match rest with
  | [] => True
  | c :: _ => digit_of 10 c = None
  end ->
  span_digits 10 (numeral ds ++ rest) = (ds, rest).
Proof.
  intros H Hrest. induction H as [|d ds Hd _ IH].
  - destruct rest as [|c rest]; [reflexivity|].
    change (numeral [] ++ c :: rest) with (c :: rest).
    cbn [span_digits]. rewrite Hrest. reflexivity.
  - change (numeral (d :: ds) ++ rest)
      with ((chr "0" + d) :: (numeral ds ++ rest)).
    cbn [span_digits]. rewrite (digit_of_digit d Hd), IH. reflexivity.
Qed.

Lemma read_sign_numeral (ds : list Z) :
  Forall (fun d => 0 <= d <= 9) ds ->
  read_sign (numeral ds) = (false, numeral ds).
Proof.
  intros H. destruct H as [|d ds Hd _]; [reflexivity|].
  apply digit_char in Hd.
  change (numeral (d :: ds)) with ((chr "0" + d) :: numeral ds).
  cbn [read_sign].
  rewrite (proj2 (Z.eqb_neq _ (chr "-"))) by (change (chr "-") with 45; lia).
  rewrite (proj2 (Z.eqb_neq _ (chr "+"))) by (change (chr "+") with 43; lia).
  reflexivity.
Qed.

Lemma read_radix_numeral (ds : list Z) :
  Forall (fun d => 0 <= d <= 9) ds ->
  read_radix (numeral ds) = (10, numeral ds).
Proof.
  intros H. destruct H as [|d0 ds Hd0 H]; [reflexivity|].
  destruct H as [|d1 ds Hd1 _]; [reflexivity|].
  apply digit_char in Hd1.
  change (numeral (d0 :: d1 :: ds))
    with ((chr "0" + d0) :: (chr "0" + d1) :: numeral ds).
  cbn [read_radix].
  rewrite (proj2 (Z.eqb_neq _ (chr "x"))) by (change (chr "x") with 120; lia).
  rewrite (proj2 (Z.eqb_neq _ (chr "X"))) by (change (chr "X") with 88; lia).
  rewrite andb_false_r. reflexivity.
Qed.

Lemma non_decimal_prefix_numeral (ds : list Z) :
  Forall (fun d => 0 <= d <= 9) ds ->
  non_decimal_prefix (numeral ds) = None.
Proof.
  intros H. destruct H as [|d0 ds Hd0 H]; [reflexivity|].
  destruct H as [|d1 ds Hd1 _]; [reflexivity|].
  apply digit_char in Hd1.
  change (numeral (d0 :: d1 :: ds))
    with ((chr "0" + d0) :: (chr "0" + d1) :: numeral ds).
  cbn [non_decimal_prefix].
  rewrite (proj2 (Z.eqb_neq _ (chr "x"))) by (change (chr "x") with 120; lia).
  rewrite (proj2 (Z.eqb_neq _ (chr "X"))) by (change (chr "X") with 88; lia).
  rewrite (proj2 (Z.eqb_neq _ (chr "o"))) by (change (chr "o") with 111; lia).
  rewrite (proj2 (Z.eqb_neq _ (chr "O"))) by (change (chr "O") with 79; lia).
  rewrite (proj2 (Z.eqb_neq _ (chr "b"))) by (change (chr "b") with 98; lia).
  rewrite (proj2 (Z.eqb_neq _ (chr "B"))) by (change (chr "B") with 66; lia).
  cbn [orb]. destruct (_ =? _); reflexivity.
Qed.

Lemma numeral_not_Infinity (ds : list Z) :
  Forall (fun d => 0 <= d <= 9) ds ->
  jsstring_eqb (numeral ds) (str "Infinity") = false.
Proof.
  intros H. destruct (jsstring_eqb _ _) eqn:E; [|reflexivity].
  apply jsstring_eqb_eq in E. exfalso.
  destruct H as [|d ds Hd _]; [discriminate E|].
  apply digit_char in Hd.
  apply (f_equal (fun t => hd 0 t)) in E.
  change (chr "0" + d = 73) in E. lia.
Qed.

Create HintDb numerals.
#[local] Hint Resolve numeral_clean numeral_nonempty : numerals.

(** [parseInt] and [Number] read a decimal numeral as the number it denotes,
    rounded. *)
Section ReadingNumerals.

Variable ds : list Z.
Hypothesis Hds : decimal_digits ds.

Let Hne : ds <> [] := proj1 Hds.
Let Hdigits : Forall (fun d => 0 <= d <= 9) ds := proj2 Hds.

Lemma decimal_literal_numeral :
  decimal_literal (numeral ds) = Some (digits_value 10 ds, 0).
Proof.
  unfold decimal_literal.
  rewrite <- (app_nil_r (numeral ds)).
  rewrite (span_digits_numeral ds [] Hdigits I).
  cbv beta iota zeta. rewrite app_nil_r.
  pose proof Hne as Hne'. destruct ds as [|d ds']; [congruence|]. reflexivity.
Qed.

Lemma parseInt_numeral :
  parseInt (Some (numeral ds)) = Binary64.round (digits_value 10 ds) 1.
Proof.
  unfold parseInt. simpl ToString.
  rewrite trimStart_clean by auto with numerals.
  rewrite (read_sign_numeral _ Hdigits), (read_radix_numeral _ Hdigits).
  rewrite <- (app_nil_r (numeral ds)).
  rewrite (span_digits_numeral ds [] Hdigits I). simpl fst.
  pose proof Hne as Hne'. destruct ds as [|d ds']; [congruence|]. reflexivity.
Qed.

Lemma Number_numeral :
  Number (numeral ds) = Binary64.round (digits_value 10 ds) 1.
Proof.
  unfold Number. rewrite trim_clean by auto with numerals.
  destruct (numeral ds) as [|c t] eqn:E.
  { exfalso. exact (numeral_nonempty _ Hne E). }
  rewrite <- E. rewrite (non_decimal_prefix_numeral _ Hdigits).
  unfold signed_decimal. rewrite (read_sign_numeral _ Hdigits).
  rewrite (numeral_not_Infinity _ Hdigits), decimal_literal_numeral.
  change (0 <=? 0) with true. cbv iota. unfold signed.
  change (10 ^ 0) with 1. rewrite Z.mul_1_r. reflexivity.
Qed.

Lemma Number_minus_numeral :
  Number (chr "-" :: numeral ds) = Binary64.round (- digits_value 10 ds) 1.
Proof.
  assert (Hc : clean (chr "-" :: numeral ds)).
  { constructor; [reflexivity|apply numeral_clean, Hdigits]. }
  unfold Number. rewrite (trim_clean _ Hc).
  assert (Hp : non_decimal_prefix (chr "-" :: numeral ds) = None).
  { destruct (numeral ds); reflexivity. }
  rewrite Hp. unfold signed_decimal.
  change (read_sign (chr "-" :: numeral ds)) with (true, numeral ds).
  cbv beta iota.
  rewrite (numeral_not_Infinity _ Hdigits), decimal_literal_numeral.
  change (0 <=? 0) with true. cbv iota. unfold signed.
  change (10 ^ 0) with 1. rewrite Z.mul_1_r. reflexivity.
Qed.

End ReadingNumerals.

Lemma digits_value_app (ds : list Z) (acc : Z) :
  fold_left (fun a d => a * 10 + d) ds acc
  = acc * 10 ^ Z.of_nat (length ds) + digits_value 10 ds.
Proof.
  unfold digits_value. revert acc.
  induction ds as [|d ds IH]; intros acc.
  - simpl. lia.
  - cbn [fold_left]. rewrite (IH (acc * 10 + d)), (IH (0 * 10 + d)).
    rewrite length_cons, Nat2Z.inj_succ, Z.pow_succ_r by lia. lia.
Qed.

(** A numeral of [n] digits denotes a number below [10^n]. *)
Lemma digits_value_bound (ds : list Z) :
  Forall (fun d => 0 <= d <= 9) ds ->
  0 <= digits_value 10 ds < 10 ^ Z.of_nat (length ds).
Proof.
  intros H. induction H as [|d ds Hd _ IH].
  - simpl. unfold digits_value. simpl. lia.
  - unfold digits_value in *. cbn [fold_left].
    rewrite digits_value_app. unfold digits_value.
    rewrite length_cons, Nat2Z.inj_succ, Z.pow_succ_r by lia.
    assert (0 < 10 ^ Z.of_nat (length ds)) by (apply Z.pow_pos_nonneg; lia).
    nia.
Qed.

(** ** Conversion to bytes *)
Lemma byte_val_of_Z (z : Z) : 0 <= z < 256 -> byte_val (byte_of_Z z) = z.
Proof.
  intros Hz. unfold byte_val, byte_of_Z.
  destruct (Byte.of_N (Z.to_N z)) as [b0|] eqn:E.
  - apply Byte.to_of_N in E. rewrite E. lia.
  - apply Byte.of_N_None_iff in E. lia.
Qed.

Lemma ToUint8_range (n : number) : 0 <= ToUint8 n < 256.
Proof.
  destruct n; simpl; try lia; apply Z.mod_pos_bound; lia.
Qed.

(** The three errors are told apart by their messages. *)
Lemma depth_is_not_format (tag : jsvalue) :
  UnsupportedColorDepth <> UnsupportedFormat tag.
Proof.
  intros H. apply (f_equal (fun m => hd 0 m)) in H. vm_compute in H.
  discriminate.
Qed.

Lemma size_is_not_format (tag : jsvalue) :
  PixelDataSizeMismatch <> UnsupportedFormat tag.
Proof.
  intros H. apply (f_equal (fun m => hd 0 m)) in H. vm_compute in H.
  discriminate.
Qed.

Lemma depth_is_not_size : UnsupportedColorDepth <> PixelDataSizeMismatch.
Proof. intros H. vm_compute in H. discriminate. Qed.

(** ** Width and height are integers, infinities or NaN *)
Lemma round_integral (p : Z) : integral (Binary64.round p 1).
Proof.
  destruct (Binary64Facts.round_integer p) as [E|[(v & E & _)|(s & E)]];
    rewrite E; unfold integral; eauto.
Qed.

Lemma parseInt_integral (v : jsvalue) : integral (parseInt v).
Proof.
  unfold parseInt.
  destruct (read_sign (trimStart (ToString v))) as [negative s].
  destruct (read_radix s) as [radix digits].
  destruct (fst (span_digits radix digits)).
  - left. reflexivity.
  - apply round_integral.
Qed.

Lemma jsmul_Int (x y : Z) : jsmul (Int x) (Int y) = Binary64.round (x * y) 1.
Proof. reflexivity. Qed.

(** When [width * height * 3] is an integer below [2^53], no rounding took
    place: width and height are integers and the product is exact. *)
Lemma product_exact (wd ht : number) (n : Z) :
  integral wd -> integral ht ->
  jsmul (jsmul wd ht) (Int 3) = Int n -> Z.abs n < 2 ^ 53 ->
  exists w h, wd = Int w /\ ht = Int h /\ n = w * h * 3.
Proof.
  intros [->|[(s & ->)|(w & ->)]] [->|[(t & ->)|(h & ->)]] H Hn;
    try discriminate H.
  - simpl in H. destruct (h =? 0); discriminate H.
  - simpl in H. destruct (w =? 0); discriminate H.
  - rewrite jsmul_Int in H.
    destruct (Binary64Facts.round_integer (w * h)) as [E|[(v & E & Hv)|(sg & E)]];
      rewrite E in H.
    + rewrite jsmul_Int in H.
      apply Binary64Facts.round_small in H; [|exact Hn].
      exists w, h. auto.
    + rewrite jsmul_Int in H.
      apply Binary64Facts.round_small in H; [|exact Hn]. lia.
    + simpl in H. discriminate H.
Qed.

(** What every returned image satisfies. *)
Lemma decoded_image_size (data : Uint8Array) (img : PPMImage) :
  parsePPM data = Ok img \/ parsePPMP3 data = Ok img \/ parsePPMP6 data = Ok img ->
  jsmul (jsmul (width img) (height img)) (Int 3)
  = Int (Z.of_nat (length (pixelData img)))
  /\ integral (width img) /\ integral (height img).
Proof.
  intros H.
  assert (H' : parsePPMP6 data = Ok img \/ parsePPMP3 data = Ok img).
  { destruct H as [H|[H|H]]; auto. apply parsePPM_Ok, H. }
  clear H. destruct H' as [H|H].
  - apply parsePPMP6_Ok in H. destruct H as (_ & _ & Hsz & ->). simpl.
    split; [exact Hsz|]. split; apply parseInt_integral.
  - apply parsePPMP3_Ok in H. destruct H as (_ & _ & Hsz & ->). simpl.
    unfold new_Uint8Array. rewrite length_map.
    split; [exact Hsz|]. split; apply parseInt_integral.
Qed.

(** [width * height * 3] is never 1. *)
Lemma expected_size_not_one (lines : list jsstring) : expected_size lines <> Int 1.
Proof.
  intros H.
  destruct (product_exact _ _ 1 (parseInt_integral _) (parseInt_integral _) H)
    as (w & h & _ & _ & E).
  - reflexivity.
  - lia.
Qed.

(** ** Pixel addressing *)

Lemma jsadd_Int (x y : Z) : jsadd (Int x) (Int y) = Binary64.round (x + y) 1.
Proof.
  cbv beta iota delta [jsadd Binary64.ratio]. rewrite !Z.mul_1_r. reflexivity.
Qed.

(** For integer coordinates whose offset is computed without rounding,
    [getPixel] reads the three elements at offsets [(y * width + x) * 3],
    [+ 1] and [+ 2]. *)
Lemma getPixel_exact (img : PPMImage) (w x y : Z) :
  width img = Int w ->
  Z.abs (y * w) < 2 ^ 53 ->
  Z.abs (y * w + x) < 2 ^ 53 ->
  Z.abs ((y * w + x) * 3) + 2 < 2 ^ 53 ->
  getPixel img (Int x) (Int y)
  = mkPixel (element_at (pixelData img) ((y * w + x) * 3))
      (element_at (pixelData img) ((y * w + x) * 3 + 1))
      (element_at (pixelData img) ((y * w + x) * 3 + 2)).
Proof.
  intros Hw H1 H2 H3. unfold getPixel. rewrite Hw.
  rewrite jsmul_Int, Binary64Facts.round_exact by exact H1.
  rewrite jsadd_Int, Binary64Facts.round_exact by exact H2.
  rewrite jsmul_Int, Binary64Facts.round_exact by lia.
  rewrite !jsadd_Int, !Binary64Facts.round_exact by lia.
  reflexivity.
Qed.

Lemma element_at_inside (a : Uint8Array) (i : Z) :
  0 <= i < Z.of_nat (length a) ->
  exists v, nth_error a (Z.to_nat i) = Some v /\ element_at a i = Some (byte_val v).
Proof.
  intros Hi. unfold element_at.
  destruct (Z.leb_spec 0 i); [|lia].
  destruct (Z.ltb_spec i (Z.of_nat (length a))); [|lia]. simpl andb. cbv iota.
  destruct (nth_error a (Z.to_nat i)) as [v|] eqn:E.
  - exists v. split; reflexivity.
  - apply nth_error_None in E. lia.
Qed.

(** ** Files written in ASCII *)

Lemma byte_val_nonneg (c : byte) : 0 <= byte_val c.
Proof. unfold byte_val. lia. Qed.

Lemma ascii_space_white (c : byte) :
  ascii_space c -> byte_val c < 128 /\ isWhiteSpace (byte_val c) = true.
Proof.
  intros H. repeat (destruct H as [<-|H]; [split; reflexivity|]).
  destruct H.
Qed.

Lemma numeral_bytes_text (ds : list Z) :
  Forall (fun d => 0 <= d <= 9) ds ->
  map byte_val (numeral_bytes ds) = numeral ds.
Proof.
  intros H. unfold numeral_bytes, numeral. rewrite map_map.
  apply map_ext_Forall. eapply Forall_impl; [|exact H].
  intros d Hd. apply digit_char in Hd. apply byte_val_of_Z. lia.
Qed.

Lemma numeral_bytes_ascii (ds : list Z) :
  Forall (fun d => 0 <= d <= 9) ds -> ascii_bytes (numeral_bytes ds).
Proof.
  intros H. unfold ascii_bytes, numeral_bytes. apply Forall_map.
  eapply Forall_impl; [|exact H].
  intros d Hd. apply digit_char in Hd. unfold digit_byte.
  rewrite byte_val_of_Z; lia.
Qed.

Lemma ascii_bytes_app (a c : Uint8Array) :
  ascii_bytes a -> ascii_bytes c -> ascii_bytes (a ++ c).
Proof. intros Ha Hc. apply Forall_app. split; assumption. Qed.

(** ASCII bytes decode to themselves, whatever follows them. *)
Lemma run_ascii (bs rest : Uint8Array) :
  ascii_bytes bs ->
  TextDecoder.run TextDecoder.initial (bs ++ rest)
  = map byte_val bs ++ TextDecoder.run TextDecoder.initial rest.
Proof.
  intros H. induction H as [|c bs Hc _ IH]; [reflexivity|].
  pose proof (byte_val_nonneg c) as Hn.
  cbn [app TextDecoder.run map].
  assert (E : TextDecoder.step TextDecoder.initial (byte_val c)
              = ([byte_val c], TextDecoder.initial)).
  { unfold TextDecoder.step. cbn [TextDecoder.bytes_needed TextDecoder.initial].
    change (0 =? 0) with true. cbv iota.
    unfold TextDecoder.lead, TextDecoder.between.
    destruct (Z.leb_spec 0 (byte_val c)); [|lia].
    destruct (Z.leb_spec (byte_val c) 127); [|lia]. reflexivity. }
  rewrite E, IH. reflexivity.
Qed.

Lemma utf16_ascii (bs : Uint8Array) :
  ascii_bytes bs -> flat_map TextDecoder.utf16 (map byte_val bs) = map byte_val bs.
Proof.
  intros H. induction H as [|c bs Hc _ IH]; [reflexivity|].
  cbn [map flat_map]. rewrite IH. unfold TextDecoder.utf16.
  destruct (Z.ltb_spec (byte_val c) 65536); [reflexivity|lia].
Qed.

Lemma decode_ascii (bs rest : Uint8Array) :
  ascii_bytes bs -> bs <> [] ->
  TextDecoder.decode (bs ++ rest) = map byte_val bs ++ decoded_tail rest.
Proof.
  intros H Hne. unfold TextDecoder.decode. rewrite (run_ascii _ _ H).
  destruct H as [|c bs Hc H]; [congruence|].
  cbn [map app TextDecoder.stripBOM].
  destruct (Z.eqb_spec (byte_val c) 65279); [lia|].
  change (byte_val c :: map byte_val bs ++ TextDecoder.run TextDecoder.initial rest)
    with (map byte_val (c :: bs) ++ TextDecoder.run TextDecoder.initial rest).
  rewrite flat_map_app, utf16_ascii by (constructor; assumption).
  reflexivity.
Qed.

Lemma decoded_tail_nil : decoded_tail [] = [].
Proof. reflexivity. Qed.

Lemma decoded_tail_ascii (bs rest : Uint8Array) :
  ascii_bytes bs -> decoded_tail (bs ++ rest) = map byte_val bs ++ decoded_tail rest.
Proof.
  intros H. unfold decoded_tail. rewrite (run_ascii _ _ H).
  rewrite flat_map_app, utf16_ascii by assumption. reflexivity.
Qed.

(** ** Splitting a header *)

Lemma split_loop_space (c : Z) (rest tok : jsstring) :
  isWhiteSpace c = true ->
  split_loop (c :: rest) tok false = tok :: split_loop rest [] true.
Proof. intros H. simpl. rewrite H. reflexivity. Qed.

(** A run of white space met while a token is being read ends the token. *)
Lemma split_loop_run (run rest tok : jsstring) :
  run <> [] -> Forall (fun c => isWhiteSpace c = true) run ->
  split_loop (run ++ rest) tok false = tok :: split_loop rest [] true.
Proof.
  intros Hne H. destruct H as [|c run Hc H]; [congruence|].
  cbn [app]. rewrite (split_loop_space _ _ _ Hc). f_equal. clear Hne Hc.
  induction H as [|c' run Hc' _ IH]; [reflexivity|].
  cbn [app split_loop]. rewrite Hc'. exact IH.
Qed.

Lemma header_text_length (tag : jsstring) (ws hs : list Z) :
  length (header_text tag ws hs)
  = (length tag + length ws + length hs + 6)%nat.
Proof.
  unfold header_text, numeral.
  repeat (rewrite length_app || rewrite length_map || rewrite length_cons).
  change (length (str "255")) with 3%nat. lia.
Qed.

Lemma split_loop_after_space (t rest : jsstring) :
  clean t -> t <> [] ->
  split_loop (t ++ rest) [] true = split_loop rest t false.
Proof. intros Hc Hne. rewrite split_loop_clean by assumption. reflexivity. Qed.

Lemma split_header (tag : jsstring) (ws hs : list Z) (rest : jsstring) :
  clean tag -> tag <> [] -> decimal_digits ws -> decimal_digits hs ->
  split (header_text tag ws hs ++ rest)
  = tag :: numeral ws :: numeral hs :: split_loop rest (str "255") false.
Proof.
  intros Htag Hne [Hws Hw] [Hhs Hh]. unfold split, header_text.
  repeat (rewrite <- ?app_assoc; rewrite <- ?app_comm_cons).
  rewrite split_loop_clean by assumption. cbn [app].
  rewrite split_loop_space by reflexivity. f_equal.
  rewrite split_loop_after_space
    by (auto using numeral_clean, numeral_nonempty).
  rewrite split_loop_space by reflexivity. f_equal.
  rewrite split_loop_after_space
    by (auto using numeral_clean, numeral_nonempty).
  rewrite split_loop_space by reflexivity. reflexivity.
Qed.

(** ** Where "255" is found *)

Lemma startsWith_length (pattern s : jsstring) :
  startsWith pattern s = true -> (length pattern <= length s)%nat.
Proof.
  revert s. induction pattern as [|c p IH]; intros s H; [simpl; lia|].
  destruct s as [|c' s]; [discriminate H|].
  simpl in H. apply andb_prop in H. destruct H as [_ H].
  apply IH in H. simpl. lia.
Qed.

Lemma startsWith_app_l (pattern s rest : jsstring) :
  (length pattern <= length s)%nat ->
  startsWith pattern (s ++ rest) = startsWith pattern s.
Proof.
  revert s. induction pattern as [|c p IH]; intros s H; [reflexivity|].
  destruct s as [|c' s]; [simpl in H; lia|].
  simpl. rewrite IH by (simpl in H; lia). reflexivity.
Qed.

(** What follows a text does not move the first occurrence of a pattern
    inside it. *)
Lemma indexOf_app (s rest pattern : jsstring) (i : nat) :
  indexOf s pattern = Z.of_nat i -> indexOf (s ++ rest) pattern = Z.of_nat i.
Proof.
  intros H.
  assert (Hocc : exists i', indexOf s pattern = Z.of_nat i'
                            /\ first_occurrence pattern s i').
  { unfold indexOf in *.
    destruct (indexOf_from_spec pattern s 0) as [[E _]|(i' & E & Hi')].
    - lia.
    - exists i'. split; [lia|exact Hi']. }
  destruct Hocc as (i' & E & Hat & Hbefore).
  assert (i' = i) by lia. subst i'. clear E.
  assert (Hlen : (i + length pattern <= length s)%nat).
  { destruct pattern as [|c pattern].
    - destruct i as [|i]; [simpl; lia|].
      exfalso. apply (Hbefore 0%nat); [lia|reflexivity].
    - unfold occurs_at in Hat. apply startsWith_length in Hat.
      rewrite length_skipn in Hat. simpl in Hat |- *. lia. }
  assert (Hat' : occurs_at pattern (s ++ rest) i).
  { unfold occurs_at in *. rewrite skipn_app.
    rewrite startsWith_app_l; [exact Hat|]. rewrite length_skipn. lia. }
  destruct (indexOf_first_occurrence _ _ _ Hat') as (k & Ek & Hk & Hkb).
  rewrite Ek. f_equal.
  destruct (Nat.lt_trichotomy k i) as [Hlt|[Heq|Hgt]]; [|exact Heq|].
  - exfalso. apply (Hbefore k Hlt). unfold occurs_at in *.
    rewrite skipn_app in Hk.
    rewrite startsWith_app_l in Hk; [exact Hk|]. rewrite length_skipn. lia.
  - exfalso. exact (Hkb i Hgt Hat').
Qed.

Lemma indexOf_none (s pattern : jsstring) (j : nat) :
  indexOf s pattern = -1 -> pattern <> [] -> ~ occurs_at pattern s j.
Proof.
  intros H Hne Hj.
  destruct (indexOf_first_occurrence _ _ _ Hj) as (i & Hi & _). lia.
Qed.

Lemma startsWith_firstn (pattern s : jsstring) :
  startsWith pattern s = true -> firstn (length pattern) s = pattern.
Proof.
  revert s. induction pattern as [|c p IH]; intros s H; [reflexivity|].
  destruct s as [|c' s]; [discriminate H|].
  simpl in H. apply andb_prop in H. destruct H as [Hc H].
  apply Z.eqb_eq in Hc. subst c'. simpl. f_equal. apply IH, H.
Qed.

(** The characters of an occurrence are those of the pattern. *)
Lemma occurs_at_nth (pattern s : jsstring) (j k : nat) :
  occurs_at pattern s j -> (k < length pattern)%nat ->
  nth_error s (j + k) = nth_error pattern k.
Proof.
  intros H Hk. unfold occurs_at in H. apply startsWith_firstn in H.
  rewrite <- H. rewrite nth_error_firstn.
  destruct (Nat.ltb_spec k (length pattern)); [|lia].
  rewrite nth_error_skipn. reflexivity.
Qed.

(** An occurrence cannot straddle a character foreign to the pattern. *)
Lemma occurs_at_split (pattern a rest : jsstring) (c : Z) (j : nat) :
  ~ In c pattern -> pattern <> [] ->
  occurs_at pattern (a ++ c :: rest) j ->
  occurs_at pattern a j
  \/ ((length a < j)%nat /\ occurs_at pattern rest (j - length a - 1)).
Proof.
  intros Hc Hne H.
  destruct (Nat.le_gt_cases (j + length pattern) (length a)) as [Hin|Hout].
  - left. unfold occurs_at in *. rewrite skipn_app in H.
    rewrite startsWith_app_l in H; [exact H|]. rewrite length_skipn. lia.
  - destruct (Nat.le_gt_cases j (length a)) as [Hle|Hgt].
    + exfalso. apply Hc.
      pose proof (occurs_at_nth _ _ j (length a - j) H) as E.
      replace (j + (length a - j))%nat with (length a) in E by lia.
      rewrite nth_error_app2, Nat.sub_diag in E by lia. simpl in E.
      symmetry in E. apply nth_error_In in E; [exact E|lia].
    + right. split; [exact Hgt|]. unfold occurs_at in *.
      rewrite skipn_app, skipn_all2 in H by lia. simpl app in H.
      replace (j - length a)%nat with (S (j - length a - 1)) in H by lia.
      exact H.
Qed.

(** When neither the tag, the width nor the height contains "255", the first
    "255" of a header is its last field. *)
Lemma header_first_255 (tag : jsstring) (ws hs : list Z) :
  indexOf tag (str "255") = -1 ->
  indexOf (numeral ws) (str "255") = -1 ->
  indexOf (numeral hs) (str "255") = -1 ->
  indexOf (header_text tag ws hs) (str "255")
  = Z.of_nat (length (header_text tag ws hs)) - 3.
Proof.
  intros Ht Hw Hh.
  assert (Hne : str "255" <> []) by discriminate.
  assert (Hsp : ~ In (chr " ") (str "255"))
    by (intros [E|[E|[E|[]]]]; discriminate E).
  pose proof (header_text_length tag ws hs) as Hlen.
  set (n := (length tag + length ws + length hs + 3)%nat).
  assert (Hat : occurs_at (str "255") (header_text tag ws hs) n).
  { unfold header_text.
    replace (tag ++ chr " " :: numeral ws ++ chr " " :: numeral hs
               ++ chr " " :: str "255")
      with ((tag ++ chr " " :: numeral ws ++ chr " " :: numeral hs ++ [chr " "])
              ++ str "255" ++ []).
    - replace n
        with (length (tag ++ chr " " :: numeral ws ++ chr " " :: numeral hs
                        ++ [chr " "])).
      + apply occurs_at_app.
      + unfold n, numeral.
        repeat (rewrite length_app || rewrite length_map || rewrite length_cons).
        simpl length. lia.
    - rewrite app_nil_r.
      repeat (rewrite <- app_assoc; rewrite <- ?app_comm_cons). reflexivity. }
  destruct (indexOf_first_occurrence _ _ _ Hat) as (i & Hi & Hocc & Hbefore).
  rewrite Hi, Hlen.
  destruct (Nat.lt_trichotomy i n) as [Hlt|[Heq|Hgt]]; [|lia|].
  2:{ exfalso. exact (Hbefore n Hgt Hat). }
  exfalso. unfold header_text in Hocc.
  apply occurs_at_split in Hocc; [|exact Hsp|exact Hne].
  destruct Hocc as [Hocc|[H1 Hocc]]; [exact (indexOf_none _ _ _ Ht Hne Hocc)|].
  apply occurs_at_split in Hocc; [|exact Hsp|exact Hne].
  destruct Hocc as [Hocc|[H2 Hocc]]; [exact (indexOf_none _ _ _ Hw Hne Hocc)|].
  apply occurs_at_split in Hocc; [|exact Hsp|exact Hne].
  destruct Hocc as [Hocc|[H3 Hocc]]; [exact (indexOf_none _ _ _ Hh Hne Hocc)|].
  unfold occurs_at in Hocc. apply startsWith_length in Hocc.
  rewrite length_skipn in Hocc.
  change (length (str "255")) with 3%nat in Hocc.
  assert (Lw : length (numeral ws) = length ws) by apply length_map.
  assert (Lh : length (numeral hs) = length hs) by apply length_map.
  lia.
Qed.

(** ** Files with a well-formed header *)

Lemma header_bytes_text (tag : Uint8Array) (ws hs : list Z) :
  Forall (fun d => 0 <= d <= 9) ws -> Forall (fun d => 0 <= d <= 9) hs ->
  map byte_val (header_bytes tag ws hs) = header_text (map byte_val tag) ws hs.
Proof.
  intros Hw Hh. unfold header_bytes, header_text.
  repeat (rewrite map_app || rewrite map_cons).
  rewrite !numeral_bytes_text by assumption. reflexivity.
Qed.

Lemma header_bytes_ascii (tag : Uint8Array) (ws hs : list Z) :
  ascii_bytes tag ->
  Forall (fun d => 0 <= d <= 9) ws -> Forall (fun d => 0 <= d <= 9) hs ->
  ascii_bytes (header_bytes tag ws hs).
Proof.
  intros Ht Hw Hh. unfold header_bytes.
  apply ascii_bytes_app; [exact Ht|]. constructor; [reflexivity|].
  apply ascii_bytes_app; [apply numeral_bytes_ascii, Hw|].
  constructor; [reflexivity|].
  apply ascii_bytes_app; [apply numeral_bytes_ascii, Hh|].
  repeat constructor.
Qed.

Lemma header_bytes_length (tag : Uint8Array) (ws hs : list Z) :
  length (header_bytes tag ws hs)
  = (length tag + length ws + length hs + 6)%nat.
Proof.
  unfold header_bytes, numeral_bytes.
  repeat (rewrite length_app || rewrite length_map || rewrite length_cons).
  change (length (bytes "255")) with 3%nat. lia.
Qed.

Lemma factor_bound (w h n : Z) :
  0 <= w -> 0 <= h -> 0 < n -> n = w * h * 3 -> w <= n /\ h <= n.
Proof.
  intros Hw Hh Hn E.
  assert (0 < w) by nia. assert (0 < h) by nia. split; nia.
Qed.

(** [width * height * 3] for exact integers. *)
Lemma expected_size_exact (lines : list jsstring) (ws hs : list Z) :
  nth_error lines 1 = Some (numeral ws) ->
  nth_error lines 2 = Some (numeral hs) ->
  decimal_digits ws -> decimal_digits hs ->
  digits_value 10 ws < 2 ^ 53 -> digits_value 10 hs < 2 ^ 53 ->
  digits_value 10 ws * digits_value 10 hs * 3 < 2 ^ 53 ->
  parseInt (nth_error lines 1) = Int (digits_value 10 ws)
  /\ parseInt (nth_error lines 2) = Int (digits_value 10 hs)
  /\ expected_size lines = Int (digits_value 10 ws * digits_value 10 hs * 3).
Proof.
  intros E1 E2 Hws Hhs Hw Hh Hp.
  pose proof (digits_value_bound ws (proj2 Hws)) as Bw.
  pose proof (digits_value_bound hs (proj2 Hhs)) as Bh.
  unfold expected_size. rewrite E1, E2.
  rewrite (parseInt_numeral _ Hws), (parseInt_numeral _ Hhs).
  rewrite !Binary64Facts.round_exact by lia.
  repeat split.
  rewrite jsmul_Int, Binary64Facts.round_exact by nia.
  rewrite jsmul_Int, Binary64Facts.round_exact by nia.
  reflexivity.
Qed.

(** ** Pixel values written in ASCII *)

Lemma pixel_tokens_ascii (items : list pixel_token) :
  Forall written items -> ascii_bytes (pixel_tokens_bytes items).
Proof.
  intros H. induction H as [|item items (_ & Hrun & [_ Hds] & _) _ IH];
    [constructor|].
  cbn [pixel_tokens_bytes flat_map].
  apply ascii_bytes_app; [apply ascii_bytes_app|exact IH].
  - eapply Forall_impl; [|exact Hrun].
    intros c Hc. apply (ascii_space_white c Hc).
  - apply numeral_bytes_ascii, Hds.
Qed.

Lemma split_loop_pixel_tokens (items : list pixel_token) (tok : jsstring) :
  Forall written items ->
  split_loop (map byte_val (pixel_tokens_bytes items)) tok false
  = tok :: map (fun item => numeral (snd item)) items.
Proof.
  intros H. revert tok.
  induction H as [|item items (Hne & Hrun & [Hdne Hds] & _) _ IH]; intros tok;
    [reflexivity|].
  cbn [pixel_tokens_bytes flat_map map].
  fold (pixel_tokens_bytes items).
  rewrite !map_app, <- app_assoc.
  rewrite split_loop_run.
  - f_equal.
    rewrite (numeral_bytes_text _ Hds).
    rewrite split_loop_after_space
      by (auto using numeral_clean, numeral_nonempty).
    apply IH.
  - destruct (fst item); [congruence|discriminate].
  - apply Forall_map. eapply Forall_impl; [|exact Hrun].
    intros c Hc. apply (ascii_space_white c Hc).
Qed.

(** * The claims *)

(** C1, as stated, fails.  Only the first 20 bytes are read as text: a
    header longer than that is cut before its "255" and refused for its
    colour depth.  And the payload offset is taken from the first "255" of
    that text: a width of 255 puts it inside the header, and the file is
    refused for its size. *)
Lemma P6_round_trip_counterexample :
  (map byte_val (header_bytes (bytes "P6") [0] [1; 0; 0; 0; 0; 0; 0; 0; 0; 0; 0; 0; 0])
   = str "P6 0 1000000000000 255"
   /\ Z.of_nat (length (@nil byte)) = 0 * 1000000000000 * 3
   /\ parsePPM P6_long = Throw UnsupportedColorDepth
   /\ parsePPMP6 P6_long = Throw UnsupportedColorDepth)
  /\ (map byte_val (header_bytes (bytes "P6") [2; 5; 5] [1]) = str "P6 255 1 255"
      /\ Z.of_nat (length (repeat x00 765)) = 255 * 1 * 3
      /\ parsePPM P6_wide = Throw PixelDataSizeMismatch
      /\ parsePPMP6 P6_wide = Throw PixelDataSizeMismatch).
Proof.
  repeat split; vm_compute; reflexivity.
Qed.

(** C1, amended. Take a buffer made of the header "P6 W H 255", one white
    space byte and exactly [W * H * 3] payload bytes.  If the header is at
    most 20 bytes long and neither the text of [W] nor that of [H] contains
    "255", then [parsePPM] and [parsePPMP6] return the image of width [W],
    height [H], maximum colour value 255 and format "P6" whose pixel data is
    the payload. *)
Theorem P6_round_trip (ws hs : list Z) (sep : byte) (payload : Uint8Array) :
  decimal_digits ws -> decimal_digits hs ->
  (length (header_bytes (bytes "P6") ws hs) <= 20)%nat ->
  indexOf (numeral ws) (str "255") = -1 ->
  indexOf (numeral hs) (str "255") = -1 ->
  ascii_space sep ->
  Z.of_nat (length payload) = digits_value 10 ws * digits_value 10 hs * 3 ->
  parsePPM (header_bytes (bytes "P6") ws hs ++ sep :: payload)
  = Ok (mkPPMImage (Int (digits_value 10 ws)) (Int (digits_value 10 hs))
          payload (Int 255) P6)
  /\ parsePPMP6 (header_bytes (bytes "P6") ws hs ++ sep :: payload)
     = Ok (mkPPMImage (Int (digits_value 10 ws)) (Int (digits_value 10 hs))
             payload (Int 255) P6).
Proof.
  intros Hws Hhs Hlen Hnw Hnh Hsep Hpay.
  pose proof Hws as [_ Hw]. pose proof Hhs as [_ Hh].
  pose proof (header_first_255 (str "P6") ws hs eq_refl Hnw Hnh) as Hidx.
  set (header := header_bytes (bytes "P6") ws hs) in *.
  set (data := header ++ sep :: payload).
  assert (Hascii : ascii_bytes header)
    by (apply header_bytes_ascii; [repeat constructor|exact Hw|exact Hh]).
  assert (Htext : map byte_val header = header_text (str "P6") ws hs)
    by (apply header_bytes_text; assumption).
  assert (Hhl : length header = (length ws + length hs + 8)%nat).
  { unfold header. rewrite header_bytes_length.
    change (length (bytes "P6")) with 2%nat. lia. }
  assert (Htl : length (header_text (str "P6") ws hs) = length header)
    by (rewrite <- Htext; apply length_map).
  (* the text of the first 20 bytes *)
  assert (Hdec : exists T,
             TextDecoder.decode (firstn 20 data) = header_text (str "P6") ws hs ++ T
             /\ exists L, split_loop T (str "255") false = str "255" :: L).
  { unfold data. rewrite firstn_app, (firstn_all2 header) by lia.
    exists (decoded_tail (firstn (20 - length header) (sep :: payload))).
    split.
    - rewrite decode_ascii; [rewrite Htext; reflexivity|exact Hascii|].
      intros E. rewrite E in Hhl. simpl in Hhl. lia.
    - destruct (20 - length header)%nat as [|k].
      + exists []. reflexivity.
      + cbn [firstn].
        change (sep :: firstn k payload) with ([sep] ++ firstn k payload).
        destruct (ascii_space_white sep Hsep) as [Hs1 Hs2].
        rewrite decoded_tail_ascii by (constructor; [exact Hs1|constructor]).
        cbn [map app]. rewrite (split_loop_space _ _ _ Hs2).
        eexists. reflexivity. }
  destruct Hdec as (T & Hdec & L & HL).
  assert (Hlines : headerLinesP6 data
                   = str "P6" :: numeral ws :: numeral hs :: str "255" :: L).
  { unfold headerLinesP6. rewrite Hdec.
    rewrite split_header; [rewrite HL; reflexivity|repeat constructor
                          |discriminate|exact Hws|exact Hhs]. }
  (* the payload *)
  assert (Hpayload : payloadP6 data = payload).
  { unfold payloadP6. rewrite Hdec.
    rewrite (indexOf_app _ T _ (length header - 3)) by (rewrite Hidx; lia).
    replace (Z.to_nat (Z.of_nat (length header - 3) + 4))
      with (length header + 1)%nat by lia.
    unfold data. rewrite skipn_app, skipn_all2, Nat.add_comm by lia.
    replace (1 + length header - length header)%nat with 1%nat by lia.
    reflexivity. }
  (* width, height and the expected size *)
  pose proof (digits_value_bound ws Hw) as Bw.
  pose proof (digits_value_bound hs Hh) as Bh.
  assert (Hpow : 10 ^ Z.of_nat (length ws) * 10 ^ Z.of_nat (length hs)
                 <= 10 ^ 12).
  { rewrite <- Z.pow_add_r by lia. apply Z.pow_le_mono_r; lia. }
  assert (Hw12 : 10 ^ Z.of_nat (length ws) <= 10 ^ 12)
    by (apply Z.pow_le_mono_r; lia).
  assert (Hh12 : 10 ^ Z.of_nat (length hs) <= 10 ^ 12)
    by (apply Z.pow_le_mono_r; lia).
  assert (H12 : 3 * 10 ^ 12 < 2 ^ 53) by reflexivity.
  destruct (expected_size_exact (headerLinesP6 data) ws hs) as (Ew & Eh & Es);
    try (rewrite Hlines; reflexivity); try assumption; try nia.
  assert (Hok : parsePPMP6 data
                = Ok (mkPPMImage (Int (digits_value 10 ws))
                        (Int (digits_value 10 hs)) payload (Int 255) P6)).
  { rewrite parsePPMP6_size by (rewrite Hlines; reflexivity).
    rewrite Es, Hpayload, Hpay, Ew, Eh.
    rewrite (proj2 (number_eqb_Int _ _) eq_refl). reflexivity. }
  split; [|exact Hok].
  rewrite parsePPM_dispatch, Hlines. exact Hok.
Qed.

Lemma P6_round_trip_witness :
  parsePPM two_by_one_P6
  = Ok (mkPPMImage (Int 2) (Int 1) [x0a; x14; x1e; x28; x32; x3c] (Int 255) P6).
Proof.
  refine (proj1 (P6_round_trip [2] [1] x0a [x0a; x14; x1e; x28; x32; x3c]
                   _ _ _ _ _ _ _)).
  - split; [discriminate|repeat constructor; lia].
  - split; [discriminate|repeat constructor; lia].
  - vm_compute. lia.
  - vm_compute. reflexivity.
  - vm_compute. reflexivity.
  - vm_compute. tauto.
  - vm_compute. reflexivity.
Defined.

(** C2, as stated, fails.  With no pixel at all, the empty text after the
    header is still split into one (empty) token, which counts as one value;
    and white space after the last pixel value gives one more (empty) token.
    Either way the size check refuses the file. *)
Lemma P3_round_trip_counterexample :
  (map byte_val P3_empty = str "P3 0 0 255"
   /\ Z.of_nat (length (@nil pixel_token)) = 0 * 0 * 3
   /\ parsePPM P3_empty = Throw PixelDataSizeMismatch
   /\ parsePPMP3 P3_empty = Throw PixelDataSizeMismatch)
  /\ (P3_newline = P3_pixel ++ [x0a]
      /\ parsePPM P3_newline = Throw PixelDataSizeMismatch
      /\ parsePPMP3 P3_newline = Throw PixelDataSizeMismatch).
Proof.
  repeat split; vm_compute; reflexivity.
Qed.

(** C2, amended. Take a buffer that is the ASCII text "P3 W H 255" followed
    by [W * H * 3] decimal tokens, at least one and fewer than [2^53], each
    in [0, 255] and each preceded by white space, with nothing after the last
    token.  Then [parsePPM] and [parsePPMP3] return the image of width [W],
    height [H], maximum colour value 255 and format "P3" whose [i]-th pixel
    datum is the value of the [i]-th token. *)
Theorem P3_round_trip (ws hs : list Z) (items : list pixel_token) :
  decimal_digits ws -> decimal_digits hs ->
  Forall written items -> items <> [] ->
  Z.of_nat (length items) = digits_value 10 ws * digits_value 10 hs * 3 ->
  Z.of_nat (length items) < 2 ^ 53 ->
  exists pixels,
    map byte_val pixels = map token_value items
    /\ parsePPM (header_bytes (bytes "P3") ws hs ++ pixel_tokens_bytes items)
       = Ok (mkPPMImage (Int (digits_value 10 ws)) (Int (digits_value 10 hs))
               pixels (Int 255) P3)
    /\ parsePPMP3 (header_bytes (bytes "P3") ws hs ++ pixel_tokens_bytes items)
       = Ok (mkPPMImage (Int (digits_value 10 ws)) (Int (digits_value 10 hs))
               pixels (Int 255) P3).
Proof.
  intros Hws Hhs Hitems Hne Hcount Hbound.
  pose proof Hws as [_ Hw]. pose proof Hhs as [_ Hh].
  set (header := header_bytes (bytes "P3") ws hs).
  set (data := header ++ pixel_tokens_bytes items).
  exists (map (fun item => byte_of_Z (token_value item)) items).
  assert (Hvalues : Forall (fun item => 0 <= token_value item <= 255) items).
  { eapply Forall_impl; [|exact Hitems].
    intros item (_ & _ & [_ Hds] & Hv).
    pose proof (digits_value_bound _ Hds). unfold token_value in *. lia. }
  split.
  { rewrite map_map. apply map_ext_Forall.
    eapply Forall_impl; [|exact Hvalues].
    intros item Hv. cbv beta in Hv. apply byte_val_of_Z. lia. }
  assert (Hascii : ascii_bytes header)
    by (apply header_bytes_ascii; [repeat constructor|exact Hw|exact Hh]).
  assert (Htext : map byte_val header = header_text (str "P3") ws hs)
    by (apply header_bytes_text; assumption).
  (* the lines of the whole text *)
  assert (Hlines : headerLinesP3 data
                   = str "P3" :: numeral ws :: numeral hs :: str "255"
                     :: map (fun item => numeral (snd item)) items).
  { unfold headerLinesP3. rewrite <- (app_nil_r data).
    rewrite decode_ascii.
    - rewrite decoded_tail_nil, app_nil_r. unfold data.
      rewrite map_app, Htext.
      rewrite split_header; [|repeat constructor|discriminate|exact Hws|exact Hhs].
      rewrite (split_loop_pixel_tokens _ _ Hitems). reflexivity.
    - unfold data. apply ascii_bytes_app; [exact Hascii|].
      apply pixel_tokens_ascii, Hitems.
    - unfold data, header, header_bytes. discriminate. }
  (* the values *)
  assert (Hparsed : parsedValuesP3 data
                    = map (fun item => Int (token_value item)) items).
  { rewrite parsedValuesP3_tokens, Hlines. cbn [skipn].
    destruct items as [|item items]; [congruence|].
    transitivity (map Number (map (fun it : pixel_token => numeral (snd it))
                                (item :: items))); [reflexivity|].
    rewrite map_map. apply map_ext_Forall.
    eapply Forall_impl; [|exact Hitems].
    intros it (_ & _ & Hds & Hv). rewrite (Number_numeral _ Hds).
    pose proof (digits_value_bound _ (proj2 Hds)).
    apply Binary64Facts.round_exact. unfold token_value in *. lia. }
  (* width, height and the expected size *)
  pose proof (digits_value_bound ws Hw) as Bw.
  pose proof (digits_value_bound hs Hh) as Bh.
  assert (Hpos : 0 < Z.of_nat (length items))
    by (destruct items; [congruence|simpl; lia]).
  destruct (factor_bound _ _ _ (proj1 Bw) (proj1 Bh) Hpos Hcount) as [Fw Fh].
  destruct (expected_size_exact (headerLinesP3 data) ws hs) as (Ew & Eh & Es);
    try (rewrite Hlines; reflexivity); try assumption; try lia.
  assert (Hok : parsePPMP3 data
                = Ok (mkPPMImage (Int (digits_value 10 ws))
                        (Int (digits_value 10 hs))
                        (map (fun item => byte_of_Z (token_value item)) items)
                        (Int 255) P3)).
  { rewrite parsePPMP3_size by (rewrite Hlines; reflexivity).
    rewrite Es, Hparsed, length_map, Hcount, Ew, Eh.
    rewrite (proj2 (number_eqb_Int _ _) eq_refl).
    unfold new_Uint8Array. rewrite map_map. do 2 f_equal.
    apply map_ext_Forall. eapply Forall_impl; [|exact Hvalues].
    intros item Hv. cbv beta in Hv. cbn [ToUint8].
    rewrite Z.mod_small by lia. reflexivity. }
  split; [|exact Hok].
  (* the dispatcher reads the tag in the first 20 bytes *)
  assert (Htag : nth_error (headerLinesP6 data) 0 = Some (str "P3")).
  { unfold headerLinesP6, data, header, header_bytes.
    change (bytes "P3") with ([x50; x33] : Uint8Array).
    cbn [app firstn].
    change (x50 :: x33 :: x20 :: ?l) with ([x50; x33; x20] ++ l).
    rewrite decode_ascii; [|repeat constructor|discriminate].
    reflexivity. }
  rewrite parsePPM_dispatch, Htag. exact Hok.
Qed.

Lemma P3_round_trip_witness :
  exists pixels,
    map byte_val pixels = [10; 200; 30]
    /\ parsePPM P3_pixel = Ok (mkPPMImage (Int 1) (Int 1) pixels (Int 255) P3).
Proof.
  destruct (P3_round_trip [1] [1]
              [([x20], [1; 0]); ([x20], [2; 0; 0]); ([x20], [3; 0])])
    as (pixels & Hv & Hok & _).
  - split; [discriminate|repeat constructor; lia].
  - split; [discriminate|repeat constructor; lia].
  - repeat constructor; try discriminate; try lia; vm_compute; try tauto;
      discriminate.
  - discriminate.
  - vm_compute. reflexivity.
  - vm_compute. reflexivity.
  - exists pixels. split; [exact Hv|exact Hok].
Defined.

(** C3. Whenever [parsePPM], [parsePPMP3] or [parsePPMP6] returns an image,
    [pixelData.length] equals [width * height * 3], the product being the
    one the program computes; and for a pixel buffer shorter than [2^53]
    (every typed array is) width and height are integers whose exact product
    by 3 is that length. *)
Theorem pixelData_length_invariant (data : Uint8Array) (img : PPMImage) :
  parsePPM data = Ok img \/ parsePPMP3 data = Ok img \/ parsePPMP6 data = Ok img ->
  jsmul (jsmul (width img) (height img)) (Int 3)
  = Int (Z.of_nat (length (pixelData img)))
  /\ (Z.of_nat (length (pixelData img)) < 2 ^ 53 ->
      exists w h, width img = Int w /\ height img = Int h
                  /\ Z.of_nat (length (pixelData img)) = w * h * 3).
Proof.
  intros H. destruct (decoded_image_size data img H) as (Hsz & Hw & Hh).
  split; [exact Hsz|].
  intros Hlen. apply (product_exact _ _ _ Hw Hh Hsz). lia.
Qed.

Lemma pixelData_length_invariant_witness :
  exists img, parsePPM two_by_one_P6 = Ok img
              /\ jsmul (jsmul (width img) (height img)) (Int 3)
                 = Int (Z.of_nat (length (pixelData img))).
Proof.
  eexists. split; [vm_compute; reflexivity|].
  refine (proj1 (pixelData_length_invariant two_by_one_P6 _ _)).
  left. vm_compute. reflexivity.
Defined.



(** C5, as stated, fails: with the tag "P5" and the depth "65535" the
    dispatcher reports the format, not the colour depth. *)
Lemma depth_rejection_counterexample :
  nth_error (headerLinesP6 P5_deep) 3 = Some (str "65535")
  /\ nth_error (headerLinesP3 P5_deep) 3 = Some (str "65535")
  /\ parsePPM P5_deep = Throw (UnsupportedFormat (Some (str "P5")))
  /\ parsePPM P5_deep <> Throw UnsupportedColorDepth.
Proof.
  split; [vm_compute; reflexivity|]. split; [vm_compute; reflexivity|].
  split; [vm_compute; reflexivity|]. vm_compute. discriminate.
Qed.

(** C5, amended. When the fourth header token an extractor reads is not
    "255", that extractor throws the colour-depth error whatever the tag and
    the payload are; [parsePPM] throws it when the tag is "P6" or "P3", and
    reports the format for every other tag. *)
Theorem depth_rejection (data : Uint8Array) :
  (nth_error (headerLinesP6 data) 3 <> Some (str "255") ->
   parsePPMP6 data = Throw UnsupportedColorDepth
   /\ (nth_error (headerLinesP6 data) 0 = Some (str "P6") ->
       parsePPM data = Throw UnsupportedColorDepth))
  /\ (nth_error (headerLinesP3 data) 3 <> Some (str "255") ->
      parsePPMP3 data = Throw UnsupportedColorDepth
      /\ (nth_error (headerLinesP6 data) 0 = Some (str "P3") ->
          parsePPM data = Throw UnsupportedColorDepth))
  /\ (nth_error (headerLinesP6 data) 0 <> Some (str "P6") ->
      nth_error (headerLinesP6 data) 0 <> Some (str "P3") ->
      parsePPM data = Throw (UnsupportedFormat (nth_error (headerLinesP6 data) 0))).
Proof.
  split; [|split].
  - intros H. split; [apply parsePPMP6_depth, H|].
    intros Ht. rewrite parsePPM_dispatch.
    rewrite (proj2 (strict_eqb_eq _ _) Ht). apply parsePPMP6_depth, H.
  - intros H. split; [apply parsePPMP3_depth, H|].
    intros Ht. rewrite parsePPM_dispatch. rewrite Ht.
    change (strict_eqb (Some (str "P3")) (str "P6")) with false.
    change (strict_eqb (Some (str "P3")) (str "P3")) with true.
    apply parsePPMP3_depth, H.
  - intros H6 H3. rewrite parsePPM_dispatch.
    rewrite (proj2 (strict_eqb_neq _ _) H6), (proj2 (strict_eqb_neq _ _) H3).
    reflexivity.
Qed.

Lemma depth_rejection_witness :
  parsePPMP6 P6_deep = Throw UnsupportedColorDepth
  /\ parsePPM P6_deep = Throw UnsupportedColorDepth
  /\ parsePPMP3 P3_deep = Throw UnsupportedColorDepth
  /\ parsePPM P3_deep = Throw UnsupportedColorDepth
  /\ parsePPM P5_deep = Throw (UnsupportedFormat (Some (str "P5"))).
Proof.
  assert (H6 : nth_error (headerLinesP6 P6_deep) 3 <> Some (str "255"))
    by (vm_compute; discriminate).
  assert (H3 : nth_error (headerLinesP3 P3_deep) 3 <> Some (str "255"))
    by (vm_compute; discriminate).
  destruct (proj1 (depth_rejection P6_deep) H6) as [A1 A2].
  destruct (proj1 (proj2 (depth_rejection P3_deep)) H3) as [B1 B2].
  split; [exact A1|]. split; [apply A2; vm_compute; reflexivity|].
  split; [exact B1|]. split; [apply B2; vm_compute; reflexivity|].
  apply (proj2 (proj2 (depth_rejection P5_deep))); vm_compute; discriminate.
Defined.

(** C6, as stated, fails in its last part: called directly on a buffer whose
    tag is "P5" and whose depth is "65535", each extractor throws the
    colour-depth error and never checks the tag. *)
Lemma format_rejection_counterexample :
  nth_error (headerLinesP6 P5_deep) 0 = Some (str "P5")
  /\ nth_error (headerLinesP3 P5_deep) 0 = Some (str "P5")
  /\ parsePPMP6 P5_deep = Throw UnsupportedColorDepth
  /\ parsePPMP3 P5_deep = Throw UnsupportedColorDepth
  /\ UnsupportedColorDepth <> UnsupportedFormat (Some (str "P5")).
Proof.
  split; [vm_compute; reflexivity|]. split; [vm_compute; reflexivity|].
  split; [vm_compute; reflexivity|]. split; [vm_compute; reflexivity|].
  apply depth_is_not_format.
Qed.

(** C6, amended. When the first token of the text of the first 20 bytes is
    neither "P3" nor "P6", [parsePPM] throws the format error, whose message
    ends with that token (the empty token for an empty buffer).
    [parsePPMP6] and [parsePPMP3] make the same check themselves once the
    colour-depth check has passed: with a fourth token "255" and a first
    token other than their own tag, they throw the format error for that
    token. *)
Theorem format_rejection (data : Uint8Array) :
  (nth_error (headerLinesP6 data) 0 <> Some (str "P3") ->
   nth_error (headerLinesP6 data) 0 <> Some (str "P6") ->
   exists token,
     nth_error (headerLinesP6 data) 0 = Some token
     /\ parsePPM data = Throw (str "Unsupported PPM format: " ++ token))
  /\ (nth_error (headerLinesP6 data) 3 = Some (str "255") ->
      nth_error (headerLinesP6 data) 0 <> Some (str "P6") ->
      exists token,
        nth_error (headerLinesP6 data) 0 = Some token
        /\ parsePPMP6 data = Throw (str "Unsupported PPM format: " ++ token))
  /\ (nth_error (headerLinesP3 data) 3 = Some (str "255") ->
      nth_error (headerLinesP3 data) 0 <> Some (str "P3") ->
      exists token,
        nth_error (headerLinesP3 data) 0 = Some token
        /\ parsePPMP3 data = Throw (str "Unsupported PPM format: " ++ token))
  /\ parsePPM [] = Throw (str "Unsupported PPM format: ").
Proof.
  split; [|split; [|split]].
  - intros H3 H6.
    destruct (split_first_token (TextDecoder.decode (firstn 20 data))) as [t Ht].
    exists t. split; [exact Ht|]. rewrite parsePPM_dispatch.
    rewrite (proj2 (strict_eqb_neq _ _) H6), (proj2 (strict_eqb_neq _ _) H3).
    unfold headerLinesP6. rewrite Ht. reflexivity.
  - intros H255 H6.
    destruct (split_first_token (TextDecoder.decode (firstn 20 data))) as [t Ht].
    exists t. split; [exact Ht|].
    rewrite (parsePPMP6_format _ H255 H6).
    unfold headerLinesP6. rewrite Ht. reflexivity.
  - intros H255 H3.
    destruct (split_first_token (TextDecoder.decode data)) as [t Ht].
    exists t. split; [exact Ht|].
    rewrite (parsePPMP3_format _ H255 H3).
    unfold headerLinesP3. rewrite Ht. reflexivity.
  - vm_compute. reflexivity.
Qed.

Lemma format_rejection_witness :
  parsePPM P5_shallow = Throw (str "Unsupported PPM format: P5")
  /\ parsePPMP6 P5_shallow = Throw (str "Unsupported PPM format: P5")
  /\ parsePPMP3 P5_shallow = Throw (str "Unsupported PPM format: P5").
Proof.
  destruct (format_rejection P5_shallow) as (A & B & C & _).
  split; [|split].
  - destruct A as (t & Ht & ->); [vm_compute; discriminate..|].
    vm_compute in Ht. injection Ht as <-. vm_compute. reflexivity.
  - destruct B as (t & Ht & ->);
      [vm_compute; reflexivity|vm_compute; discriminate|].
    vm_compute in Ht. injection Ht as <-. vm_compute. reflexivity.
  - destruct C as (t & Ht & ->);
      [vm_compute; reflexivity|vm_compute; discriminate|].
    vm_compute in Ht. injection Ht as <-. vm_compute. reflexivity.
Defined.

(** C7. For every buffer [parsePPMP6] accepts, "255" occurs in the text
    decoded from the first 20 bytes, and the pixel data is the buffer from
    the offset (index of the first occurrence) + 4 to its end. *)
Theorem parsePPMP6_payload_offset (data : Uint8Array) (img : PPMImage) :
  parsePPMP6 data = Ok img ->
  exists i : nat,
    first_occurrence (str "255") (TextDecoder.decode (firstn 20 data)) i
    /\ indexOf (TextDecoder.decode (firstn 20 data)) (str "255") = Z.of_nat i
    /\ pixelData img = skipn (i + 4) data.
Proof.
  intros H. apply parsePPMP6_Ok in H. destruct H as (H255 & _ & _ & ->).
  destruct (split_token_occurs _ _ _ H255) as [j Hj].
  destruct (indexOf_first_occurrence _ _ _ Hj) as (i & Hi & Hfirst).
  exists i. split; [exact Hfirst|]. split; [exact Hi|].
  simpl pixelData. unfold payloadP6. rewrite Hi. f_equal. lia.
Qed.

Lemma parsePPMP6_payload_offset_witness :
  exists img,
    parsePPMP6 two_by_one_P6 = Ok img
    /\ pixelData img = skipn (7 + 4) two_by_one_P6.
Proof.
  assert (E : parsePPMP6 two_by_one_P6
              = Ok (mkPPMImage (Int 2) (Int 1) (skipn 11 two_by_one_P6)
                      (Int 255) P6))
    by (vm_compute; reflexivity).
  eexists. split; [exact E|].
  destruct (parsePPMP6_payload_offset two_by_one_P6 _ E) as (i & _ & Hi & Hp).
  vm_compute in Hi. apply (Nat2Z.inj 7 i) in Hi. subst i. exact Hp.
Defined.

(** C8, as stated, fails: an out-of-range token is not converted to 0.  The
    tokens "300" and "-1" become 44 and 255 (and "0x10", read in base 16,
    becomes 16). *)
Lemma pixel_value_coercion_counterexample :
  skipn 4 (headerLinesP3 P3_out_of_range) = [str "300"; str "-1"; str "0x10"]
  /\ Number (str "300") = Int 300
  /\ Number (str "-1") = Int (-1)
  /\ Number (str "0x10") = Int 16
  /\ parsePPMP3 P3_out_of_range
     = Ok (mkPPMImage (Int 1) (Int 1) [x2c; xff; x10] (Int 255) P3).
Proof.
  repeat split; vm_compute; reflexivity.
Qed.

(** C8, amended. In an image returned by [parsePPMP3], the pixel data is the
    list of the tokens from the fifth on, each read by [Number] and converted
    by [ToUint8].  That conversion gives 0 for a token that is not a number,
    and reduces an integer modulo 256: a decimal token in range is stored as
    it is, one out of range wraps around, and so does a negative one. *)
Theorem pixel_value_coercion (data : Uint8Array) (img : PPMImage) :
  parsePPMP3 data = Ok img ->
  map byte_val (pixelData img)
  = map (fun t => ToUint8 (Number t)) (skipn 4 (headerLinesP3 data))
  /\ (forall t, In t (skipn 4 (headerLinesP3 data)) ->
      Number t = NaN -> ToUint8 (Number t) = 0)
  /\ (forall ds, In (numeral ds) (skipn 4 (headerLinesP3 data)) ->
      decimal_digits ds -> digits_value 10 ds < 2 ^ 53 ->
      ToUint8 (Number (numeral ds)) = digits_value 10 ds mod 256
      /\ (digits_value 10 ds <= 255 ->
          ToUint8 (Number (numeral ds)) = digits_value 10 ds))
  /\ (forall ds, In (chr "-" :: numeral ds) (skipn 4 (headerLinesP3 data)) ->
      decimal_digits ds -> digits_value 10 ds < 2 ^ 53 ->
      ToUint8 (Number (chr "-" :: numeral ds)) = (- digits_value 10 ds) mod 256).
Proof.
  intros H. apply parsePPMP3_Ok in H. destruct H as (_ & _ & Hsz & ->).
  split; [|split; [|split]].
  - simpl pixelData. rewrite parsedValuesP3_tokens in Hsz |- *.
    destruct (skipn 4 (headerLinesP3 data)) as [|t l].
    { exfalso. exact (expected_size_not_one _ Hsz). }
    unfold new_Uint8Array. rewrite !map_map. apply map_ext.
    intros u. apply byte_val_of_Z, ToUint8_range.
  - intros t _ Ht. rewrite Ht. reflexivity.
  - intros ds _ Hds Hv. rewrite (Number_numeral _ Hds).
    pose proof (digits_value_bound ds (proj2 Hds)) as Hb.
    rewrite Binary64Facts.round_exact by lia. cbn [ToUint8].
    split; [reflexivity|]. intros Hr. apply Z.mod_small. lia.
  - intros ds _ Hds Hv. rewrite (Number_minus_numeral _ Hds).
    pose proof (digits_value_bound ds (proj2 Hds)) as Hb.
    rewrite Binary64Facts.round_exact by lia. reflexivity.
Qed.

Lemma pixel_value_coercion_witness :
  exists img,
    parsePPMP3 P3_out_of_range = Ok img
    /\ map byte_val (pixelData img) = [44; 255; 16].
Proof.
  assert (E : parsePPMP3 P3_out_of_range
              = Ok (mkPPMImage (Int 1) (Int 1) [x2c; xff; x10] (Int 255) P3))
    by (vm_compute; reflexivity).
  eexists. split; [exact E|].
  rewrite (proj1 (pixel_value_coercion P3_out_of_range _ E)).
  vm_compute. reflexivity.
Defined.

(** C9. [getPixel(x, y)] returns as [r], [g] and [b] the elements of
    [pixelData] at the offsets [(y * width + x) * 3], [+ 1] and [+ 2]
    ([undefined] where the offset falls outside the data), for all integer
    coordinates whose offset is computed without rounding.  For a pixel
    [(x, y)] of a decoded image the three offsets fall inside the data.  In
    particular, on the 2 by 1 image with pixel data [10, 20, 30, 40, 50, 60],
    [getPixel(1, 0)] is [{ r: 40, g: 50, b: 60 }]. *)
Theorem getPixel_offsets :
  (forall (img : PPMImage) (w x y : Z),
      width img = Int w ->
      Z.abs (y * w) < 2 ^ 53 ->
      Z.abs (y * w + x) < 2 ^ 53 ->
      Z.abs ((y * w + x) * 3) + 2 < 2 ^ 53 ->
      getPixel img (Int x) (Int y)
      = mkPixel (element_at (pixelData img) ((y * w + x) * 3))
          (element_at (pixelData img) ((y * w + x) * 3 + 1))
          (element_at (pixelData img) ((y * w + x) * 3 + 2)))
  /\ (forall (data : Uint8Array) (img : PPMImage) (w h x y : Z),
         parsePPM data = Ok img \/ parsePPMP3 data = Ok img
         \/ parsePPMP6 data = Ok img ->
         width img = Int w -> height img = Int h ->
         Z.of_nat (length (pixelData img)) < 2 ^ 53 ->
         0 <= x < w -> 0 <= y < h ->
         exists vr vg vb,
           nth_error (pixelData img) (Z.to_nat ((y * w + x) * 3)) = Some vr
           /\ nth_error (pixelData img) (Z.to_nat ((y * w + x) * 3 + 1)) = Some vg
           /\ nth_error (pixelData img) (Z.to_nat ((y * w + x) * 3 + 2)) = Some vb
           /\ getPixel img (Int x) (Int y)
              = mkPixel (Some (byte_val vr)) (Some (byte_val vg))
                  (Some (byte_val vb)))
  /\ (exists img,
         parsePPM two_by_one_P6 = Ok img
         /\ width img = Int 2 /\ height img = Int 1
         /\ map byte_val (pixelData img) = [10; 20; 30; 40; 50; 60]
         /\ getPixel img (Int 1) (Int 0) = mkPixel (Some 40) (Some 50) (Some 60)).
Proof.
  split; [exact getPixel_exact|]. split.
  - intros data img w h x y Hok Hw Hh Hlen Hx Hy.
    destruct (decoded_image_size data img Hok) as (Hsz & Hiw & Hih).
    destruct (product_exact _ _ _ Hiw Hih Hsz) as (w' & h' & Ew & Eh & E);
      [lia|].
    rewrite Hw in Ew. rewrite Hh in Eh.
    injection Ew as <-. injection Eh as <-.
    assert (Hin : 0 <= (y * w + x) * 3
                  /\ (y * w + x) * 3 + 2 < Z.of_nat (length (pixelData img)))
      by nia.
    rewrite (getPixel_exact img w x y Hw) by nia.
    destruct (element_at_inside (pixelData img) ((y * w + x) * 3))
      as (vr & Hr & Er); [lia|].
    destruct (element_at_inside (pixelData img) ((y * w + x) * 3 + 1))
      as (vg & Hg & Eg); [lia|].
    destruct (element_at_inside (pixelData img) ((y * w + x) * 3 + 2))
      as (vb & Hb & Eb); [lia|].
    exists vr, vg, vb. rewrite Er, Eg, Eb. auto.
  - eexists. split; [vm_compute; reflexivity|].
    repeat split; vm_compute; reflexivity.
Qed.

Lemma getPixel_offsets_witness :
  exists img,
    parsePPM two_by_one_P6 = Ok img
    /\ getPixel img (Int 1) (Int 0) = mkPixel (Some 40) (Some 50) (Some 60).
Proof.
  assert (E : parsePPM two_by_one_P6
              = Ok (mkPPMImage (Int 2) (Int 1) (skipn 11 two_by_one_P6)
                      (Int 255) P6))
    by (vm_compute; reflexivity).
  eexists. split; [exact E|].
  destruct (proj1 (proj2 getPixel_offsets) two_by_one_P6 _ 2 1 1 0 (or_introl E))
    as (vr & vg & vb & Hr & Hg & Hb & Hp);
    [reflexivity|reflexivity|vm_compute; reflexivity|lia|lia|].
  rewrite Hp. vm_compute in Hr, Hg, Hb.
  injection Hr as <-. injection Hg as <-. injection Hb as <-.
  reflexivity.
Defined.

(** C10. Called directly, [parsePPMP6] and [parsePPMP3] throw the
    colour-depth error as soon as the fourth header token is not "255",
    whatever the format tag is: the format check, which would throw a
    different error, is never reached. *)
Theorem depth_check_precedes_format_check (data : Uint8Array) :
  (nth_error (headerLinesP6 data) 3 <> Some (str "255") ->
   parsePPMP6 data = Throw UnsupportedColorDepth)
  /\ (nth_error (headerLinesP3 data) 3 <> Some (str "255") ->
      parsePPMP3 data = Throw UnsupportedColorDepth)
  /\ (forall tag, UnsupportedColorDepth <> UnsupportedFormat tag).
Proof.
  split; [apply parsePPMP6_depth|]. split; [apply parsePPMP3_depth|].
  apply depth_is_not_format.
Qed.

Lemma depth_check_precedes_format_check_witness :
  nth_error (headerLinesP6 P5_deep) 0 = Some (str "P5")
  /\ parsePPMP6 P5_deep = Throw UnsupportedColorDepth
  /\ parsePPMP3 P5_deep = Throw UnsupportedColorDepth.
Proof.
  split; [vm_compute; reflexivity|].
  split.
  - apply (proj1 (depth_check_precedes_format_check P5_deep)).
    vm_compute. discriminate.
  - apply (proj1 (proj2 (depth_check_precedes_format_check P5_deep))).
    vm_compute. discriminate.
Defined.

(** * Further properties *)

(** ** The outcomes of the three entry points *)


(** X1. [parseHeaderAttributes] reads the first four lines and nothing
    else.  With fewer than four lines the fourth is [undefined] and the
    colour-depth error is thrown (so a header cut short is reported as a
    colour-depth problem).  When attributes are returned, the fourth line is
    "255", the maximum colour value is 255, the format is the first line as
    it is, unchecked, and width and height are integers, infinities or
    [NaN]. *)
Theorem parseHeaderAttributes_reads_four_lines (lines : list jsstring) :
  parseHeaderAttributes lines = parseHeaderAttributes (firstn 4 lines)
  /\ ((length lines < 4)%nat ->
      parseHeaderAttributes lines = Throw UnsupportedColorDepth)
  /\ (forall attrs, parseHeaderAttributes lines = Ok attrs ->
      nth_error lines 3 = Some (str "255")
      /\ h_format attrs = nth_error lines 0
      /\ h_maxColorValue attrs = Int 255
      /\ integral (h_width attrs) /\ integral (h_height attrs)).
Proof.
  split; [|split].
  - unfold parseHeaderAttributes. rewrite !nth_error_firstn. reflexivity.
  - intros H. apply parseHeaderAttributes_depth.
    rewrite (proj2 (nth_error_None lines 3)) by lia. discriminate.
  - intros attrs H.
    destruct (strict_eqb (nth_error lines 3) (str "255")) eqn:E.
    + apply strict_eqb_eq in E. rewrite (parseHeaderAttributes_ok _ E) in H.
      injection H as <-. cbn [h_format h_width h_height h_maxColorValue].
      repeat split; try assumption; apply parseInt_integral.
    + apply strict_eqb_neq in E.
      rewrite (parseHeaderAttributes_depth _ E) in H. discriminate H.
Qed.

Lemma parseHeaderAttributes_reads_four_lines_witness :
  parseHeaderAttributes [str "P6"; str "2"; str "1"]
  = Throw UnsupportedColorDepth.
Proof.
  apply (proj1 (proj2 (parseHeaderAttributes_reads_four_lines _))).
  simpl. lia.
Defined.

(** Each extractor makes its three checks in turn. *)
Lemma parsePPMP6_cases (data : Uint8Array) :
  (nth_error (headerLinesP6 data) 3 <> Some (str "255")
   /\ parsePPMP6 data = Throw UnsupportedColorDepth)
  \/ (nth_error (headerLinesP6 data) 3 = Some (str "255")
      /\ nth_error (headerLinesP6 data) 0 <> Some (str "P6")
      /\ parsePPMP6 data = Throw (UnsupportedFormat (nth_error (headerLinesP6 data) 0)))
  \/ (nth_error (headerLinesP6 data) 3 = Some (str "255")
      /\ nth_error (headerLinesP6 data) 0 = Some (str "P6")
      /\ expected_size (headerLinesP6 data) <> Int (Z.of_nat (length (payloadP6 data)))
      /\ parsePPMP6 data = Throw PixelDataSizeMismatch)
  \/ (exists img, parsePPMP6 data = Ok img).
Proof.
  destruct (strict_eqb (nth_error (headerLinesP6 data) 3) (str "255")) eqn:E3.
  2:{ apply strict_eqb_neq in E3. left. split; [exact E3|].
      apply parsePPMP6_depth, E3. }
  apply strict_eqb_eq in E3. right.
  destruct (strict_eqb (nth_error (headerLinesP6 data) 0) (str "P6")) eqn:E0.
  2:{ apply strict_eqb_neq in E0. left. split; [exact E3|]. split; [exact E0|].
      apply parsePPMP6_format; assumption. }
  apply strict_eqb_eq in E0. right.
  rewrite (parsePPMP6_size _ E3 E0).
  destruct (number_eqb _ _) eqn:En.
  - right. eexists. reflexivity.
  - left. apply number_eqb_Int_false in En. auto.
Qed.

Lemma parsePPMP3_cases (data : Uint8Array) :
  (nth_error (headerLinesP3 data) 3 <> Some (str "255")
   /\ parsePPMP3 data = Throw UnsupportedColorDepth)
  \/ (nth_error (headerLinesP3 data) 3 = Some (str "255")
      /\ nth_error (headerLinesP3 data) 0 <> Some (str "P3")
      /\ parsePPMP3 data = Throw (UnsupportedFormat (nth_error (headerLinesP3 data) 0)))
  \/ (nth_error (headerLinesP3 data) 3 = Some (str "255")
      /\ nth_error (headerLinesP3 data) 0 = Some (str "P3")
      /\ expected_size (headerLinesP3 data)
         <> Int (Z.of_nat (length (parsedValuesP3 data)))
      /\ parsePPMP3 data = Throw PixelDataSizeMismatch)
  \/ (exists img, parsePPMP3 data = Ok img).
Proof.
  destruct (strict_eqb (nth_error (headerLinesP3 data) 3) (str "255")) eqn:E3.
  2:{ apply strict_eqb_neq in E3. left. split; [exact E3|].
      apply parsePPMP3_depth, E3. }
  apply strict_eqb_eq in E3. right.
  destruct (strict_eqb (nth_error (headerLinesP3 data) 0) (str "P3")) eqn:E0.
  2:{ apply strict_eqb_neq in E0. left. split; [exact E3|]. split; [exact E0|].
      apply parsePPMP3_format; assumption. }
  apply strict_eqb_eq in E0. right.
  rewrite (parsePPMP3_size _ E3 E0).
  destruct (number_eqb _ _) eqn:En.
  - right. eexists. reflexivity.
  - left. apply number_eqb_Int_false in En. auto.
Qed.





(** X3. The message tells which check failed.  An extractor that throws the
    colour-depth message read a fourth token other than "255"; one that
    throws the size message read "255" and its own tag, and a payload whose
    length is not [width * height * 3]; one that throws another message read
    "255" and a tag that is not its own, and the message names that tag. *)
Theorem error_identifies_check (data : Uint8Array) (m : jsstring) :
  (parsePPMP6 data = Throw m ->
   (m = UnsupportedColorDepth ->
    nth_error (headerLinesP6 data) 3 <> Some (str "255"))
   /\ (m = PixelDataSizeMismatch ->
       nth_error (headerLinesP6 data) 3 = Some (str "255")
       /\ nth_error (headerLinesP6 data) 0 = Some (str "P6")
       /\ expected_size (headerLinesP6 data)
          <> Int (Z.of_nat (length (payloadP6 data))))
   /\ (m <> UnsupportedColorDepth -> m <> PixelDataSizeMismatch ->
       nth_error (headerLinesP6 data) 3 = Some (str "255")
       /\ nth_error (headerLinesP6 data) 0 <> Some (str "P6")
       /\ m = UnsupportedFormat (nth_error (headerLinesP6 data) 0)))
  /\ (parsePPMP3 data = Throw m ->
      (m = UnsupportedColorDepth ->
       nth_error (headerLinesP3 data) 3 <> Some (str "255"))
      /\ (m = PixelDataSizeMismatch ->
          nth_error (headerLinesP3 data) 3 = Some (str "255")
          /\ nth_error (headerLinesP3 data) 0 = Some (str "P3")
          /\ expected_size (headerLinesP3 data)
             <> Int (Z.of_nat (length (parsedValuesP3 data))))
      /\ (m <> UnsupportedColorDepth -> m <> PixelDataSizeMismatch ->
          nth_error (headerLinesP3 data) 3 = Some (str "255")
          /\ nth_error (headerLinesP3 data) 0 <> Some (str "P3")
          /\ m = UnsupportedFormat (nth_error (headerLinesP3 data) 0))).
Proof.
  split; intros H.
  - destruct (parsePPMP6_cases data)
      as [(A & E)|[(A & B & E)|[(A & B & C & E)|(img & E)]]];
      rewrite E in H; try discriminate H; injection H as <-.
    + split; [auto|]. split; [|congruence].
      intros F. exfalso. exact (depth_is_not_size F).
    + split; [|split; [|auto]].
      * intros F. exfalso. exact (depth_is_not_format _ (eq_sym F)).
      * intros F. exfalso. exact (size_is_not_format _ (eq_sym F)).
    + split; [|split; [auto|congruence]].
      intros F. exfalso. exact (depth_is_not_size (eq_sym F)).
  - destruct (parsePPMP3_cases data)
      as [(A & E)|[(A & B & E)|[(A & B & C & E)|(img & E)]]];
      rewrite E in H; try discriminate H; injection H as <-.
    + split; [auto|]. split; [|congruence].
      intros F. exfalso. exact (depth_is_not_size F).
    + split; [|split; [|auto]].
      * intros F. exfalso. exact (depth_is_not_format _ (eq_sym F)).
      * intros F. exfalso. exact (size_is_not_format _ (eq_sym F)).
    + split; [|split; [auto|congruence]].
      intros F. exfalso. exact (depth_is_not_size (eq_sym F)).
Qed.

Lemma error_identifies_check_witness :
  nth_error (headerLinesP6 P6_short) 3 = Some (str "255")
  /\ nth_error (headerLinesP6 P6_short) 0 = Some (str "P6")
  /\ expected_size (headerLinesP6 P6_short)
     <> Int (Z.of_nat (length (payloadP6 P6_short))).
Proof.
  assert (E : parsePPMP6 P6_short = Throw PixelDataSizeMismatch)
    by (vm_compute; reflexivity).
  exact (proj1 (proj2 (proj1 (error_identifies_check P6_short _) E)) eq_refl).
Defined.

(** ** What a returned image records *)

(** X4. An image returned by [parsePPMP6] has the format "P6", one returned
    by [parsePPMP3] the format "P3", and in both the maximum colour value
    is 255.  The format of an image returned by [parsePPM] is the tag found
    in the first 20 bytes. *)
Theorem image_metadata (data : Uint8Array) (img : PPMImage) :
  (parsePPMP6 data = Ok img -> format img = P6 /\ maxColorValue img = Int 255)
  /\ (parsePPMP3 data = Ok img -> format img = P3 /\ maxColorValue img = Int 255)
  /\ (parsePPM data = Ok img ->
      maxColorValue img = Int 255
      /\ (format img = P6 /\ nth_error (headerLinesP6 data) 0 = Some (str "P6")
          \/ format img = P3 /\ nth_error (headerLinesP6 data) 0 = Some (str "P3"))).
Proof.
  split; [|split].
  - intros H. apply parsePPMP6_Ok in H. destruct H as (_ & _ & _ & ->). auto.
  - intros H. apply parsePPMP3_Ok in H. destruct H as (_ & _ & _ & ->). auto.
  - rewrite parsePPM_dispatch.
    destruct (strict_eqb _ (str "P6")) eqn:E6.
    { intros H. apply strict_eqb_eq in E6.
      apply parsePPMP6_Ok in H. destruct H as (_ & _ & _ & ->). auto. }
    destruct (strict_eqb _ (str "P3")) eqn:E3; [|discriminate].
    intros H. apply strict_eqb_eq in E3.
    apply parsePPMP3_Ok in H. destruct H as (_ & _ & _ & ->). auto.
Qed.

Lemma image_metadata_witness :
  exists img, parsePPM P3_lines = Ok img
              /\ maxColorValue img = Int 255 /\ format img = P3.
Proof.
  assert (E : parsePPM P3_lines
              = Ok (mkPPMImage (Int 2) (Int 1) [x0a; x14; x1e; x28; x32; x3c]
                      (Int 255) P3))
    by (vm_compute; reflexivity).
  eexists. split; [exact E|].
  destruct (proj2 (proj2 (image_metadata P3_lines _)) E) as [Hm _].
  split; [exact Hm|reflexivity].
Defined.

(** X5. [pixelCount] of a decoded image whose pixel data is shorter than
    [2^53] is an integer, computed without rounding, and the pixel data holds
    exactly three bytes for each pixel that it counts. *)
Theorem pixelCount_counts_pixels (data : Uint8Array) (img : PPMImage) :
  parsePPM data = Ok img \/ parsePPMP3 data = Ok img \/ parsePPMP6 data = Ok img ->
  Z.of_nat (length (pixelData img)) < 2 ^ 53 ->
  exists n,
    pixelCount img = Int n /\ 0 <= n
    /\ Z.of_nat (length (pixelData img)) = 3 * n.
Proof.
  intros H Hlen. destruct (decoded_image_size data img H) as (Hsz & Hw & Hh).
  destruct (product_exact _ _ _ Hw Hh Hsz) as (w & h & Ew & Eh & E); [lia|].
  exists (w * h). unfold pixelCount. rewrite Ew, Eh, jsmul_Int.
  rewrite Binary64Facts.round_exact by lia.
  repeat split; lia.
Qed.

Lemma pixelCount_counts_pixels_witness :
  exists img, parsePPM two_by_one_P6 = Ok img /\ pixelCount img = Int 2.
Proof.
  assert (E : parsePPM two_by_one_P6
              = Ok (mkPPMImage (Int 2) (Int 1) (skipn 11 two_by_one_P6)
                      (Int 255) P6))
    by (vm_compute; reflexivity).
  eexists. split; [exact E|].
  destruct (pixelCount_counts_pixels two_by_one_P6 _ (or_introl E))
    as (n & Hn & _ & Hlen); [vm_compute; reflexivity|].
  rewrite Hn. f_equal. cbn [pixelData] in Hlen.
  replace (Z.of_nat (length (skipn 11 two_by_one_P6))) with 6 in Hlen
    by (vm_compute; reflexivity).
  lia.
Defined.

(** ** Pixels beyond the end of a row *)

(** X6. [getPixel] does not check [x] against the width: one row further
    right is the same pixel as one row further down.  (Coordinates and width
    below [2^24] keep the offset exact.) *)
Theorem getPixel_row_wrap (img : PPMImage) (w x y : Z) :
  width img = Int w ->
  Z.abs w < 2 ^ 24 -> Z.abs x < 2 ^ 24 -> Z.abs y < 2 ^ 24 ->
  getPixel img (Int (x + w)) (Int y) = getPixel img (Int x) (Int (y + 1)).
Proof.
  intros Hw Bw Bx By.
  change (2 ^ 24) with 16777216 in *.
  assert (B1 : Z.abs (y * w) <= 16777216 * 16777216).
  { rewrite Z.abs_mul. apply Z.mul_le_mono_nonneg; lia. }
  assert (B2 : Z.abs ((y + 1) * w) <= 16777217 * 16777216).
  { rewrite Z.abs_mul. apply Z.mul_le_mono_nonneg; lia. }
  change (16777216 * 16777216) with 281474976710656 in B1.
  change (16777217 * 16777216) with 281474993487872 in B2.
  assert (H53 : 2 ^ 53 = 9007199254740992) by reflexivity.
  rewrite (getPixel_exact img w (x + w) y Hw) by lia.
  rewrite (getPixel_exact img w x (y + 1) Hw) by lia.
  replace ((y + 1) * w + x) with (y * w + (x + w)) by lia.
  reflexivity.
Qed.

Lemma getPixel_row_wrap_witness :
  getPixel (mkPPMImage (Int 2) (Int 2) (repeat x07 12) (Int 255) P6)
    (Int (0 + 2)) (Int 0)
  = getPixel (mkPPMImage (Int 2) (Int 2) (repeat x07 12) (Int 255) P6)
      (Int 0) (Int (0 + 1)).
Proof.
  apply (getPixel_row_wrap _ 2 0 0); [reflexivity|vm_compute..]; reflexivity.
Defined.

(** ** The pixel values of a P3 file *)

(** X7. In [parsePPMP3], joining the tokens that follow the fourth with line
    feeds and splitting the result again gives those tokens back, and a
    single empty token when there is none: the list of values is never
    empty. *)
Theorem P3_join_split (data : Uint8Array) :
  split (join LINE_FEED (slice 4 (headerLinesP3 data)))
  = match slice 4 (headerLinesP3 data) with
    | [] => [[]]
    | l => l
    end
  /\ parsedValuesP3 data <> [].
Proof.
  split.
  - unfold slice.
    destruct (split_shape (TextDecoder.decode data)) as [Hc Hin].
    fold (headerLinesP3 data) in Hc, Hin.
    destruct (skipn 4 (headerLinesP3 data)) as [|t l] eqn:E; [reflexivity|].
    unfold split. apply split_loop_join; [discriminate| |].
    + rewrite <- E. clear E. apply Forall_forall. intros x Hx.
      rewrite Forall_forall in Hc. apply Hc.
      rewrite <- (firstn_skipn 4 (headerLinesP3 data)). apply in_or_app. auto.
    + rewrite <- E. clear E.
      destruct (headerLinesP3 data) as [|t0 l0]; [exact I|].
      change (skipn 4 (t0 :: l0)) with (skipn 3 l0).
      apply inner_nonempty_skipn. exact Hin.
  - rewrite parsedValuesP3_tokens.
    destruct (skipn 4 (headerLinesP3 data)); discriminate.
Qed.

(** X8. [parsePPMP3] returns no empty image: the pixel data (shorter than
    [2^53]) holds at least one pixel, and width and height are integers with
    a positive product.  The same holds for a P3 image returned by
    [parsePPM]. *)
Theorem P3_image_not_empty (data : Uint8Array) (img : PPMImage) :
  parsePPMP3 data = Ok img \/ (parsePPM data = Ok img /\ format img = P3) ->
  Z.of_nat (length (pixelData img)) < 2 ^ 53 ->
  (3 <= length (pixelData img))%nat
  /\ exists w h, width img = Int w /\ height img = Int h /\ 0 < w * h.
Proof.
  intros H Hlen.
  assert (H3 : parsePPMP3 data = Ok img).
  { destruct H as [H|[H Hf]]; [exact H|].
    destruct (parsePPM_Ok _ _ H) as [H6|H3]; [|exact H3].
    apply parsePPMP6_Ok in H6. destruct H6 as (_ & _ & _ & ->).
    discriminate Hf. }
  clear H. destruct (decoded_image_size data img (or_intror (or_introl H3)))
    as (Hsz & Hw & Hh).
  destruct (product_exact _ _ _ Hw Hh Hsz) as (w & h & Ew & Eh & E); [lia|].
  assert (Hpos : (1 <= length (pixelData img))%nat).
  { apply parsePPMP3_Ok in H3. destruct H3 as (_ & _ & _ & ->).
    simpl pixelData. unfold new_Uint8Array. rewrite length_map.
    rewrite parsedValuesP3_tokens.
    destruct (skipn 4 (headerLinesP3 data)); simpl; lia. }
  split; [lia|]. exists w, h. repeat split; try assumption. lia.
Qed.

Lemma P3_image_not_empty_witness :
  exists img, parsePPM P3_lines = Ok img /\ (3 <= length (pixelData img))%nat.
Proof.
  assert (E : parsePPM P3_lines
              = Ok (mkPPMImage (Int 2) (Int 1) [x0a; x14; x1e; x28; x32; x3c]
                      (Int 255) P3))
    by (vm_compute; reflexivity).
  eexists. split; [exact E|].
  apply (P3_image_not_empty P3_lines).
  - right. split; [exact E|reflexivity].
  - vm_compute. reflexivity.
Defined.

(** ** White space before the tag *)

Lemma leading_white_space_tag (c : byte) (rest : Uint8Array) :
  ascii_space c ->
  nth_error (split (TextDecoder.decode (c :: rest))) 0 = Some [].
Proof.
  intros Hc. destruct (ascii_space_white c Hc) as [Ha Hw].
  change (c :: rest) with ([c] ++ rest).
  rewrite decode_ascii; [|constructor; [exact Ha|constructor]|discriminate].
  cbn [map app]. unfold split. rewrite (split_loop_space _ _ _ Hw).
  reflexivity.
Qed.

(** X9. White space before the tag is not skipped: on a buffer that starts
    with an ASCII white space byte the first token is empty, [parsePPM]
    throws the format error with nothing after the colon, and neither
    extractor returns an image. *)
Theorem leading_white_space (c : byte) (rest : Uint8Array) :
  ascii_space c ->
  parsePPM (c :: rest) = Throw (str "Unsupported PPM format: ")
  /\ (forall img, parsePPMP6 (c :: rest) <> Ok img)
  /\ (forall img, parsePPMP3 (c :: rest) <> Ok img).
Proof.
  intros Hc.
  assert (H6 : nth_error (headerLinesP6 (c :: rest)) 0 = Some []).
  { unfold headerLinesP6. change (firstn 20 (c :: rest)) with (c :: firstn 19 rest).
    apply leading_white_space_tag, Hc. }
  assert (H3 : nth_error (headerLinesP3 (c :: rest)) 0 = Some [])
    by (apply leading_white_space_tag, Hc).
  split; [|split].
  - rewrite parsePPM_dispatch, H6. reflexivity.
  - intros img H. apply parsePPMP6_Ok in H. destruct H as (_ & H & _).
    rewrite H6 in H. discriminate H.
  - intros img H. apply parsePPMP3_Ok in H. destruct H as (_ & H & _).
    rewrite H3 in H. discriminate H.
Qed.

Lemma leading_white_space_witness :
  parsePPM (x0a :: two_by_one_P6) = Throw (str "Unsupported PPM format: ").
Proof.
  apply (leading_white_space x0a two_by_one_P6). vm_compute. tauto.
Defined.

(** ** What [parsePPMP6] reads *)

(** X10. [parsePPMP6] reads the first 20 bytes and the length of the buffer,
    nothing else: on two buffers of the same length that agree on their
    first 20 bytes it throws the same error, or returns images of the same
    width and height whose pixel data starts at the same offset. *)
Theorem parsePPMP6_reads_prefix_and_length (data data' : Uint8Array) :
  firstn 20 data = firstn 20 data' -> length data = length data' ->
  parsePPMP6 data'
  = match parsePPMP6 data with
    | Ok img =>
        Ok (mkPPMImage (width img) (height img)
              (skipn (length data - length (pixelData img)) data')
              (maxColorValue img) (format img))
    | Throw m => Throw m
    end.
Proof.
  intros Hp Hl.
  assert (Hlines : headerLinesP6 data' = headerLinesP6 data)
    by (unfold headerLinesP6; rewrite Hp; reflexivity).
  assert (Hpl : length (payloadP6 data') = length (payloadP6 data)).
  { unfold payloadP6. rewrite !length_skipn, Hp, Hl. reflexivity. }
  destruct (parsePPMP6_cases data)
    as [(A & E)|[(A & B & E)|[(A & B & C & E)|(img & E)]]]; rewrite E.
  - apply parsePPMP6_depth. rewrite Hlines. exact A.
  - rewrite <- Hlines. apply parsePPMP6_format; rewrite Hlines; assumption.
  - rewrite parsePPMP6_size by (rewrite Hlines; assumption).
    rewrite Hlines, Hpl.
    rewrite (proj2 (number_eqb_Int_false _ _)); [reflexivity|congruence].
  - apply parsePPMP6_Ok in E. destruct E as (A & B & C & ->).
    rewrite parsePPMP6_size by (rewrite Hlines; assumption).
    rewrite Hlines, Hpl, C.
    rewrite (proj2 (number_eqb_Int _ _) eq_refl).
    cbn [width height pixelData maxColorValue format]. do 2 f_equal.
    unfold payloadP6. rewrite length_skipn, Hp.
    set (k := Z.to_nat _).
    destruct (Nat.le_gt_cases k (length data)) as [Hk|Hk].
    + f_equal. lia.
    + rewrite skipn_all2 by lia.
      replace (length data - (length data - k))%nat with (length data') by lia.
      rewrite skipn_all. reflexivity.
Qed.

Lemma parsePPMP6_reads_prefix_and_length_witness :
  parsePPMP6 (bytes "P6 2 2 255" ++ x0a :: repeat x00 9 ++ [x01; x02; x03])
  = Ok (mkPPMImage (Int 2) (Int 2) (repeat x00 9 ++ [x01; x02; x03])
          (Int 255) P6).
Proof.
  assert (E : parsePPMP6 (bytes "P6 2 2 255" ++ x0a :: repeat x00 12)
              = Ok (mkPPMImage (Int 2) (Int 2) (repeat x00 12) (Int 255) P6))
    by (vm_compute; reflexivity).
  rewrite (parsePPMP6_reads_prefix_and_length
             (bytes "P6 2 2 255" ++ x0a :: repeat x00 12));
    [|vm_compute; reflexivity|vm_compute; reflexivity].
  rewrite E. vm_compute. reflexivity.
Defined.

(** ** The decoder, byte by byte *)

Lemma run_feed (a rest : Uint8Array) (st : TextDecoder.state) :
  TextDecoder.run st (a ++ rest)
  = fst (decoder_feed st a) ++ TextDecoder.run (snd (decoder_feed st a)) rest.
Proof.
  revert st. induction a as [|c a IH]; intros st; [reflexivity|].
  cbn [app TextDecoder.run decoder_feed].
  destruct (TextDecoder.step st (byte_val c)) as [out st'].
  rewrite IH. destruct (decoder_feed st' a) as [outs st''].
  cbn [fst snd]. rewrite app_assoc. reflexivity.
Qed.

Lemma run_flush (a : Uint8Array) (st : TextDecoder.state) :
  TextDecoder.run st a
  = fst (decoder_feed st a) ++ decoder_flush (snd (decoder_feed st a)).
Proof.
  rewrite <- (app_nil_r a) at 1. rewrite run_feed. reflexivity.
Qed.

Lemma pending_bound (st : TextDecoder.state) :
  well_formed st -> 0 <= pending st <= 3.
Proof.
  unfold well_formed, pending. intros [H|H].
  - rewrite H. simpl. lia.
  - destruct (Z.eqb_spec (TextDecoder.bytes_needed st) 0); lia.
Qed.

Lemma lead_progress (b : Z) :
  well_formed (snd (TextDecoder.lead b))
  /\ 1 <= 4 * Z.of_nat (length (fst (TextDecoder.lead b)))
          + pending (snd (TextDecoder.lead b)).
Proof.
  unfold TextDecoder.lead.
  repeat match goal with
  | |- context [if TextDecoder.between ?lo ?hi b then _ else _] =>
      destruct (TextDecoder.between lo hi b)
  end; cbn [fst snd length]; unfold well_formed, pending;
    cbn [TextDecoder.bytes_needed TextDecoder.bytes_seen TextDecoder.initial];
    simpl; lia.
Qed.

(** Every byte either completes a code point or adds to the pending
    sequence, which never holds more than three bytes. *)
Lemma step_progress (st : TextDecoder.state) (b : Z) :
  well_formed st ->
  well_formed (snd (TextDecoder.step st b))
  /\ 1 + pending st
     <= 4 * Z.of_nat (length (fst (TextDecoder.step st b)))
        + pending (snd (TextDecoder.step st b)).
Proof.
  intros Hwf. pose proof (pending_bound st Hwf) as Hp.
  pose proof (lead_progress b) as [Hl1 Hl2].
  unfold TextDecoder.step.
  destruct (Z.eqb_spec (TextDecoder.bytes_needed st) 0) as [E|E].
  { split; [exact Hl1|].
    assert (E0 : pending st = 0) by (unfold pending; rewrite E; reflexivity).
    lia. }
  destruct (negb _).
  { destruct (TextDecoder.lead b) as [out st']. cbn [fst snd length] in *.
    split; [exact Hl1|].
    pose proof (pending_bound st' Hl1). lia. }
  destruct Hwf as [Hwf|Hwf]; [contradiction|].
  destruct (Z.eqb_spec (TextDecoder.bytes_seen st + 1) (TextDecoder.bytes_needed st))
    as [E'|E'].
  - cbn [fst snd length]. split; [left; reflexivity|].
    change (pending TextDecoder.initial) with 0. lia.
  - cbn [fst snd length]. unfold well_formed, pending.
    cbn [TextDecoder.bytes_needed TextDecoder.bytes_seen].
    destruct (Z.eqb_spec (TextDecoder.bytes_needed st) 0); [contradiction|].
    split; [right; lia|lia].
Qed.

Lemma feed_progress (bs : Uint8Array) (st : TextDecoder.state) :
  well_formed st ->
  well_formed (snd (decoder_feed st bs))
  /\ Z.of_nat (length bs) + pending st
     <= 4 * Z.of_nat (length (fst (decoder_feed st bs)))
        + pending (snd (decoder_feed st bs)).
Proof.
  revert st. induction bs as [|c bs IH]; intros st Hwf.
  - cbn [decoder_feed fst snd length]. split; [exact Hwf|lia].
  - cbn [decoder_feed].
    pose proof (step_progress st (byte_val c) Hwf) as [H1 H2].
    destruct (TextDecoder.step st (byte_val c)) as [out st'].
    cbn [fst snd] in H1, H2.
    destruct (IH st' H1) as [H3 H4].
    destruct (decoder_feed st' bs) as [outs st''].
    cbn [fst snd] in *. split; [exact H3|].
    rewrite length_app, length_cons. lia.
Qed.

Lemma utf16_length (cps : list Z) :
  (length cps <= length (flat_map TextDecoder.utf16 cps))%nat.
Proof.
  induction cps as [|cp cps IH]; [simpl; lia|].
  cbn [flat_map]. rewrite length_app.
  assert (H : (1 <= length (TextDecoder.utf16 cp))%nat)
    by (unfold TextDecoder.utf16; destruct (cp <? 65536); simpl; lia).
  simpl length. lia.
Qed.

(** The text of a buffer longer than 20 bytes and the text of its first 20
    bytes start with the same four characters at least. *)
Lemma decode_long_prefix (a rest : Uint8Array) :
  length a = 20%nat ->
  exists T X Y,
    (4 <= length T)%nat
    /\ TextDecoder.decode (a ++ rest) = T ++ X
    /\ TextDecoder.decode a = T ++ Y.
Proof.
  intros Hlen. unfold TextDecoder.decode.
  rewrite run_feed, (run_flush a).
  assert (Hwf : well_formed TextDecoder.initial) by (left; reflexivity).
  destruct (feed_progress a TextDecoder.initial Hwf) as [H1 H2].
  pose proof (pending_bound _ H1) as H3.
  change (pending TextDecoder.initial) with 0 in H2.
  destruct (decoder_feed TextDecoder.initial a) as [out st].
  cbn [fst snd] in *.
  assert (Hout : (5 <= length out)%nat) by lia.
  destruct out as [|c out]; [simpl in Hout; lia|].
  cbn [app TextDecoder.stripBOM]. simpl length in Hout.
  destruct (c =? 65279).
  - exists (flat_map TextDecoder.utf16 out). do 2 eexists.
    rewrite !flat_map_app. split; [|split; reflexivity].
    pose proof (utf16_length out). lia.
  - exists (flat_map TextDecoder.utf16 (c :: out)). do 2 eexists.
    rewrite !app_comm_cons, !flat_map_app. split; [|split; reflexivity].
    pose proof (utf16_length (c :: out)). simpl length in *. lia.
Qed.

(** ** The first token *)

(** When [split] gives more than one token, the first is the text before the
    first white space character. *)
Lemma split_loop_first (s tok t : jsstring) :
  nth_error (split_loop s tok false) 0 = Some t ->
  (2 <= length (split_loop s tok false))%nat ->
  exists p c rest,
    s = p ++ c :: rest /\ clean p /\ isWhiteSpace c = true /\ t = tok ++ p.
Proof.
  revert tok. induction s as [|c s IH]; intros tok Ht Hlen.
  - simpl in Hlen. lia.
  - cbn [split_loop] in Ht, Hlen. destruct (isWhiteSpace c) eqn:Ec.
    + exists [], c, s. injection Ht as <-.
      rewrite app_nil_r. repeat split; auto. constructor.
    + destruct (IH _ Ht Hlen) as (p & c' & rest & -> & Hp & Hc' & ->).
      exists (c :: p), c', rest. rewrite <- app_assoc.
      repeat split; auto. constructor; assumption.
Qed.

Lemma split_loop_first_token (p rest tok : jsstring) (c : Z) :
  clean p -> isWhiteSpace c = true ->
  nth_error (split_loop (p ++ c :: rest) tok false) 0 = Some (tok ++ p).
Proof.
  intros Hp Hc. destruct p as [|c0 p].
  - cbn [app]. rewrite (split_loop_space _ _ _ Hc), app_nil_r. reflexivity.
  - rewrite split_loop_clean by (auto; discriminate).
    rewrite (split_loop_space _ _ _ Hc). reflexivity.
Qed.

(** Two texts that share a prefix longer than the first token of one of them
    have the same first token. *)
Lemma first_token_common_prefix (T X Y t : jsstring) :
  nth_error (split (T ++ X)) 0 = Some t ->
  (2 <= length (split (T ++ X)))%nat ->
  (length t < length T)%nat ->
  nth_error (split (T ++ Y)) 0 = Some t.
Proof.
  intros Ht Hlen Hshort. unfold split in *.
  destruct (split_loop_first _ _ _ Ht Hlen) as (p & c & rest & E & Hp & Hc & ->).
  cbn [app] in *.
  assert (R : firstn (S (length p)) (p ++ c :: rest) = p ++ [c]).
  { change (p ++ c :: rest) with (p ++ [c] ++ rest). rewrite app_assoc.
    replace (S (length p)) with (length (p ++ [c]) + 0)%nat
      by (rewrite length_app; simpl; lia).
    rewrite firstn_app_2, firstn_O, app_nil_r. reflexivity. }
  assert (L : firstn (S (length p)) (T ++ X) = firstn (S (length p)) T).
  { rewrite firstn_app.
    replace (S (length p) - length T)%nat with 0%nat by lia.
    rewrite firstn_O, app_nil_r. reflexivity. }
  assert (ET : T = p ++ c :: skipn (S (length p)) T).
  { rewrite <- (firstn_skipn (S (length p)) T) at 1.
    rewrite <- L, E, R, <- app_assoc. reflexivity. }
  rewrite ET, <- app_assoc. cbn [app].
  apply (split_loop_first_token p _ [] c Hp Hc).
Qed.

(** A tag of at most three characters that is followed by other tokens is
    the same in the text of the buffer and in the text of its first 20
    bytes. *)
Lemma tag_of_prefix (data : Uint8Array) (t : jsstring) :
  (length t <= 3)%nat ->
  nth_error (headerLinesP3 data) 0 = Some t ->
  (2 <= length (headerLinesP3 data))%nat ->
  nth_error (headerLinesP6 data) 0 = Some t.
Proof.
  intros Ht H Hlen. unfold headerLinesP6, headerLinesP3 in *.
  destruct (Nat.le_gt_cases (length data) 20) as [Hs|Hl].
  { rewrite firstn_all2 by exact Hs. exact H. }
  rewrite <- (firstn_skipn 20 data) in H, Hlen.
  destruct (decode_long_prefix (firstn 20 data) (skipn 20 data))
    as (T & X & Y & HT & EX & EY); [rewrite length_firstn; lia|].
  rewrite EX in H, Hlen. rewrite EY.
  apply (first_token_common_prefix T X Y t H Hlen). lia.
Qed.

Lemma tag_of_whole (data : Uint8Array) (t : jsstring) :
  (length t <= 3)%nat ->
  nth_error (headerLinesP6 data) 0 = Some t ->
  (2 <= length (headerLinesP6 data))%nat ->
  nth_error (headerLinesP3 data) 0 = Some t.
Proof.
  intros Ht H Hlen. unfold headerLinesP6, headerLinesP3 in *.
  destruct (Nat.le_gt_cases (length data) 20) as [Hs|Hl].
  { rewrite firstn_all2 in H by exact Hs. exact H. }
  rewrite <- (firstn_skipn 20 data).
  destruct (decode_long_prefix (firstn 20 data) (skipn 20 data))
    as (T & X & Y & HT & EX & EY); [rewrite length_firstn; lia|].
  rewrite EY in H, Hlen. rewrite EX.
  apply (first_token_common_prefix T Y X t H Hlen). lia.
Qed.

Lemma nth_error_length {A} (l : list A) (n : nat) (x : A) :
  nth_error l n = Some x -> (n < length l)%nat.
Proof. intros H. apply nth_error_Some. congruence. Qed.

(** An image returned by an extractor is returned by the dispatcher. *)
Lemma parsePPMP6_dispatched (data : Uint8Array) (img : PPMImage) :
  parsePPMP6 data = Ok img -> parsePPM data = Ok img.
Proof.
  intros H. pose proof H as H'. apply parsePPMP6_Ok in H'.
  destruct H' as (_ & Ht & _).
  rewrite parsePPM_dispatch, Ht. exact H.
Qed.

Lemma parsePPMP3_dispatched (data : Uint8Array) (img : PPMImage) :
  parsePPMP3 data = Ok img -> parsePPM data = Ok img.
Proof.
  intros H. pose proof H as H'. apply parsePPMP3_Ok in H'.
  destruct H' as (H255 & Ht & _).
  apply nth_error_length in H255.
  apply tag_of_prefix in Ht; [|simpl; lia|lia].
  rewrite parsePPM_dispatch, Ht. exact H.
Qed.

(** A text without white space is a single token. *)
Lemma split_loop_single (s tok : jsstring) :
  length (split_loop s tok false) = 1%nat ->
  split_loop s tok false = [tok ++ s].
Proof.
  revert tok. induction s as [|c s IH]; intros tok H.
  - rewrite app_nil_r. reflexivity.
  - cbn [split_loop] in *. destruct (isWhiteSpace c).
    + pose proof (split_loop_nonempty s [] true) as Hne.
      destruct (split_loop s [] true); [congruence|simpl in H; lia].
    + rewrite (IH _ H), <- app_assoc. reflexivity.
Qed.

(** The tag read by [parsePPMP3] in the whole text is the tag read by the
    dispatcher in the text of the first 20 bytes. *)
Lemma tag_of_prefix_any (data : Uint8Array) (t : jsstring) :
  (length t <= 3)%nat ->
  nth_error (headerLinesP3 data) 0 = Some t ->
  nth_error (headerLinesP6 data) 0 = Some t.
Proof.
  intros Ht H.
  destruct (Nat.le_gt_cases 2 (length (headerLinesP3 data))) as [H2|H1].
  { apply tag_of_prefix; assumption. }
  unfold headerLinesP6, headerLinesP3 in *.
  destruct (Nat.le_gt_cases (length data) 20) as [Hs|Hl].
  { rewrite firstn_all2 by exact Hs. exact H. }
  exfalso.
  rewrite <- (firstn_skipn 20 data) in H, H1.
  destruct (decode_long_prefix (firstn 20 data) (skipn 20 data))
    as (T & X & Y & HT & EX & _); [rewrite length_firstn; lia|].
  rewrite EX in H, H1. unfold split in *.
  pose proof (split_loop_nonempty (T ++ X) [] false) as Hne.
  assert (H1' : length (split_loop (T ++ X) [] false) = 1%nat).
  { destruct (split_loop (T ++ X) [] false); [congruence|simpl in *; lia]. }
  rewrite (split_loop_single _ _ H1') in H. injection H as <-.
  cbn [app] in Ht. rewrite length_app in Ht. lia.
Qed.

(** X11. The dispatcher and the extractors agree, although the dispatcher
    reads the tag in the first 20 bytes and [parsePPMP3] in the whole text:
    [parsePPM] returns an image exactly when one of the extractors returns
    it; no buffer is accepted by both extractors; and on a buffer whose tag
    is "P3" (or "P6"), [parsePPM] has the outcome of [parsePPMP3] (or
    [parsePPMP6]), errors included. *)
Theorem dispatcher_agrees_with_extractors (data : Uint8Array) (img : PPMImage) :
  (parsePPM data = Ok img <-> parsePPMP6 data = Ok img \/ parsePPMP3 data = Ok img)
  /\ (parsePPMP6 data = Ok img -> forall img', parsePPMP3 data <> Ok img')
  /\ (nth_error (headerLinesP3 data) 0 = Some (str "P3") ->
      parsePPM data = parsePPMP3 data)
  /\ (nth_error (headerLinesP6 data) 0 = Some (str "P6") ->
      parsePPM data = parsePPMP6 data).
Proof.
  split; [split|split; [|split]].
  - apply parsePPM_Ok.
  - intros [H|H]; [apply parsePPMP6_dispatched|apply parsePPMP3_dispatched];
      exact H.
  - intros H6 img' H3.
    apply parsePPMP6_Ok in H6. destruct H6 as (_ & T6 & _).
    apply parsePPMP3_Ok in H3. destruct H3 as (_ & T3 & _).
    apply tag_of_prefix_any in T3; [|simpl; lia].
    rewrite T3 in T6. discriminate T6.
  - intros T3. apply tag_of_prefix_any in T3; [|simpl; lia].
    rewrite parsePPM_dispatch, T3. reflexivity.
  - intros T6. rewrite parsePPM_dispatch, T6. reflexivity.
Qed.

Lemma dispatcher_agrees_with_extractors_witness :
  parsePPM P3_lines
  = Ok (mkPPMImage (Int 2) (Int 1) [x0a; x14; x1e; x28; x32; x3c] (Int 255) P3).
Proof.
  apply (proj1 (dispatcher_agrees_with_extractors P3_lines _)).
  right. vm_compute. reflexivity.
Defined.

(** ** A byte order mark before a P3 file *)

Lemma run_BOM (rest : Uint8Array) :
  TextDecoder.run TextDecoder.initial (BOM ++ rest)
  = 0xFEFF :: TextDecoder.run TextDecoder.initial rest.
Proof. reflexivity. Qed.

Lemma decode_after_BOM (data : Uint8Array) :
  match data with
  | [] => True
  | c :: _ => byte_val c < 128
  end ->
  TextDecoder.decode (BOM ++ data) = TextDecoder.decode data.
Proof.
  intros H. unfold TextDecoder.decode. rewrite run_BOM.
  cbn [TextDecoder.stripBOM]. change (65279 =? 65279) with true. cbv iota.
  destruct data as [|c rest]; [reflexivity|].
  change (c :: rest) with ([c] ++ rest).
  rewrite run_ascii by (constructor; [exact H|constructor]).
  cbn [map app TextDecoder.stripBOM].
  destruct (Z.eqb_spec (byte_val c) 65279); [lia|reflexivity].
Qed.

(** X12. A UTF-8 byte order mark before a P3 file changes nothing: on a
    buffer that starts with an ASCII byte (or is empty), [parsePPMP3] gives
    the same outcome with and without the three bytes EF BB BF in front, and
    [parsePPM] returns the image that [parsePPMP3] returns. *)
Theorem P3_byte_order_mark (data : Uint8Array) :
  match data with
  | [] => True
  | c :: _ => byte_val c < 128
  end ->
  parsePPMP3 (BOM ++ data) = parsePPMP3 data
  /\ (forall img, parsePPMP3 data = Ok img -> parsePPM (BOM ++ data) = Ok img).
Proof.
  intros H.
  assert (E : parsePPMP3 (BOM ++ data) = parsePPMP3 data).
  { unfold parsePPMP3. rewrite (decode_after_BOM data H). reflexivity. }
  split; [exact E|].
  intros img Hok. apply parsePPMP3_dispatched. rewrite E. exact Hok.
Qed.

Lemma P3_byte_order_mark_witness :
  parsePPM (BOM ++ P3_lines)
  = Ok (mkPPMImage (Int 2) (Int 1) [x0a; x14; x1e; x28; x32; x3c] (Int 255) P3).
Proof.
  apply (proj2 (P3_byte_order_mark P3_lines ltac:(vm_compute; reflexivity))).
  vm_compute. reflexivity.
Defined.

(** ** Headers with any spacing *)

Lemma written_spaced (item : pixel_token) : written item -> spaced item.
Proof. intros (A & B & C & _). split; [exact A|split; [exact B|exact C]]. Qed.

Lemma spaced_run (item : pixel_token) :
  spaced item ->
  ascii_bytes (fst item)
  /\ map byte_val (fst item) <> []
  /\ Forall (fun c => isWhiteSpace c = true) (map byte_val (fst item)).
Proof.
  intros (Hne & Hrun & _). split; [|split].
  - eapply Forall_impl; [|exact Hrun]. intros c Hc. apply (ascii_space_white c Hc).
  - destruct (fst item); [congruence|discriminate].
  - apply Forall_map. eapply Forall_impl; [|exact Hrun].
    intros c Hc. apply (ascii_space_white c Hc).
Qed.

Lemma spaced_fields_ascii (fields : list pixel_token) :
  Forall spaced fields -> ascii_bytes (pixel_tokens_bytes fields).
Proof.
  intros H. induction H as [|item fields Hitem _ IH]; [constructor|].
  cbn [pixel_tokens_bytes flat_map].
  apply ascii_bytes_app; [apply ascii_bytes_app|exact IH].
  - apply (spaced_run item Hitem).
  - apply numeral_bytes_ascii. destruct Hitem as (_ & _ & _ & Hds). exact Hds.
Qed.

Lemma pixel_tokens_bytes_app (a c : list pixel_token) :
  pixel_tokens_bytes (a ++ c) = pixel_tokens_bytes a ++ pixel_tokens_bytes c.
Proof. apply flat_map_app. Qed.

(** The tokens of a list of spaced fields, whatever follows the last one. *)
Lemma split_loop_fields (init : list pixel_token) (f : pixel_token)
  (rest tok : jsstring) :
  Forall spaced init -> spaced f ->
  split_loop (map byte_val (pixel_tokens_bytes (init ++ [f])) ++ rest) tok false
  = tok :: map (fun item : pixel_token => numeral (snd item)) init
      ++ split_loop rest (numeral (snd f)) false.
Proof.
  intros Hinit Hf. revert tok.
  assert (Hone : forall (item : pixel_token) (more tok : jsstring),
             spaced item ->
             split_loop (map byte_val (fst item ++ numeral_bytes (snd item)) ++ more)
               tok false
             = tok :: split_loop more (numeral (snd item)) false).
  { intros item more tok Hitem.
    destruct (spaced_run item Hitem) as (_ & Hne & Hw).
    destruct Hitem as (_ & _ & Hdne & Hds).
    rewrite map_app, <- app_assoc, split_loop_run by assumption.
    rewrite (numeral_bytes_text _ Hds).
    rewrite split_loop_after_space
      by (auto using numeral_clean, numeral_nonempty).
    reflexivity. }
  induction Hinit as [|item init Hitem _ IH]; intros tok.
  - cbn [app pixel_tokens_bytes flat_map map]. rewrite app_nil_r.
    apply Hone, Hf.
  - cbn [app pixel_tokens_bytes flat_map map].
    fold (pixel_tokens_bytes (init ++ [f])).
    rewrite map_app, <- app_assoc.
    rewrite (Hone item _ tok Hitem). f_equal. apply IH.
Qed.

(** The lines of a text file made of a tag, spaced fields and trailing white
    space: the tag, the numerals, and an empty token if there is trailing
    white space. *)
Lemma spaced_file_lines (tag : Uint8Array) (fields : list pixel_token)
  (trail : Uint8Array) :
  ascii_bytes tag -> tag <> [] -> clean (map byte_val tag) ->
  Forall spaced fields -> fields <> [] -> Forall ascii_space trail ->
  headerLinesP3 (tag ++ pixel_tokens_bytes fields ++ trail)
  = map byte_val tag
    :: map (fun item : pixel_token => numeral (snd item)) fields
    ++ match trail with
       | [] => []
       | _ :: _ => [[]]
       end.
Proof.
  intros Htag Hne Hclean Hfields Hfne Htrail. unfold headerLinesP3.
  assert (Hta : ascii_bytes trail).
  { eapply Forall_impl; [|exact Htrail]. intros c Hc. apply (ascii_space_white c Hc). }
  rewrite <- (app_nil_r (tag ++ _)).
  rewrite decode_ascii, decoded_tail_nil, app_nil_r.
  2:{ apply ascii_bytes_app; [exact Htag|].
      apply ascii_bytes_app; [apply spaced_fields_ascii, Hfields|exact Hta]. }
  2:{ destruct tag; [congruence|discriminate]. }
  rewrite !map_app. unfold split.
  rewrite split_loop_clean
    by (first [assumption|destruct tag; [congruence|discriminate]]).
  cbn [app].
  destruct (exists_last Hfne) as (init & f & ->).
  apply Forall_app in Hfields. destruct Hfields as [Hinit Hf].
  inversion Hf as [|? ? Hf' _]; subst.
  rewrite (split_loop_fields init f _ _ Hinit Hf'). f_equal.
  rewrite map_app, <- app_assoc. f_equal. cbn [map app].
  destruct trail as [|c trail]; [reflexivity|].
  rewrite <- (app_nil_r (map byte_val (c :: trail))).
  rewrite split_loop_run; [reflexivity|discriminate|].
  apply Forall_map. eapply Forall_impl; [|exact Htrail].
  intros c' Hc'. apply (ascii_space_white c' Hc').
Qed.

Lemma header_fields_spaced (r1 r2 r3 : Uint8Array) (ws hs : list Z) :
  r1 <> [] -> Forall ascii_space r1 ->
  r2 <> [] -> Forall ascii_space r2 ->
  r3 <> [] -> Forall ascii_space r3 ->
  decimal_digits ws -> decimal_digits hs ->
  Forall spaced (header_fields r1 ws r2 hs r3).
Proof.
  intros. unfold header_fields.
  constructor; [split; [assumption|split; assumption]|].
  constructor; [split; [assumption|split; assumption]|].
  constructor; [|constructor].
  split; [assumption|]. split; [assumption|].
  split; [discriminate|]. repeat constructor; lia.
Qed.

(** ** P3 files with any spacing *)

(** The lines of a P3 file whose fields and pixel values are separated by
    any runs of white space, with or without white space at the end. *)
Lemma P3_spaced_lines (r1 r2 r3 : Uint8Array) (ws hs : list Z)
  (items : list pixel_token) (trail : Uint8Array) :
  r1 <> [] -> Forall ascii_space r1 ->
  r2 <> [] -> Forall ascii_space r2 ->
  r3 <> [] -> Forall ascii_space r3 ->
  decimal_digits ws -> decimal_digits hs ->
  Forall spaced items -> Forall ascii_space trail ->
  headerLinesP3 (spaced_header (bytes "P3") r1 ws r2 hs r3
                   ++ pixel_tokens_bytes items ++ trail)
  = str "P3" :: numeral ws :: numeral hs :: str "255"
    :: map (fun item : pixel_token => numeral (snd item)) items
    ++ match trail with
       | [] => []
       | _ :: _ => [[]]
       end.
Proof.
  intros N1 R1 N2 R2 N3 R3 Hws Hhs Hitems Htrail.
  unfold spaced_header. rewrite <- app_assoc.
  rewrite (app_assoc (pixel_tokens_bytes _)), <- pixel_tokens_bytes_app.
  rewrite spaced_file_lines; [reflexivity|repeat constructor|discriminate
                             |repeat constructor| |discriminate|exact Htrail].
  apply Forall_app. split; [|exact Hitems].
  apply header_fields_spaced; assumption.
Qed.

(** The width, the height and the expected size read from such lines. *)
Lemma spaced_expected_size (lines : list jsstring) (ws hs : list Z) (n : Z) :
  nth_error lines 1 = Some (numeral ws) ->
  nth_error lines 2 = Some (numeral hs) ->
  decimal_digits ws -> decimal_digits hs ->
  n = digits_value 10 ws * digits_value 10 hs * 3 -> 0 < n < 2 ^ 53 ->
  parseInt (nth_error lines 1) = Int (digits_value 10 ws)
  /\ parseInt (nth_error lines 2) = Int (digits_value 10 hs)
  /\ expected_size lines = Int n.
Proof.
  intros E1 E2 Hws Hhs En Hn.
  pose proof (digits_value_bound ws (proj2 Hws)) as Bw.
  pose proof (digits_value_bound hs (proj2 Hhs)) as Bh.
  destruct (factor_bound _ _ n (proj1 Bw) (proj1 Bh) (proj1 Hn) En) as [Fw Fh].
  subst n. apply expected_size_exact; try assumption; lia.
Qed.

(** X13. A P3 file may separate its fields and its pixel values by any runs
    of ASCII white space (spaces, tabs, line feeds...): the tag "P3", then
    [W], [H], "255" and [W * H * 3] decimal tokens (at least one, fewer
    than [2^53], each in [0, 255]), each after a non-empty run of white
    space and nothing after the last token, is decoded by [parsePPMP3] and
    by [parsePPM] into the image of width [W], height [H] and format "P3"
    whose [i]-th pixel datum is the value of the [i]-th token. *)
Theorem P3_any_spacing (r1 r2 r3 : Uint8Array) (ws hs : list Z)
  (items : list pixel_token) :
  r1 <> [] -> Forall ascii_space r1 ->
  r2 <> [] -> Forall ascii_space r2 ->
  r3 <> [] -> Forall ascii_space r3 ->
  decimal_digits ws -> decimal_digits hs ->
  Forall written items -> items <> [] ->
  Z.of_nat (length items) = digits_value 10 ws * digits_value 10 hs * 3 ->
  Z.of_nat (length items) < 2 ^ 53 ->
  exists pixels,
    map byte_val pixels = map token_value items
    /\ parsePPMP3 (spaced_header (bytes "P3") r1 ws r2 hs r3
                     ++ pixel_tokens_bytes items)
       = Ok (mkPPMImage (Int (digits_value 10 ws)) (Int (digits_value 10 hs))
               pixels (Int 255) P3)
    /\ parsePPM (spaced_header (bytes "P3") r1 ws r2 hs r3
                   ++ pixel_tokens_bytes items)
       = Ok (mkPPMImage (Int (digits_value 10 ws)) (Int (digits_value 10 hs))
               pixels (Int 255) P3).
Proof.
  intros N1 R1 N2 R2 N3 R3 Hws Hhs Hitems Hne Hcount Hbound.
  set (data := spaced_header (bytes "P3") r1 ws r2 hs r3
                 ++ pixel_tokens_bytes items).
  exists (map (fun item => byte_of_Z (token_value item)) items).
  assert (Hvalues : Forall (fun item => 0 <= token_value item <= 255) items).
  { eapply Forall_impl; [|exact Hitems].
    intros item (_ & _ & [_ Hds] & Hv).
    pose proof (digits_value_bound _ Hds). unfold token_value in *. lia. }
  split.
  { rewrite map_map. apply map_ext_Forall.
    eapply Forall_impl; [|exact Hvalues].
    intros item Hv. cbv beta in Hv. apply byte_val_of_Z. lia. }
  assert (Hlines : headerLinesP3 data
                   = str "P3" :: numeral ws :: numeral hs :: str "255"
                     :: map (fun item : pixel_token => numeral (snd item)) items).
  { unfold data. rewrite <- (app_nil_r (pixel_tokens_bytes items)).
    rewrite P3_spaced_lines; try assumption; [| |constructor].
    - rewrite app_nil_r. reflexivity.
    - eapply Forall_impl; [|exact Hitems]. exact written_spaced. }
  assert (Hparsed : parsedValuesP3 data
                    = map (fun item => Int (token_value item)) items).
  { rewrite parsedValuesP3_tokens, Hlines. cbn [skipn].
    destruct items as [|item items]; [congruence|].
    transitivity (map Number (map (fun it : pixel_token => numeral (snd it))
                                (item :: items))); [reflexivity|].
    rewrite map_map. apply map_ext_Forall.
    eapply Forall_impl; [|exact Hitems].
    intros it (_ & _ & Hds & Hv). rewrite (Number_numeral _ Hds).
    pose proof (digits_value_bound _ (proj2 Hds)).
    apply Binary64Facts.round_exact. unfold token_value in *. lia. }
  assert (Hpos : 0 < Z.of_nat (length items))
    by (destruct items; [congruence|simpl; lia]).
  destruct (spaced_expected_size (headerLinesP3 data) ws hs
              (Z.of_nat (length items))) as (Ew & Eh & Es);
    try (rewrite Hlines; reflexivity); try assumption; try lia.
  assert (Hok : parsePPMP3 data
                = Ok (mkPPMImage (Int (digits_value 10 ws))
                        (Int (digits_value 10 hs))
                        (map (fun item => byte_of_Z (token_value item)) items)
                        (Int 255) P3)).
  { rewrite parsePPMP3_size by (rewrite Hlines; reflexivity).
    rewrite Es, Hparsed, length_map, Ew, Eh.
    rewrite (proj2 (number_eqb_Int _ _) eq_refl).
    unfold new_Uint8Array. rewrite map_map. do 2 f_equal.
    apply map_ext_Forall. eapply Forall_impl; [|exact Hvalues].
    intros item Hv. cbv beta in Hv. cbn [ToUint8].
    rewrite Z.mod_small by lia. reflexivity. }
  split; [exact Hok|]. apply parsePPMP3_dispatched, Hok.
Qed.

Lemma P3_any_spacing_witness :
  exists pixels,
    map byte_val pixels = [10; 20; 30; 40; 50; 60]
    /\ parsePPM P3_lines = Ok (mkPPMImage (Int 2) (Int 1) pixels (Int 255) P3).
Proof.
  destruct (P3_any_spacing [x0a] [x20] [x0a] [2] [1]
              [([x0a], [1; 0]); ([x20], [2; 0]); ([x20], [3; 0]);
               ([x0a], [4; 0]); ([x20], [5; 0]); ([x20], [6; 0])])
    as (pixels & Hv & _ & Hok).
  - discriminate.
  - concrete_run.
  - discriminate.
  - concrete_run.
  - discriminate.
  - concrete_run.
  - concrete_digits.
  - concrete_digits.
  - concrete_items.
  - discriminate.
  - vm_compute. reflexivity.
  - vm_compute. reflexivity.
  - exists pixels. split; [exact Hv|exact Hok].
Defined.

(** X14. White space after the last pixel value of a P3 file is never
    accepted: it gives one more (empty) token, which counts as a value, and
    the file, otherwise well formed, is refused for its size by [parsePPMP3]
    and by [parsePPM].  (A single line feed at the end of the file is
    enough.) *)
Theorem P3_trailing_white_space (r1 r2 r3 : Uint8Array) (ws hs : list Z)
  (items : list pixel_token) (trail : Uint8Array) :
  r1 <> [] -> Forall ascii_space r1 ->
  r2 <> [] -> Forall ascii_space r2 ->
  r3 <> [] -> Forall ascii_space r3 ->
  decimal_digits ws -> decimal_digits hs ->
  Forall spaced items ->
  Z.of_nat (length items) = digits_value 10 ws * digits_value 10 hs * 3 ->
  Z.of_nat (length items) < 2 ^ 53 ->
  trail <> [] -> Forall ascii_space trail ->
  parsePPMP3 (spaced_header (bytes "P3") r1 ws r2 hs r3
                ++ pixel_tokens_bytes items ++ trail)
  = Throw PixelDataSizeMismatch
  /\ parsePPM (spaced_header (bytes "P3") r1 ws r2 hs r3
                 ++ pixel_tokens_bytes items ++ trail)
     = Throw PixelDataSizeMismatch.
Proof.
  intros N1 R1 N2 R2 N3 R3 Hws Hhs Hitems Hcount Hbound Ntrail Htrail.
  set (data := spaced_header (bytes "P3") r1 ws r2 hs r3
                 ++ pixel_tokens_bytes items ++ trail).
  assert (Hlines : headerLinesP3 data
                   = str "P3" :: numeral ws :: numeral hs :: str "255"
                     :: map (fun item : pixel_token => numeral (snd item)) items
                     ++ [[]]).
  { unfold data. rewrite P3_spaced_lines by assumption.
    destruct trail; [congruence|reflexivity]. }
  assert (Hlen : Z.of_nat (length (parsedValuesP3 data))
                 = Z.of_nat (length items) + 1).
  { rewrite parsedValuesP3_tokens, Hlines. cbn [skipn].
    assert (Htoks : length (map (fun item : pixel_token => numeral (snd item)) items)
                    = length items) by apply length_map.
    set (toks := map (fun item : pixel_token => numeral (snd item)) items) in *.
    destruct (toks ++ [[]]) as [|t l] eqn:E.
    - apply app_eq_nil in E. destruct E as [_ E]. discriminate E.
    - rewrite <- E, length_map, length_app, Htoks. simpl length. lia. }
  assert (Hsize : expected_size (headerLinesP3 data)
                  <> Int (Z.of_nat (length (parsedValuesP3 data)))).
  { rewrite Hlen.
    destruct (Z.eq_dec (Z.of_nat (length items)) 0) as [E0|E0].
    - rewrite E0. apply expected_size_not_one.
    - destruct (spaced_expected_size (headerLinesP3 data) ws hs
                  (Z.of_nat (length items))) as (_ & _ & Es);
        try (rewrite Hlines; reflexivity); try assumption; try lia.
      rewrite Es. intros F. injection F as F. lia. }
  assert (Hthrow : parsePPMP3 data = Throw PixelDataSizeMismatch).
  { rewrite parsePPMP3_size by (rewrite Hlines; reflexivity).
    rewrite (proj2 (number_eqb_Int_false _ _)); [reflexivity|exact Hsize]. }
  split; [exact Hthrow|].
  assert (Htag : nth_error (headerLinesP6 data) 0 = Some (str "P3")).
  { apply tag_of_prefix; [simpl; lia|rewrite Hlines; reflexivity|].
    rewrite Hlines. simpl length. lia. }
  rewrite parsePPM_dispatch, Htag. exact Hthrow.
Qed.

Lemma P3_trailing_white_space_witness :
  parsePPM (P3_lines ++ [x0a]) = Throw PixelDataSizeMismatch.
Proof.
  refine (proj2 (P3_trailing_white_space [x0a] [x20] [x0a] [2] [1]
              [([x0a], [1; 0]); ([x20], [2; 0]); ([x20], [3; 0]);
               ([x0a], [4; 0]); ([x20], [5; 0]); ([x20], [6; 0])] [x0a]
              _ _ _ _ _ _ _ _ _ _ _ _ _)).
  - discriminate.
  - concrete_run.
  - discriminate.
  - concrete_run.
  - discriminate.
  - concrete_run.
  - concrete_digits.
  - concrete_digits.
  - repeat (constructor; [apply written_spaced; concrete_written|]); constructor.
  - vm_compute. reflexivity.
  - vm_compute. reflexivity.
  - discriminate.
  - concrete_run.
Defined.

(** ** The tokens of a text cut short *)

(** Splitting a text in two: the tokens completed in the first part, then
    the tokens of the second part, the first of which continues the token
    the first part ends with. *)
Lemma split_loop_app (s q tok : jsstring) (matching : bool) :
  split_loop (s ++ q) tok matching
  = removelast (split_loop s tok matching)
    ++ split_loop q (last (split_loop s tok matching) []) (ends_white s matching).
Proof.
  revert tok matching. induction s as [|c s IH]; intros tok matching;
    [reflexivity|].
  cbn [app split_loop ends_white]. destruct (isWhiteSpace c).
  - pose proof (split_loop_nonempty s [] true) as Hne.
    assert (Hcons : forall t : jsstring,
               removelast (t :: split_loop s [] true)
               = t :: removelast (split_loop s [] true)
               /\ last (t :: split_loop s [] true) []
                  = last (split_loop s [] true) []).
    { intros t. destruct (split_loop s [] true); [congruence|]. split; reflexivity. }
    destruct matching.
    + apply IH.
    + destruct (Hcons tok) as [-> ->]. cbn [app]. f_equal. apply IH.
  - apply IH.
Qed.

Lemma split_loop_last_empty (s tok : jsstring) (matching : bool) :
  ends_white s matching = true -> (matching = true -> tok = []) ->
  last (split_loop s tok matching) [] = [].
Proof.
  revert tok matching. induction s as [|c s IH]; intros tok matching He Hm.
  - cbn in *. auto.
  - cbn [split_loop ends_white] in *. destruct (isWhiteSpace c) eqn:Ec.
    + pose proof (split_loop_nonempty s [] true) as Hne.
      specialize (IH [] true He (fun _ => eq_refl)).
      destruct matching; [exact IH|].
      destruct (split_loop s [] true); [congruence|exact IH].
    + apply IH; [exact He|discriminate].
Qed.

(** The first token starts with the token being read. *)
Lemma split_loop_head (q tok : jsstring) :
  exists p l, split_loop q tok false = (tok ++ p) :: l.
Proof.
  revert tok. induction q as [|c q IH]; intros tok.
  - exists [], []. rewrite app_nil_r. reflexivity.
  - cbn [split_loop]. destruct (isWhiteSpace c).
    + exists [], (split_loop q [] true). rewrite app_nil_r. reflexivity.
    + destruct (IH (tok ++ [c])) as (p & l & E).
      exists (c :: p), l. rewrite E, <- app_assoc. reflexivity.
Qed.

(** When a text is exactly four tokens, the last being "255", no proper
    prefix of it has "255" as its fourth token. *)
Lemma cut_before_255 (text : jsstring) (t0 t1 t2 : jsstring) (n : nat) :
  split text = [t0; t1; t2; str "255"] ->
  (n < length text)%nat ->
  nth_error (split (firstn n text)) 3 <> Some (str "255").
Proof.
  intros Hsplit Hn H.
  set (s := firstn n text) in *. set (q := skipn n text).
  assert (Hq : q <> []).
  { intros E. apply (f_equal (@length Z)) in E. unfold q in E.
    rewrite length_skipn in E. simpl in E. lia. }
  unfold split in *.
  rewrite <- (firstn_skipn n text) in Hsplit. fold s q in Hsplit.
  rewrite split_loop_app in Hsplit.
  pose proof (split_loop_nonempty s [] false) as Hne.
  pose proof (split_loop_last_empty s [] false) as Hempty.
  destruct (exists_last Hne) as (R & l & ES).
  rewrite ES in Hsplit, H, Hempty. rewrite removelast_last, last_last in Hsplit.
  rewrite last_last in Hempty.
  pose proof (split_loop_nonempty q l (ends_white s false)) as Hqne.
  assert (Hlen : (length R + length (split_loop q l (ends_white s false)) = 4)%nat)
    by (rewrite <- length_app, Hsplit; reflexivity).
  assert (H3 : (3 < length (R ++ [l]))%nat)
    by (apply nth_error_length in H; exact H).
  rewrite length_app in H3. simpl length in H3.
  assert (Hq1 : (1 <= length (split_loop q l (ends_white s false)))%nat)
    by (destruct (split_loop q l (ends_white s false)); [congruence|simpl; lia]).
  assert (HR : length R = 3%nat) by lia.
  assert (Hl : l = str "255").
  { rewrite nth_error_app2 in H by lia.
    rewrite HR in H. simpl in H. congruence. }
  destruct (ends_white s false) eqn:Ee.
  - rewrite (Hempty eq_refl) in Hl; [discriminate Hl|discriminate].
  - destruct (split_loop_head q l) as (p & L & E).
    rewrite E in Hsplit, Hlen. simpl length in Hlen.
    assert (L = []) by (destruct L; [reflexivity|simpl in Hlen; lia]). subst L.
    assert (E4 : nth_error (R ++ [l ++ p]) 3 = Some (str "255"))
      by (rewrite Hsplit; reflexivity).
    rewrite nth_error_app2, HR in E4 by lia. simpl in E4.
    injection E4 as E4. rewrite Hl in E4.
    assert (p = []).
    { apply (f_equal (@length Z)) in E4. rewrite length_app in E4.
      destruct p; [reflexivity|simpl in E4; lia]. }
    subst p. clear E4.
    destruct q as [|c q]; [congruence|].
    cbn [split_loop] in E. destruct (isWhiteSpace c).
    + pose proof (split_loop_nonempty q [] true) as Hqq.
      injection E as E1 E2. exact (Hqq E2).
    + destruct (split_loop_head q (l ++ [c])) as (p' & L' & E').
      rewrite E' in E. injection E as E1 E2.
      apply (f_equal (@length Z)) in E1. rewrite !length_app in E1.
      simpl in E1. lia.
Qed.

(** ** P6 headers with any spacing *)

Lemma spaced_header_length (tag r1 r2 r3 : Uint8Array) (ws hs : list Z) :
  length (spaced_header tag r1 ws r2 hs r3)
  = (length tag + length r1 + length ws + length r2 + length hs + length r3
     + 3)%nat.
Proof.
  unfold spaced_header, header_fields, pixel_tokens_bytes, numeral_bytes.
  cbn [flat_map fst snd].
  repeat (rewrite length_app || rewrite length_map). simpl length. lia.
Qed.

Lemma spaced_header_text (tag r1 r2 r3 : Uint8Array) (ws hs : list Z) :
  Forall (fun d => 0 <= d <= 9) ws -> Forall (fun d => 0 <= d <= 9) hs ->
  map byte_val (spaced_header tag r1 ws r2 hs r3)
  = map byte_val tag ++ map byte_val r1 ++ numeral ws ++ map byte_val r2
    ++ numeral hs ++ map byte_val r3 ++ str "255".
Proof.
  intros Hw Hh. unfold spaced_header, header_fields, pixel_tokens_bytes.
  cbn [flat_map fst snd]. rewrite app_nil_r.
  repeat (rewrite map_app || rewrite <- app_assoc).
  rewrite !numeral_bytes_text by assumption. reflexivity.
Qed.

Lemma white_not_in_255 (c : Z) : isWhiteSpace c = true -> ~ In c (str "255").
Proof.
  intros H [E|[E|[E|[]]]]; rewrite <- E in H; vm_compute in H; discriminate H.
Qed.

Lemma occurs_at_nil (pattern : jsstring) (j : nat) :
  pattern <> [] -> ~ occurs_at pattern [] j.
Proof.
  intros Hne H. unfold occurs_at in H. rewrite skipn_nil in H.
  destruct pattern; [congruence|discriminate H].
Qed.

(** An occurrence cannot straddle a run of characters foreign to the
    pattern. *)
Lemma occurs_at_split_run (pattern a run rest : jsstring) (j : nat) :
  Forall (fun c => ~ In c pattern) run -> run <> [] -> pattern <> [] ->
  occurs_at pattern (a ++ run ++ rest) j ->
  occurs_at pattern a j
  \/ ((length a + length run <= j)%nat
      /\ occurs_at pattern rest (j - length a - length run)).
Proof.
  intros Hrun Hne Hp. revert a j.
  induction Hrun as [|c run Hc Hrun IH]; [congruence|]. intros a j H.
  cbn [app] in H. apply occurs_at_split in H; [|exact Hc|exact Hp].
  destruct H as [H|[Hlt H]]; [left; exact H|]. right.
  destruct run as [|c' run].
  - cbn [app length] in *. split; [lia|].
    exact H.
  - destruct (IH ltac:(discriminate) [] _ H) as [H'|[Hle H']].
    + exfalso. exact (occurs_at_nil _ _ Hp H').
    + cbn [length] in *. split; [lia|].
      replace (j - length a - S (S (length run)))%nat
        with (j - length a - 1 - 0 - S (length run))%nat by lia.
      exact H'.
Qed.

(** An occurrence inside a part of a text is an occurrence in the text. *)
Lemma occurs_at_inside (pattern a t rest : jsstring) (j : nat) :
  occurs_at pattern t j -> occurs_at pattern (a ++ t ++ rest) (length a + j).
Proof.
  unfold occurs_at. intros H.
  pose proof (startsWith_length _ _ H) as Hlen. rewrite length_skipn in Hlen.
  rewrite skipn_app, skipn_all2 by lia. cbn [app].
  replace (length a + j - length a)%nat with j by lia.
  destruct pattern as [|p pattern]; [reflexivity|].
  rewrite skipn_app.
  rewrite startsWith_app_l; [exact H|]. rewrite length_skipn. lia.
Qed.

(** When neither the tag, the width nor the height contains "255", the first
    "255" of a header is its last field, whatever the spacing. *)
Lemma spaced_first_255 (tag R1 W R2 H R3 : jsstring) :
  R1 <> [] -> Forall (fun c => isWhiteSpace c = true) R1 ->
  R2 <> [] -> Forall (fun c => isWhiteSpace c = true) R2 ->
  R3 <> [] -> Forall (fun c => isWhiteSpace c = true) R3 ->
  indexOf tag (str "255") = -1 ->
  indexOf W (str "255") = -1 ->
  indexOf H (str "255") = -1 ->
  indexOf (tag ++ R1 ++ W ++ R2 ++ H ++ R3 ++ str "255") (str "255")
  = Z.of_nat (length tag + length R1 + length W + length R2 + length H
              + length R3).
Proof.
  intros N1 H1 N2 H2 N3 H3 Ht Hw Hh.
  assert (Hne : str "255" <> []) by discriminate.
  assert (Hforeign : forall R, Forall (fun c => isWhiteSpace c = true) R ->
                               Forall (fun c => ~ In c (str "255")) R).
  { intros R HR. eapply Forall_impl; [|exact HR]. exact white_not_in_255. }
  set (n := (length tag + length R1 + length W + length R2 + length H
             + length R3)%nat).
  assert (Hat : occurs_at (str "255")
                  (tag ++ R1 ++ W ++ R2 ++ H ++ R3 ++ str "255") n).
  { replace (tag ++ R1 ++ W ++ R2 ++ H ++ R3 ++ str "255")
      with ((tag ++ R1 ++ W ++ R2 ++ H ++ R3) ++ str "255" ++ [])
      by (rewrite app_nil_r; repeat rewrite <- app_assoc; reflexivity).
    replace n with (length (tag ++ R1 ++ W ++ R2 ++ H ++ R3))
      by (unfold n; repeat rewrite length_app; lia).
    apply occurs_at_app. }
  destruct (indexOf_first_occurrence _ _ _ Hat) as (i & Hi & Hocc & Hbefore).
  rewrite Hi. f_equal.
  destruct (Nat.lt_trichotomy i n) as [Hlt|[Heq|Hgt]]; [|exact Heq|].
  2:{ exfalso. exact (Hbefore n Hgt Hat). }
  exfalso.
  apply occurs_at_split_run in Hocc; [|apply Hforeign, H1|exact N1|exact Hne].
  destruct Hocc as [Hocc|[L1 Hocc]]; [exact (indexOf_none _ _ _ Ht Hne Hocc)|].
  apply occurs_at_split_run in Hocc; [|apply Hforeign, H2|exact N2|exact Hne].
  destruct Hocc as [Hocc|[L2 Hocc]]; [exact (indexOf_none _ _ _ Hw Hne Hocc)|].
  apply occurs_at_split_run in Hocc; [|apply Hforeign, H3|exact N3|exact Hne].
  destruct Hocc as [Hocc|[L3 Hocc]]; [exact (indexOf_none _ _ _ Hh Hne Hocc)|].
  unfold n in Hlt. lia.
Qed.

Lemma white_run_text (run : Uint8Array) :
  run <> [] -> Forall ascii_space run ->
  map byte_val run <> []
  /\ Forall (fun c => isWhiteSpace c = true) (map byte_val run).
Proof.
  intros Hne H. split.
  - destruct run; [congruence|discriminate].
  - apply Forall_map. eapply Forall_impl; [|exact H].
    intros c Hc. apply (ascii_space_white c Hc).
Qed.

Lemma spaced_header_ascii (r1 r2 r3 : Uint8Array) (ws hs : list Z) :
  Forall spaced (header_fields r1 ws r2 hs r3) ->
  ascii_bytes (spaced_header (bytes "P6") r1 ws r2 hs r3).
Proof.
  intros H. unfold spaced_header.
  apply ascii_bytes_app; [repeat constructor|apply spaced_fields_ascii, H].
Qed.

(** The text of the first 20 bytes of a P6 file whose header fits in them,
    and its lines. *)
Lemma P6_spaced_prefix (r1 r2 r3 : Uint8Array) (ws hs : list Z) (sep : byte)
  (payload : Uint8Array) :
  Forall spaced (header_fields r1 ws r2 hs r3) ->
  (length (spaced_header (bytes "P6") r1 ws r2 hs r3) <= 20)%nat ->
  ascii_space sep ->
  exists T L,
    TextDecoder.decode
      (firstn 20 (spaced_header (bytes "P6") r1 ws r2 hs r3 ++ sep :: payload))
    = map byte_val (spaced_header (bytes "P6") r1 ws r2 hs r3) ++ T
    /\ headerLinesP6 (spaced_header (bytes "P6") r1 ws r2 hs r3 ++ sep :: payload)
       = str "P6" :: numeral ws :: numeral hs :: str "255" :: L.
Proof.
  intros Hfields Hlen Hsep.
  set (header := spaced_header (bytes "P6") r1 ws r2 hs r3) in *.
  assert (Hascii : ascii_bytes header) by (apply spaced_header_ascii, Hfields).
  assert (Hdec : exists T,
             TextDecoder.decode (firstn 20 (header ++ sep :: payload))
             = map byte_val header ++ T
             /\ exists L, split_loop T (str "255") false = str "255" :: L).
  { rewrite firstn_app, (firstn_all2 header) by lia.
    exists (decoded_tail (firstn (20 - length header) (sep :: payload))).
    split.
    - rewrite decode_ascii; [reflexivity|exact Hascii|].
      unfold header, spaced_header. discriminate.
    - destruct (20 - length header)%nat as [|k].
      + exists []. reflexivity.
      + cbn [firstn].
        change (sep :: firstn k payload) with ([sep] ++ firstn k payload).
        destruct (ascii_space_white sep Hsep) as [Hs1 Hs2].
        rewrite decoded_tail_ascii by (constructor; [exact Hs1|constructor]).
        cbn [map app]. rewrite (split_loop_space _ _ _ Hs2).
        eexists. reflexivity. }
  destruct Hdec as (T & Hdec & L & HL).
  exists T, L. split; [exact Hdec|].
  unfold headerLinesP6. rewrite Hdec. unfold header, spaced_header.
  rewrite map_app, <- app_assoc. unfold split.
  rewrite split_loop_clean by (repeat constructor || discriminate).
  cbn [app].
  inversion Hfields as [|? ? F1 Hrest]; subst.
  inversion Hrest as [|? ? F2 Hrest']; subst.
  inversion Hrest' as [|? ? F3 _]; subst.
  change (header_fields r1 ws r2 hs r3)
    with ([(r1, ws); (r2, hs)] ++ [(r3, [2; 5; 5])]).
  rewrite (split_loop_fields [(r1, ws); (r2, hs)] (r3, [2; 5; 5]) _ _
             (Forall_cons _ F1 (Forall_cons _ F2 (Forall_nil _))) F3).
  cbn [map app snd]. change (numeral [2; 5; 5]) with (str "255").
  rewrite HL. reflexivity.
Qed.

(** [width * height * 3] for a header that fits in 20 bytes. *)
Lemma short_header_expected_size (lines : list jsstring) (ws hs : list Z) :
  nth_error lines 1 = Some (numeral ws) ->
  nth_error lines 2 = Some (numeral hs) ->
  decimal_digits ws -> decimal_digits hs ->
  (length ws + length hs <= 12)%nat ->
  parseInt (nth_error lines 1) = Int (digits_value 10 ws)
  /\ parseInt (nth_error lines 2) = Int (digits_value 10 hs)
  /\ expected_size lines = Int (digits_value 10 ws * digits_value 10 hs * 3).
Proof.
  intros E1 E2 Hws Hhs Hlen.
  pose proof (digits_value_bound ws (proj2 Hws)) as Bw.
  pose proof (digits_value_bound hs (proj2 Hhs)) as Bh.
  assert (Hpow : 10 ^ Z.of_nat (length ws) * 10 ^ Z.of_nat (length hs)
                 <= 10 ^ 12).
  { rewrite <- Z.pow_add_r by lia. apply Z.pow_le_mono_r; lia. }
  assert (Hw12 : 10 ^ Z.of_nat (length ws) <= 10 ^ 12)
    by (apply Z.pow_le_mono_r; lia).
  assert (Hh12 : 10 ^ Z.of_nat (length hs) <= 10 ^ 12)
    by (apply Z.pow_le_mono_r; lia).
  assert (H12 : 3 * 10 ^ 12 < 2 ^ 53) by reflexivity.
  apply expected_size_exact; try assumption; nia.
Qed.

(** The digits of a header that fits in 20 bytes. *)
Lemma short_header_digits (r1 r2 r3 : Uint8Array) (ws hs : list Z) :
  r1 <> [] -> r2 <> [] -> r3 <> [] ->
  (length (spaced_header (bytes "P6") r1 ws r2 hs r3) <= 20)%nat ->
  (length ws + length hs <= 12)%nat.
Proof.
  intros N1 N2 N3. rewrite spaced_header_length.
  change (length (bytes "P6")) with 2%nat.
  destruct r1; [congruence|]. destruct r2; [congruence|].
  destruct r3; [congruence|]. simpl length. lia.
Qed.

(** X15. A P6 header may separate its fields by any runs of ASCII white
    space, as in "P6", line feed, "W H", line feed, "255".  If the header,
    from the tag to "255", is at most 20 bytes long and neither the text of
    [W] nor that of [H] contains "255", the pixel data is everything that
    follows the one white space byte after "255": [parsePPMP6] and [parsePPM]
    return the image of width [W], height [H] and format "P6" with these
    bytes when there are exactly [W * H * 3] of them, and throw the size
    error otherwise (so a line end of two bytes after "255" is refused). *)
Theorem P6_any_spacing (r1 r2 r3 : Uint8Array) (ws hs : list Z) (sep : byte)
  (rest : Uint8Array) :
  r1 <> [] -> Forall ascii_space r1 ->
  r2 <> [] -> Forall ascii_space r2 ->
  r3 <> [] -> Forall ascii_space r3 ->
  decimal_digits ws -> decimal_digits hs ->
  (length (spaced_header (bytes "P6") r1 ws r2 hs r3) <= 20)%nat ->
  indexOf (numeral ws) (str "255") = -1 ->
  indexOf (numeral hs) (str "255") = -1 ->
  ascii_space sep ->
  parsePPMP6 (spaced_header (bytes "P6") r1 ws r2 hs r3 ++ sep :: rest)
  = (if Z.of_nat (length rest) =? digits_value 10 ws * digits_value 10 hs * 3
     then Ok (mkPPMImage (Int (digits_value 10 ws)) (Int (digits_value 10 hs))
                rest (Int 255) P6)
     else Throw PixelDataSizeMismatch)
  /\ parsePPM (spaced_header (bytes "P6") r1 ws r2 hs r3 ++ sep :: rest)
     = (if Z.of_nat (length rest) =? digits_value 10 ws * digits_value 10 hs * 3
        then Ok (mkPPMImage (Int (digits_value 10 ws)) (Int (digits_value 10 hs))
                   rest (Int 255) P6)
        else Throw PixelDataSizeMismatch).
Proof.
  intros N1 R1 N2 R2 N3 R3 Hws Hhs Hlen Hnw Hnh Hsep.
  pose proof (header_fields_spaced r1 r2 r3 ws hs N1 R1 N2 R2 N3 R3 Hws Hhs)
    as Hfields.
  destruct (P6_spaced_prefix r1 r2 r3 ws hs sep rest Hfields Hlen Hsep)
    as (T & L & Hdec & Hlines).
  pose proof (short_header_digits r1 r2 r3 ws hs N1 N2 N3 Hlen) as Hdigits.
  pose proof (spaced_header_length (bytes "P6") r1 r2 r3 ws hs) as Hhl.
  pose proof (spaced_header_text (bytes "P6") r1 r2 r3 ws hs
                (proj2 Hws) (proj2 Hhs)) as Htext.
  set (header := spaced_header (bytes "P6") r1 ws r2 hs r3) in *.
  set (data := header ++ sep :: rest) in *.
  destruct (white_run_text r1 N1 R1) as [M1 W1].
  destruct (white_run_text r2 N2 R2) as [M2 W2].
  destruct (white_run_text r3 N3 R3) as [M3 W3].
  assert (Hidx : indexOf (map byte_val header) (str "255")
                 = Z.of_nat (length header - 3)).
  { rewrite Htext.
    rewrite (spaced_first_255 (map byte_val (bytes "P6")) _ _ _ _ _
               M1 W1 M2 W2 M3 W3 eq_refl Hnw Hnh).
    f_equal. rewrite Hhl. unfold numeral. rewrite !length_map. lia. }
  assert (Hpayload : payloadP6 data = rest).
  { unfold payloadP6. rewrite Hdec.
    rewrite (indexOf_app _ T _ _ Hidx).
    replace (Z.to_nat (Z.of_nat (length header - 3) + 4))
      with (length header + 1)%nat by lia.
    unfold data. rewrite skipn_app, skipn_all2, Nat.add_comm by lia.
    replace (1 + length header - length header)%nat with 1%nat by lia.
    reflexivity. }
  destruct (short_header_expected_size (headerLinesP6 data) ws hs)
    as (Ew & Eh & Es);
    try (rewrite Hlines; reflexivity); try assumption.
  assert (Hout : parsePPMP6 data
                 = if Z.of_nat (length rest)
                      =? digits_value 10 ws * digits_value 10 hs * 3
                   then Ok (mkPPMImage (Int (digits_value 10 ws))
                              (Int (digits_value 10 hs)) rest (Int 255) P6)
                   else Throw PixelDataSizeMismatch).
  { rewrite parsePPMP6_size by (rewrite Hlines; reflexivity).
    rewrite Es, Hpayload, Ew, Eh. reflexivity. }
  split; [exact Hout|].
  rewrite parsePPM_dispatch, Hlines. exact Hout.
Qed.

Lemma P6_any_spacing_witness :
  parsePPM P6_lines
  = Ok (mkPPMImage (Int 2) (Int 1) [x0a; x14; x1e; x28; x32; x3c] (Int 255) P6).
Proof.
  refine (proj2 (P6_any_spacing [x0a] [x20] [x0a] [2] [1] x0a
                   [x0a; x14; x1e; x28; x32; x3c] _ _ _ _ _ _ _ _ _ _ _ _)).
  - discriminate.
  - concrete_run.
  - discriminate.
  - concrete_run.
  - discriminate.
  - concrete_run.
  - concrete_digits.
  - concrete_digits.
  - vm_compute. lia.
  - vm_compute. reflexivity.
  - vm_compute. reflexivity.
  - vm_compute. tauto.
Defined.

Lemma ascii_bytes_firstn (n : nat) (bs : Uint8Array) :
  ascii_bytes bs -> ascii_bytes (firstn n bs).
Proof.
  intros H. revert n. induction H as [|c bs Hc _ IH]; intros [|n];
    cbn [firstn]; try constructor; [exact Hc|apply IH].
Qed.

(** X16. The 20-byte limit: when the header of a P6 file, from the tag to
    "255", is longer than 20 bytes, [parsePPMP6] and [parsePPM] refuse the
    file for its colour depth, whatever follows the header. *)
Theorem P6_long_header (r1 r2 r3 : Uint8Array) (ws hs : list Z)
  (rest : Uint8Array) :
  r1 <> [] -> Forall ascii_space r1 ->
  r2 <> [] -> Forall ascii_space r2 ->
  r3 <> [] -> Forall ascii_space r3 ->
  decimal_digits ws -> decimal_digits hs ->
  (20 < length (spaced_header (bytes "P6") r1 ws r2 hs r3))%nat ->
  parsePPMP6 (spaced_header (bytes "P6") r1 ws r2 hs r3 ++ rest)
  = Throw UnsupportedColorDepth
  /\ parsePPM (spaced_header (bytes "P6") r1 ws r2 hs r3 ++ rest)
     = Throw UnsupportedColorDepth.
Proof.
  intros N1 R1 N2 R2 N3 R3 Hws Hhs Hlen.
  pose proof (header_fields_spaced r1 r2 r3 ws hs N1 R1 N2 R2 N3 R3 Hws Hhs)
    as Hfields.
  pose proof (spaced_header_ascii r1 r2 r3 ws hs Hfields) as Hascii.
  set (header := spaced_header (bytes "P6") r1 ws r2 hs r3) in *.
  (* the lines of the whole header *)
  assert (Hwhole : split (map byte_val header)
                   = [str "P6"; numeral ws; numeral hs; str "255"]).
  { pose proof (spaced_file_lines (bytes "P6") (header_fields r1 ws r2 hs r3) [])
      as H.
    unfold headerLinesP3 in H. rewrite !app_nil_r in H.
    fold (spaced_header (bytes "P6") r1 ws r2 hs r3) in H. fold header in H.
    rewrite <- (app_nil_r header) in H.
    rewrite decode_ascii, decoded_tail_nil, app_nil_r in H;
      [|exact Hascii|unfold header, spaced_header; discriminate].
    apply H; [repeat constructor|discriminate|repeat constructor
             |exact Hfields|discriminate|constructor]. }
  (* the text of the first 20 bytes *)
  assert (Hdec : TextDecoder.decode (firstn 20 (header ++ rest))
                 = firstn 20 (map byte_val header)).
  { rewrite firstn_app.
    replace (20 - length header)%nat with 0%nat by lia.
    rewrite firstn_O, app_nil_r.
    rewrite <- (app_nil_r (firstn 20 header)).
    rewrite decode_ascii, decoded_tail_nil, app_nil_r.
    - symmetry. apply firstn_map.
    - apply ascii_bytes_firstn, Hascii.
    - unfold header, spaced_header. discriminate. }
  assert (H255 : nth_error (headerLinesP6 (header ++ rest)) 3
                 <> Some (str "255")).
  { unfold headerLinesP6. rewrite Hdec.
    apply (cut_before_255 _ _ _ _ 20 Hwhole). rewrite length_map. exact Hlen. }
  split; [apply parsePPMP6_depth, H255|].
  assert (Htag : nth_error (headerLinesP6 (header ++ rest)) 0
                 = Some (str "P6")).
  { unfold headerLinesP6. rewrite Hdec. unfold header, spaced_header.
    destruct r1 as [|c r1]; [congruence|].
    inversion R1 as [|? ? Hc _]; subst.
    destruct (ascii_space_white c Hc) as [_ Hw].
    cbn [header_fields pixel_tokens_bytes flat_map fst app map firstn].
    apply (split_loop_first_token (str "P6") _ [] _);
      [repeat constructor|exact Hw]. }
  rewrite parsePPM_dispatch, Htag. apply parsePPMP6_depth, H255.
Qed.

Lemma P6_long_header_witness :
  parsePPM P6_long = Throw UnsupportedColorDepth.
Proof.
  refine (proj2 (P6_long_header [x20] [x20] [x20] [0]
                   [1; 0; 0; 0; 0; 0; 0; 0; 0; 0; 0; 0; 0] [x0a]
                   _ _ _ _ _ _ _ _ _)).
  - discriminate.
  - concrete_run.
  - discriminate.
  - concrete_run.
  - discriminate.
  - concrete_run.
  - concrete_digits.
  - concrete_digits.
  - vm_compute. lia.
Defined.

(** X17. The payload offset is taken from the first "255" of the header
    text: when the text of [W] or of [H] contains "255" (a width of 255, or
    1255, or 2550...), a P6 file that is otherwise well formed, with a
    header of at most 20 bytes and exactly [W * H * 3] payload bytes, is
    refused for its size by [parsePPMP6] and by [parsePPM]. *)
Theorem P6_255_in_dimensions (r1 r2 r3 : Uint8Array) (ws hs : list Z)
  (sep : byte) (payload : Uint8Array) :
  r1 <> [] -> Forall ascii_space r1 ->
  r2 <> [] -> Forall ascii_space r2 ->
  r3 <> [] -> Forall ascii_space r3 ->
  decimal_digits ws -> decimal_digits hs ->
  (length (spaced_header (bytes "P6") r1 ws r2 hs r3) <= 20)%nat ->
  indexOf (numeral ws) (str "255") <> -1
  \/ indexOf (numeral hs) (str "255") <> -1 ->
  ascii_space sep ->
  Z.of_nat (length payload) = digits_value 10 ws * digits_value 10 hs * 3 ->
  parsePPMP6 (spaced_header (bytes "P6") r1 ws r2 hs r3 ++ sep :: payload)
  = Throw PixelDataSizeMismatch
  /\ parsePPM (spaced_header (bytes "P6") r1 ws r2 hs r3 ++ sep :: payload)
     = Throw PixelDataSizeMismatch.
Proof.
  intros N1 R1 N2 R2 N3 R3 Hws Hhs Hlen Hin Hsep Hpay.
  pose proof (header_fields_spaced r1 r2 r3 ws hs N1 R1 N2 R2 N3 R3 Hws Hhs)
    as Hfields.
  destruct (P6_spaced_prefix r1 r2 r3 ws hs sep payload Hfields Hlen Hsep)
    as (T & L & Hdec & Hlines).
  pose proof (short_header_digits r1 r2 r3 ws hs N1 N2 N3 Hlen) as Hdigits.
  pose proof (spaced_header_length (bytes "P6") r1 r2 r3 ws hs) as Hhl.
  pose proof (spaced_header_text (bytes "P6") r1 r2 r3 ws hs
                (proj2 Hws) (proj2 Hhs)) as Htext.
  set (header := spaced_header (bytes "P6") r1 ws r2 hs r3) in *.
  set (data := header ++ sep :: payload) in *.
  assert (Lw : length (numeral ws) = length ws) by apply length_map.
  assert (Lh : length (numeral hs) = length hs) by apply length_map.
  (* an occurrence of "255" before the last field *)
  assert (Hearly : exists j, (j + 3 < length header)%nat
                             /\ occurs_at (str "255") (map byte_val header ++ T) j).
  { assert (Hfound : forall t, indexOf t (str "255") <> -1 ->
                               exists j, occurs_at (str "255") t j
                                         /\ (j + 3 <= length t)%nat).
    { intros t Ht. unfold indexOf in Ht.
      destruct (indexOf_from_spec (str "255") t 0) as [[E _]|(j & _ & Hj & _)];
        [congruence|].
      exists j. split; [exact Hj|].
      unfold occurs_at in Hj. apply startsWith_length in Hj.
      rewrite length_skipn in Hj. change (length (str "255")) with 3%nat in Hj.
      lia. }
    rewrite Htext. destruct Hin as [Hin|Hin].
    - destruct (Hfound _ Hin) as (j & Hj & Hjl).
      exists (length (map byte_val (bytes "P6") ++ map byte_val r1) + j)%nat.
      split.
      + rewrite length_app, !length_map.
        change (length (bytes "P6")) with 2%nat in *. lia.
      + replace ((map byte_val (bytes "P6") ++ map byte_val r1 ++ numeral ws
                    ++ map byte_val r2 ++ numeral hs ++ map byte_val r3
                    ++ str "255") ++ T)
          with ((map byte_val (bytes "P6") ++ map byte_val r1) ++ numeral ws
                  ++ (map byte_val r2 ++ numeral hs ++ map byte_val r3
                        ++ str "255" ++ T))
          by (repeat rewrite <- app_assoc; reflexivity).
        apply occurs_at_inside, Hj.
    - destruct (Hfound _ Hin) as (j & Hj & Hjl).
      exists (length (map byte_val (bytes "P6") ++ map byte_val r1 ++ numeral ws
                        ++ map byte_val r2) + j)%nat.
      split.
      + rewrite !length_app, !length_map.
        change (length (bytes "P6")) with 2%nat in *.
        destruct r3; [congruence|]. simpl length in *. lia.
      + replace ((map byte_val (bytes "P6") ++ map byte_val r1 ++ numeral ws
                    ++ map byte_val r2 ++ numeral hs ++ map byte_val r3
                    ++ str "255") ++ T)
          with ((map byte_val (bytes "P6") ++ map byte_val r1 ++ numeral ws
                   ++ map byte_val r2) ++ numeral hs
                  ++ (map byte_val r3 ++ str "255" ++ T))
          by (repeat rewrite <- app_assoc; reflexivity).
        apply occurs_at_inside, Hj. }
  destruct Hearly as (j & Hj3 & Hj).
  destruct (indexOf_first_occurrence _ _ _ Hj) as (i & Hi & _ & Hbefore).
  assert (Hij : (i <= j)%nat).
  { destruct (Nat.le_gt_cases i j) as [H|H]; [exact H|].
    exfalso. exact (Hbefore j H Hj). }
  assert (Hlong : Z.of_nat (length (payloadP6 data))
                  <> Z.of_nat (length payload)).
  { unfold payloadP6. rewrite Hdec, Hi, length_skipn. unfold data.
    rewrite length_app.
    change (length (sep :: payload)) with (S (length payload)). lia. }
  destruct (short_header_expected_size (headerLinesP6 data) ws hs)
    as (_ & _ & Es);
    try (rewrite Hlines; reflexivity); try assumption.
  assert (Hthrow : parsePPMP6 data = Throw PixelDataSizeMismatch).
  { rewrite parsePPMP6_size by (rewrite Hlines; reflexivity).
    rewrite Es, <- Hpay.
    rewrite (proj2 (number_eqb_Int_false _ _)); [reflexivity|].
    intros F. injection F as F. congruence. }
  split; [exact Hthrow|].
  rewrite parsePPM_dispatch, Hlines. exact Hthrow.
Qed.

Lemma P6_255_in_dimensions_witness :
  parsePPM P6_wide = Throw PixelDataSizeMismatch.
Proof.
  refine (proj2 (P6_255_in_dimensions [x20] [x20] [x20] [2; 5; 5] [1] x0a
                   (repeat x00 765) _ _ _ _ _ _ _ _ _ _ _ _)).
  - discriminate.
  - concrete_run.
  - discriminate.
  - concrete_run.
  - discriminate.
  - concrete_run.
  - concrete_digits.
  - concrete_digits.
  - vm_compute. lia.
  - left. vm_compute. discriminate.
  - vm_compute. tauto.
  - vm_compute. reflexivity.
Defined.
